(** * Block-template assembly (miner.cpp): a shallow embedding

    The development follows src/miner.cpp: [UpdateTime], the fork-mode
    builder [CreateNewForkBlock] (both overloads), the standard builder
    [CreateNewBlock] with its orphan bookkeeping, and [IncrementExtraNonce].
    Everything the file only calls (chain state, mempool, UTXO view, script
    serialisation, hashing) is gathered in the class [Node]. *)

From Stdlib Require Import ZArith List Bool Lia.
From Stdlib Require Import Strings.Byte.
From stdpp Require Import base option list gmap.

Local Open Scope Z_scope.

(** ** Fixed-width integers *)

Definition uint32 (z : Z) : Z := z mod 2 ^ 32.
Definition uint64 (z : Z) : Z := z mod 2 ^ 64.
Definition uint256 (z : Z) : Z := z mod 2 ^ 256.

(** Conversion to a signed type keeps the bit pattern (two's complement). *)
Definition int32 (z : Z) : Z := (z + 2 ^ 31) mod 2 ^ 32 - 2 ^ 31.
Definition int64 (z : Z) : Z := (z + 2 ^ 63) mod 2 ^ 64 - 2 ^ 63.

(** ** Transactions, blocks, templates *)

Record COutPoint := mkOutPoint { hash : Z; n : Z }.

(** Modelled from the spec: the "designated null value" of a previous
    outpoint ([COutPoint::SetNull] lives in primitives/transaction.h): the
    all-zero hash with the index [(uint32_t) -1]. *)
Definition COutPoint_null : COutPoint := mkOutPoint 0 (uint32 (-1)).

Definition COutPoint_IsNull (o : COutPoint) : bool :=
  (hash o =? 0) && (n o =? uint32 (-1)).

Record CTxIn := mkTxIn { prevout : COutPoint; scriptSig : list byte; nSequence : Z }.

(** [CAmount] is a signed 64-bit integer: the file stores [-1] and [-nFees]
    in it and compares it with [<= 0]. *)
Record CTxOut := mkTxOut { nValue : Z; scriptPubKey : list byte }.

(** What [resize] appends when a vector grows: value-initialised elements. *)
Definition CTxIn_default : CTxIn := mkTxIn COutPoint_null [] (uint32 (-1)).
Definition CTxOut_default : CTxOut := mkTxOut (-1) [].

(** The shielded-transfer descriptors are opaque to this file. *)
Record CTransaction := mkTx {
  tx_nVersion : Z;
  vin : list CTxIn;
  vout : list CTxOut;
  nLockTime : Z;
  vjoinsplit : list (list byte)
}.

Definition CTransaction_default : CTransaction := mkTx 1 [] [] 0 [].

(** Modelled from the spec: "a coinbase transaction has exactly one input
    whose prev_outpoint is the designated null value" ([IsCoinBase] is
    declared in primitives/transaction.h). *)
Definition IsCoinBase (tx : CTransaction) : bool :=
  match vin tx with
  | [i] => COutPoint_IsNull (prevout i)
  | _ => false
  end.

(** [v.resize(1)] on a vector. *)
Definition resize1 {A} (d : A) (v : list A) : list A :=
  match v with
  | [] => [d]
  | x :: _ => [x]
  end.

(** [v[0] = f(v[0])] after a [resize(1)]. *)
Definition upd0 {A} (f : A -> A) (v : list A) : list A :=
  match v with
  | [] => []
  | x :: r => f x :: r
  end.

Record CBlock := mkBlock {
  nVersion : Z;
  hashPrevBlock : Z;
  hashMerkleRoot : Z;
  hashReserved : Z;
  nTime : Z;
  nBits : Z;
  nNonce : Z;
  nSolution : list byte;
  vtx : list CTransaction
}.

Definition CBlock_default : CBlock := mkBlock 0 0 0 0 0 0 0 [] [].

Record CBlockTemplate := mkTemplate {
  block : CBlock;
  vTxFees : list Z;
  vTxSigOps : list Z
}.

Record CBlockIndex := mkIndex {
  nHeight : Z;
  GetBlockHash : Z;
  GetMedianTimePast : Z
}.

Definition set_vtx (v : list CTransaction) (b : CBlock) : CBlock :=
  mkBlock (nVersion b) (hashPrevBlock b) (hashMerkleRoot b) (hashReserved b)
          (nTime b) (nBits b) (nNonce b) (nSolution b) v.

Definition set_nTime (t : Z) (b : CBlock) : CBlock :=
  mkBlock (nVersion b) (hashPrevBlock b) (hashMerkleRoot b) (hashReserved b)
          t (nBits b) (nNonce b) (nSolution b) (vtx b).

Definition set_nBits (x : Z) (b : CBlock) : CBlock :=
  mkBlock (nVersion b) (hashPrevBlock b) (hashMerkleRoot b) (hashReserved b)
          (nTime b) x (nNonce b) (nSolution b) (vtx b).

Definition set_nVersion (x : Z) (b : CBlock) : CBlock :=
  mkBlock x (hashPrevBlock b) (hashMerkleRoot b) (hashReserved b)
          (nTime b) (nBits b) (nNonce b) (nSolution b) (vtx b).

Definition set_hashPrevBlock (x : Z) (b : CBlock) : CBlock :=
  mkBlock (nVersion b) x (hashMerkleRoot b) (hashReserved b)
          (nTime b) (nBits b) (nNonce b) (nSolution b) (vtx b).

Definition set_hashMerkleRoot (x : Z) (b : CBlock) : CBlock :=
  mkBlock (nVersion b) (hashPrevBlock b) x (hashReserved b)
          (nTime b) (nBits b) (nNonce b) (nSolution b) (vtx b).

(** The tail of every builder: nonce, reserved hash, cleared solution. *)
Definition set_nonce_reserved (nonce reserved : Z) (b : CBlock) : CBlock :=
  mkBlock (nVersion b) (hashPrevBlock b) (hashMerkleRoot b) reserved
          (nTime b) (nBits b) nonce [] (vtx b).

(** [nonce <<= 32; nonce >>= 16] on an [arith_uint256]. *)
Definition randomise_nonce (rand : Z) : Z :=
  Z.shiftr (uint256 (Z.shiftl (uint256 rand) 32)) 16.

(** ** The node around the miner

    Constants, configuration and functions that miner.cpp uses and that are
    declared elsewhere in the repository. A [double] is kept abstract
    ([dbl]) together with the operations the file applies to it. *)

Record ConsensusParams := mkConsensus { fPowAllowMinDifficultyBlocks : bool }.

Record CCoins := mkCoins { coins_vout : list CTxOut; coins_nHeight : Z }.

Class Node := {
  (* chainparams and fork configuration *)
  GetConsensus : ConsensusParams;
  ForkStartHeight : Z;
  forkHeightRange : Z;
  forkCBPerBlock : Z;
  ZUtxoMiningStartBlock : Z;
  MineBlocksOnDemand : bool;
  (* consensus constants *)
  MAX_BLOCK_SIZE : Z;
  MAX_BLOCK_SIGOPS : Z;
  hashPid : list byte;
  forkExtraHashSentinel : Z;
  COINBASE_FLAGS : list byte;
  LOCKTIME_MEDIAN_TIME_PAST_set : bool;
  (* command line: the values [GetArg] returns *)
  arg_blockmaxsize : Z;
  arg_blockprioritysize : Z;
  arg_blockminsize : Z;
  arg_blockversion : Z -> Z;
  fDebug : bool;
  (* script.h: what each [CScript << x] appends *)
  push_int64 : Z -> list byte;
  push_CScriptNum : Z -> list byte;
  push_bytes : list byte -> list byte;
  OP_0 : byte;
  (* serialisation, sig-op counting, hashing *)
  GetSerializeSize : CTransaction -> Z;
  GetLegacySigOpCount : CTransaction -> Z;
  GetHash : CTransaction -> Z;
  BuildMerkleTree : list CTransaction -> Z;
  decoderawtransaction2 : list byte -> option CTransaction;
  (* chain interface *)
  GetNextWorkRequired : CBlockIndex -> CBlock -> ConsensusParams -> Z;
  ComputeBlockVersion : CBlockIndex -> ConsensusParams -> Z;
  GetBlockSubsidy : Z -> ConsensusParams -> Z;
  TestBlockValidity : CBlock -> CBlockIndex -> option bool -> bool;
  IsFinalTx : CTransaction -> Z -> Z -> bool;
  (* amounts, fee rates, priorities *)
  GetValueOut : CTransaction -> Z;
  GetJoinSplitValueIn : CTransaction -> Z;
  CFeeRate : Z -> Z -> Z;
  minRelayTxFee : Z;
  dbl : Type;
  dbl_zero : dbl;
  dbl_eqb : dbl -> dbl -> bool;
  dbl_ltb : dbl -> dbl -> bool;
  dbl_le_zero : dbl -> bool;
  dbl_add_product : dbl -> Z -> Z -> dbl;
  ComputePriority : CTransaction -> dbl -> Z -> dbl;
  AllowFree : dbl -> bool;
  ApplyDeltas : Z -> dbl -> Z -> dbl * Z;
  (* the UTXO view *)
  CCoinsViewCache : Type;
  HaveCoins : CCoinsViewCache -> Z -> bool;
  AccessCoins : CCoinsViewCache -> Z -> option CCoins;
  HaveInputs : CCoinsViewCache -> CTransaction -> bool;
  GetValueIn : CCoinsViewCache -> CTransaction -> Z;
  GetP2SHSigOpCount : CTransaction -> CCoinsViewCache -> Z;
  ContextualCheckInputs : CTransaction -> CCoinsViewCache -> bool;
  UpdateCoins : CTransaction -> CCoinsViewCache -> Z -> CCoinsViewCache
}.

(** ** UpdateTime (lines 124-131)

    [now] is the value of [GetAdjustedTime()]. The maximum is taken on
    [int64_t] values and assigned to the header's time, a field of 32 bits
    without sign: the assignment keeps it modulo 2^32. *)
Definition UpdateTime `{Node} (pblock : CBlock) (consensusParams : ConsensusParams)
    (pindexPrev : CBlockIndex) (now : Z) : CBlock :=
  let pblock := set_nTime (uint32 (Z.max (GetMedianTimePast pindexPrev + 1) now)) pblock in
  if fPowAllowMinDifficultyBlocks consensusParams
  then set_nBits (GetNextWorkRequired pindexPrev pblock consensusParams) pblock
  else pblock.

(** ** The snapshot file as a [std::ifstream]

    Only what the builder uses: [read], [eof()], conversion to [bool]. *)

Record ifstream := mkStream { rest : list byte; eofbit : bool; failbit : bool }.

Definition ifstream_open (contents : list byte) : ifstream :=
  mkStream contents false false.

(** [if (stream)]: true unless a read has failed. *)
Definition stream_ok (f : ifstream) : bool := negb (failbit f).

(** [stream.read(buf, k)]: all [k] bytes or a failure; running into the end
    of the file sets [eofbit] and [failbit], and a stream that is not good
    fails at once. *)
Definition read (f : ifstream) (k : nat) : option (list byte) * ifstream :=
  if eofbit f || failbit f then (None, mkStream (rest f) (eofbit f) true)
  else if (k <=? length (rest f))%nat
       then (Some (take k (rest f)), mkStream (drop k (rest f)) false false)
       else (None, mkStream [] true true).

(** Modelled from the spec: [bytes2uint64] (declared outside miner.cpp)
    reads "8 bytes, little-endian unsigned". *)
Fixpoint le_value (l : list byte) : Z :=
  match l with
  | [] => 0
  | b :: r => Z.of_N (Byte.to_N b) + 256 * le_value r
  end.

Definition bytes2uint64 (a : list byte) : Z := le_value (take 8 a).

(** [strtol(buf, &endptr, 2)] on the 32-byte size field: optional white
    space, optional sign, binary digits. The buffer has no terminator, so a
    scan that is not stopped by a byte inside the 32 runs past the array:
    [None]. *)
Definition is_space (b : byte) : bool :=
  let c := Byte.to_N b in ((9 <=? c) && (c <=? 13) || (c =? 32))%N.

Fixpoint strtol2_digits (acc : Z) (l : list byte) : option Z :=
  match l with
  | [] => None
  | b :: r =>
      if Byte.eqb b x30 then strtol2_digits (2 * acc) r
      else if Byte.eqb b x31 then strtol2_digits (2 * acc + 1) r
      else Some acc
  end.

Definition strtol2_signed (l : list byte) : option Z :=
  match l with
  | [] => None
  | b :: r =>
      if Byte.eqb b x2d then Z.opp <$> strtol2_digits 0 r
      else if Byte.eqb b x2b then strtol2_digits 0 r
      else strtol2_digits 0 l
  end.

Fixpoint strtol2 (l : list byte) : option Z :=
  match l with
  | [] => None
  | b :: r => if is_space b then strtol2 r else strtol2_signed l
  end.

(** ** Messages written with [LogPrintf("ERROR: ...")] by the fork builder *)

Inductive LogEvent :=
  | ErrCannotOpen        (* Cannot open UTXO file *)
  | ErrNoAmount          (* UTXO file corrupted? - No more data (Amount) *)
  | ErrNoPubKeySize      (* UTXO file corrupted? - Not more data (PubKeyScript size) *)
  | ErrPubKeySizeZero    (* UTXO file corrupted? - PubKeyScript size = 0 *)
  | ErrNoPubKeyScript    (* UTXO file corrupted? Not more data (PubKeyScript) *)
  | ErrMaxSize           (* block would exceed max size *)
  | ErrMaxSigOps         (* block would exceed max sigops *)
  | ErrSeparator         (* invalid record separator *)
  | ErrNoTxSize          (* UTXO file corrupted? - Coudn't read the transaction size *)
  | ErrTxSizeZero        (* End of UTXO file ? - Transaction size is zero *)
  | ErrNoTx.             (* UTXO file corrupted? - Coudn't read the transaction *)

Definition LogEvent_eqb (a b : LogEvent) : bool :=
  match a, b with
  | ErrCannotOpen, ErrCannotOpen | ErrNoAmount, ErrNoAmount
  | ErrNoPubKeySize, ErrNoPubKeySize | ErrPubKeySizeZero, ErrPubKeySizeZero
  | ErrNoPubKeyScript, ErrNoPubKeyScript | ErrMaxSize, ErrMaxSize
  | ErrMaxSigOps, ErrMaxSigOps | ErrSeparator, ErrSeparator
  | ErrNoTxSize, ErrNoTxSize | ErrTxSizeZero, ErrTxSizeZero
  | ErrNoTx, ErrNoTx => true
  | _, _ => false
  end.

(** The spec's SnapshotCorrupt: an error that reports the file as corrupted
    and stops the reading ([ErrPubKeySizeZero] reports it and goes on). *)
Definition SnapshotCorrupt (e : LogEvent) : bool :=
  match e with
  | ErrNoAmount | ErrNoPubKeySize | ErrNoPubKeyScript | ErrNoTxSize | ErrNoTx => true
  | _ => false
  end.

(** Field updates on transactions. *)

Definition set_vin (v : list CTxIn) (t : CTransaction) : CTransaction :=
  mkTx (tx_nVersion t) v (vout t) (nLockTime t) (vjoinsplit t).

Definition set_vout (v : list CTxOut) (t : CTransaction) : CTransaction :=
  mkTx (tx_nVersion t) (vin t) v (nLockTime t) (vjoinsplit t).

Definition set_prevout (o : COutPoint) (i : CTxIn) : CTxIn :=
  mkTxIn o (scriptSig i) (nSequence i).

Definition set_scriptSig (s : list byte) (i : CTxIn) : CTxIn :=
  mkTxIn (prevout i) s (nSequence i).

Definition set_nValue (v : Z) (o : CTxOut) : CTxOut :=
  mkTxOut v (scriptPubKey o).

Definition set_scriptPubKey (s : list byte) (o : CTxOut) : CTxOut :=
  mkTxOut (nValue o) s.

(** ** CreateNewForkBlock(bFileNotFound, nHeight): the body (lines 185-455) *)

Module Fork.

(** The running variables of the function body. *)
Record ForkState := mkFork {
  fk_vtx : list CTransaction;
  fk_vTxFees : list Z;
  fk_vTxSigOps : list Z;
  nBlockTotalAmount : Z;
  nBlockSize : Z;
  nBlockTx : Z;
  nBlockSigOps : Z;
  if_utxo : ifstream;
  fk_log : list LogEvent
}.

Definition with_stream (f : ifstream) (s : ForkState) : ForkState :=
  mkFork (fk_vtx s) (fk_vTxFees s) (fk_vTxSigOps s) (nBlockTotalAmount s)
         (nBlockSize s) (nBlockTx s) (nBlockSigOps s) f (fk_log s).

Definition LogPrintf (e : LogEvent) (s : ForkState) : ForkState :=
  mkFork (fk_vtx s) (fk_vTxFees s) (fk_vTxSigOps s) (nBlockTotalAmount s)
         (nBlockSize s) (nBlockTx s) (nBlockSigOps s) (if_utxo s) (fk_log s ++ [e]).

(** [vtx.push_back(tx); vTxFees.push_back(0); vTxSigOps.push_back(nTxSigOps);
    nBlockSize += nTxSize; nBlockSigOps += nTxSigOps;
    nBlockTotalAmount += amount; ++nBlockTx], all counters [uint64_t]. *)
Definition fork_push (tx : CTransaction) (nTxSize nTxSigOps amount : Z)
    (s : ForkState) : ForkState :=
  mkFork (fk_vtx s ++ [tx]) (fk_vTxFees s ++ [0]) (fk_vTxSigOps s ++ [nTxSigOps])
         (uint64 (nBlockTotalAmount s + amount))
         (uint64 (nBlockSize s + nTxSize))
         (uint64 (nBlockTx s + 1))
         (uint64 (nBlockSigOps s + nTxSigOps))
         (if_utxo s) (fk_log s).

Inductive flow :=
  | Next (s : ForkState)      (* go round the loop again *)
  | Break (s : ForkState)     (* [break] *)
  | Raise                     (* an exception leaves the function *)
  | Undefined.                (* the source reads outside an array *)

Section ForkBuilder.
Context `{Node}.

(** [(unsigned int)(MAX_BLOCK_SIZE - 1000)] *)
Definition fork_nBlockMaxSize : Z := uint32 (MAX_BLOCK_SIZE - 1000).

(** [CScript() << nHeight << CScriptNum(nBlockTx) << ToByteVector(hashPid) << OP_0]
    when [nBlockTx == 0], without the [hashPid] push otherwise. *)
Definition fork_scriptSig (height blockTx : Z) : list byte :=
  if blockTx =? 0
  then push_int64 height ++ push_CScriptNum (int64 blockTx) ++ push_bytes hashPid ++ [OP_0]
  else push_int64 height ++ push_CScriptNum (int64 blockTx) ++ [OP_0].

(** The dummy coinbase pushed first; [pks] stands for the 64 bytes of the
    fresh, uninitialised [char[64]]. *)
Definition dummy_coinbase (height : Z) (pks : list byte) : CTransaction :=
  let txCoinbase := CTransaction_default in
  let txCoinbase := set_vin (resize1 CTxIn_default (vin txCoinbase)) txCoinbase in
  let txCoinbase := set_vin (upd0 (set_prevout COutPoint_null) (vin txCoinbase)) txCoinbase in
  let txCoinbase := set_vout (resize1 CTxOut_default (vout txCoinbase)) txCoinbase in
  let txCoinbase := set_vout (upd0 (set_nValue 0) (vout txCoinbase)) txCoinbase in
  let txCoinbase := set_vout (upd0 (set_scriptPubKey pks) (vout txCoinbase)) txCoinbase in
  set_vin (upd0 (set_scriptSig
                   (push_int64 height ++ push_CScriptNum (int64 0)
                      ++ push_bytes hashPid ++ [OP_0]))
                (vin txCoinbase)) txCoinbase.

(** The coinbase made of one transparent record (lines 385-404). The test
    [!txNew.vout[0].nValue == 0] compares the negation, a [bool], with 0. *)
Definition transparent_coinbase (height blockTx amount : Z) (pks : list byte)
    : CTransaction :=
  let txNew := CTransaction_default in
  let txNew := set_vin (resize1 CTxIn_default (vin txNew)) txNew in
  let txNew := set_vin (upd0 (set_prevout COutPoint_null) (vin txNew)) txNew in
  let txNew := set_vout (resize1 CTxOut_default (vout txNew)) txNew in
  let txNew := set_vout (upd0 (set_scriptPubKey pks) (vout txNew)) txNew in
  let txNew := set_vout (upd0 (set_nValue (int64 amount)) (vout txNew)) txNew in
  let txNew :=
    match vout txNew with
    | o :: _ =>
        if Z.b2z (nValue o =? 0) =? 0
        then set_vout (upd0 (set_nValue (int64 (uint64 (amount * 2)))) (vout txNew)) txNew
        else txNew
    | [] => txNew
    end in
  set_vin (upd0 (set_scriptSig (fork_scriptSig height blockTx)) (vin txNew)) txNew.

(** The coinbase made of one shielded record (lines 300-309): [txM] is a
    copy of the decoded transaction with its inputs and outputs cut down. *)
Definition shielded_coinbase (txNew : CTransaction) : CTransaction :=
  let txM := txNew in
  let txM := set_vin (resize1 CTxIn_default (vin txM)) txM in
  let txM := set_vin (upd0 (set_prevout COutPoint_null) (vin txM)) txM in
  let txM := set_vout (resize1 CTxOut_default (vout txM)) txM in
  set_vout (upd0 (set_nValue 0) (vout txM)) txM.

(** The size and sig-op tests and the push that end both loop bodies. *)
Definition fork_try_push (tx : CTransaction) (amount : Z) (s : ForkState)
    : ForkState + ForkState :=
  let nTxSize := uint32 (GetSerializeSize tx) in
  if uint64 (nBlockSize s + nTxSize) >=? fork_nBlockMaxSize
  then inr (LogPrintf ErrMaxSize s)
  else
    let nTxSigOps := uint32 (GetLegacySigOpCount tx) in
    if uint64 (nBlockSigOps s + nTxSigOps) >=? MAX_BLOCK_SIGOPS
    then inr (LogPrintf ErrMaxSigOps s)
    else inl (fork_push tx nTxSize nTxSigOps amount s).

(** One turn of [while (if_utxo && nBlockTx < forkCBPerBlock)], lines 343-435. *)
Definition transparent_body (height : Z) (s : ForkState) : flow :=
  let nForkHeight := height - ForkStartHeight in
  match read (if_utxo s) 8 with
  | (None, f1) =>
      let s := with_stream f1 s in
      if negb (eofbit f1) || negb (nForkHeight =? forkHeightRange)
      then Break (LogPrintf ErrNoAmount s)
      else Break s
  | (Some coin, f1) =>
      match read f1 8 with
      | (None, f2) => Break (LogPrintf ErrNoPubKeySize (with_stream f2 s))
      | (Some pubkeysize, f2) =>
          let pbsize := int32 (bytes2uint64 pubkeysize) in
          let s := if pbsize =? 0 then LogPrintf ErrPubKeySizeZero s else s in
          if pbsize <? 0 then Raise (* new char[pbsize] *)
          else
            match read f2 (Z.to_nat pbsize) with
            | (None, f3) => Break (LogPrintf ErrNoPubKeyScript (with_stream f3 s))
            | (Some pks, f3) =>
                let s := with_stream f3 s in
                let amount := bytes2uint64 coin in
                let txNew := transparent_coinbase height (nBlockTx s) amount pks in
                match fork_try_push txNew amount s with
                | inr s => Break s
                | inl s =>
                    match read (if_utxo s) 1 with
                    | (Some [term], f4) =>
                        if Byte.eqb term x0a then Next (with_stream f4 s)
                        else Break (LogPrintf ErrSeparator (with_stream f4 s))
                    | (_, f4) => Break (LogPrintf ErrSeparator (with_stream f4 s))
                    end
                end
            end
      end
  end.

(** One turn of [while (true)], lines 244-339. *)
Definition shielded_body (s : ForkState) : flow :=
  if eofbit (if_utxo s) then Break s
  else
    match read (if_utxo s) 32 with
    | (None, f1) => Break (LogPrintf ErrNoTxSize (with_stream f1 s))
    | (Some transSize, f1) =>
        let s := with_stream f1 s in
        match strtol2 transSize with
        | None => Undefined
        | Some parsed =>
            let size := int32 parsed in
            if size =? 0 then Break (LogPrintf ErrTxSizeZero s)
            else if size <? 0 then Raise (* new char[size] *)
            else
              match read (if_utxo s) (Z.to_nat size) with
              | (None, f2) => Break (LogPrintf ErrNoTx (with_stream f2 s))
              | (Some rawTransaction, f2) =>
                  let s := with_stream f2 s in
                  match decoderawtransaction2 rawTransaction with
                  | None => Raise
                  | Some txNew =>
                      match fork_try_push (shielded_coinbase txNew) 0 s with
                      | inr s => Break s
                      | inl s =>
                          (* the shielded loop does not add to nBlockTotalAmount *)
                          Next s
                      end
                  end
              end
        end
    end.

Inductive ForkLoop :=
  | Done (s : ForkState)
  | Raised
  | UndefinedBehaviour
  | OutOfFuel.

Fixpoint transparent_loop (fuel : nat) (height : Z) (s : ForkState) : ForkLoop :=
  match fuel with
  | O => OutOfFuel
  | S fuel =>
      if stream_ok (if_utxo s) && (nBlockTx s <? forkCBPerBlock)
      then match transparent_body height s with
           | Next s => transparent_loop fuel height s
           | Break s => Done s
           | Raise => Raised
           | Undefined => UndefinedBehaviour
           end
      else Done s
  end.

Fixpoint shielded_loop (fuel : nat) (s : ForkState) : ForkLoop :=
  match fuel with
  | O => OutOfFuel
  | S fuel =>
      match shielded_body s with
      | Next s => shielded_loop fuel s
      | Break s => Done s
      | Raise => Raised
      | Undefined => UndefinedBehaviour
      end
  end.

Inductive ForkResult :=
  | FileNotFound                      (* NULL with bFileNotFound set *)
  | ForkRaised                        (* an exception left the function *)
  | ForkUndefined                     (* undefined behaviour *)
  | ForkOutOfFuel
  | ForkBuilt (t : CBlockTemplate) (log : list LogEvent).

(** The state in front of the loops: the dummy coinbase is in, with fee
    and sig-op entries [-1]. *)
Definition fork_init (height : Z) (pks : list byte) (contents : list byte) : ForkState :=
  mkFork [dummy_coinbase height pks] [-1] [-1] 0 1000 0 100 (ifstream_open contents) [].

(** What follows the loops, lines 443-454. *)
Definition fork_finish (rand : Z) (s : ForkState) : CBlockTemplate :=
  mkTemplate
    (set_nonce_reserved (randomise_nonce rand) forkExtraHashSentinel
       (set_vtx (fk_vtx s) CBlock_default))
    (fk_vTxFees s) (fk_vTxSigOps s).

(** [file] is what the path [GetUTXOFileName(nHeight)] holds ([None]: it
    cannot be opened), [pks] the bytes of the uninitialised buffer, [rand]
    the value of [GetRandHash()]. Every turn of either loop that goes on
    has consumed at least one byte, so the length of the file bounds the
    number of turns. *)
Definition CreateNewForkBlockAt (file : option (list byte)) (pks : list byte)
    (rand : Z) (height : Z) : ForkResult :=
  match file with
  | None => FileNotFound
  | Some contents =>
      let s := fork_init height pks contents in
      let fuel := S (length contents) in
      let r := if height =? ZUtxoMiningStartBlock
               then shielded_loop fuel s
               else transparent_loop fuel height s in
      match r with
      | Done s => ForkBuilt (fork_finish rand s) (fk_log s)
      | Raised => ForkRaised
      | UndefinedBehaviour => ForkUndefined
      | OutOfFuel => ForkOutOfFuel
      end
  end.

(** ** CreateNewForkBlock(bFileNotFound): the driver (lines 133-183)

    The driver looks at the active tip under [cs_main] once per turn of its
    [do ... while]; an [Observation] is what one turn finds there, together
    with the clock and the other values the turn takes from outside. *)

Record Observation := mkObs {
  ob_tip : CBlockIndex;
  ob_now : Z;
  ob_rand : Z;
  ob_pks : list byte
}.

Inductive DriverResult :=
  | Returned (t : CBlockTemplate) (log : list LogEvent)
  | NullDereference     (* the header of a NULL template is written *)
  | DriverRaised        (* an exception, TestBlockValidity included *)
  | DriverUndefined
  | DriverOutOfFuel
  | Starved.            (* the tip kept moving for all given observations *)

Definition fork_finalise (t : CBlockTemplate) (log : list LogEvent)
    (pindexPrev : CBlockIndex) (now : Z) : DriverResult :=
  let pblock := block t in
  let pblock := set_hashPrevBlock (GetBlockHash pindexPrev) pblock in
  let pblock := UpdateTime pblock GetConsensus pindexPrev now in
  let pblock := set_nBits (GetNextWorkRequired pindexPrev pblock GetConsensus) pblock in
  let pblock := set_nVersion (ComputeBlockVersion pindexPrev GetConsensus) pblock in
  if TestBlockValidity pblock pindexPrev (Some true)
  then Returned (mkTemplate pblock (vTxFees t) (vTxSigOps t)) log
  else DriverRaised.

Fixpoint CreateNewForkBlock_loop (files : Z -> option (list byte))
    (obs : list Observation) (tipHeight : Z) : DriverResult :=
  match obs with
  | [] => Starved
  | o :: obs =>
      let snappedHeight := tipHeight in
      let ret := CreateNewForkBlockAt (files (snappedHeight + 1)) (ob_pks o)
                   (ob_rand o) (snappedHeight + 1) in
      match ret with
      | ForkRaised => DriverRaised
      | ForkUndefined => DriverUndefined
      | ForkOutOfFuel => DriverOutOfFuel
      | _ =>
          let pindexPrev := ob_tip o in
          let tipHeight := nHeight pindexPrev in
          if negb (tipHeight =? snappedHeight)
          then CreateNewForkBlock_loop files obs tipHeight
          else match ret with
               | ForkBuilt t log => fork_finalise t log pindexPrev (ob_now o)
               | _ => NullDereference
               end
      end
  end.

(** [tip] is the active tip at the first [LOCK(cs_main)]; [files] maps a
    height to the contents of its snapshot file. *)
Definition CreateNewForkBlock (files : Z -> option (list byte))
    (tip : CBlockIndex) (obs : list Observation) : DriverResult :=
  CreateNewForkBlock_loop files obs (nHeight tip).

End ForkBuilder.

End Fork.

(** ** CreateNewBlock (lines 783-1039) *)

Module Standard.

(** How a part of the function can end: normally, at an [assert], or by
    reading what is not there. *)
Inductive Outcome (A : Type) :=
  | Ok (a : A)
  | AssertionFailed
  | UndefinedBehaviour.
Arguments Ok {A} a.
Arguments AssertionFailed {A}.
Arguments UndefinedBehaviour {A}.

Section StandardBuilder.
Context `{Node}.

(** [class COrphan]; the pointer [ptx] is modelled by the transaction. *)
Record COrphan := mkOrphan {
  ptx : CTransaction;
  setDependsOn : gset Z;
  feeRate : Z;
  dPriority : dbl
}.

Definition TxPriority : Type := dbl * Z * CTransaction.

(** [TxPriorityCompare::operator()] *)
Definition TxPriorityCompare (byFee : bool) (a b : TxPriority) : bool :=
  if byFee
  then if a.1.2 =? b.1.2 then dbl_ltb a.1.1 b.1.1 else a.1.2 <? b.1.2
  else if dbl_eqb a.1.1 b.1.1 then a.1.2 <? b.1.2 else dbl_ltb a.1.1 b.1.1.

(** The heap. [std::make_heap] and [std::push_heap] keep an element that
    the comparer puts below no other at the front; which one, among
    several, the standard library leaves open. The model keeps the
    elements in the order they were pushed and finds the front by a scan
    that keeps the first such element; [pop_heap] with [pop_back] removes
    it. *)
Fixpoint heap_front_from (less : TxPriority -> TxPriority -> bool)
    (best : nat) (bestv : TxPriority) (i : nat) (l : list TxPriority) : nat :=
  match l with
  | [] => best
  | x :: r =>
      if less bestv x then heap_front_from less i x (S i) r
      else heap_front_from less best bestv (S i) r
  end.

Definition heap_front (less : TxPriority -> TxPriority -> bool)
    (l : list TxPriority) : option nat :=
  match l with
  | [] => None
  | x :: r => Some (heap_front_from less 0%nat x 1%nat r)
  end.

Definition pop_heap (less : TxPriority -> TxPriority -> bool)
    (l : list TxPriority) : option (TxPriority * list TxPriority) :=
  match heap_front less l with
  | None => None
  | Some i =>
      match l !! i with
      | None => None
      | Some x => Some (x, delete i l)
      end
  end.

(** What the first loop builds. A [COrphan*] is the position of the orphan
    in [vOrphan]; [pop_back] leaves [None] there, so that a pointer kept in
    [mapDependers] to a destroyed orphan is seen as such. *)
Record Collect := mkCollect {
  vOrphan : list (option COrphan);
  mapDependers : gmap Z (list nat);
  vecPriority : list TxPriority
}.

(** The variables of one turn of the loop over [mempool.mapTx]. *)
Record InputAcc := mkAcc {
  porphan : option nat;
  acc_dPriority : dbl;
  nTotalIn : Z
}.

(** [mempool.mapTx], in the order of its keys. *)
Definition mapTx_find (mapTx : list (Z * CTransaction)) (h : Z) : option CTransaction :=
  snd <$> List.find (fun e => fst e =? h) mapTx.

Definition orphan_insert_dep (h : Z) (o : COrphan) : COrphan :=
  mkOrphan (ptx o) (setDependsOn o ∪ {[h]}) (feeRate o) (dPriority o).

Definition orphan_erase_dep (h : Z) (o : COrphan) : COrphan :=
  mkOrphan (ptx o) (setDependsOn o ∖ {[h]}) (feeRate o) (dPriority o).

Definition orphan_set_rates (p : dbl) (f : Z) (o : COrphan) : COrphan :=
  mkOrphan (ptx o) (setDependsOn o) f p.

(** [mapDependers[h].push_back(p)] *)
Definition dependers_add (h : Z) (p : nat) (m : gmap Z (list nat)) : gmap Z (list nat) :=
  <[h := default [] (m !! h) ++ [p]]> m.

(** [BOOST_FOREACH (const CTxIn& txin, tx.vin)], lines 850-886. The [bool]
    of the result is [fMissingInputs]. *)
Fixpoint scan_inputs (mapTx : list (Z * CTransaction)) (view : CCoinsViewCache)
    (height : Z) (tx : CTransaction) (ins : list CTxIn) (c : Collect) (a : InputAcc)
    : Outcome (Collect * InputAcc * bool) :=
  match ins with
  | [] => Ok (c, a, false)
  | txin :: ins =>
      let h := hash (prevout txin) in
      if negb (HaveCoins view h) then
        match mapTx_find mapTx h with
        | None =>
            if fDebug then AssertionFailed
            else
              let c := match porphan a with
                       | Some _ =>
                           mkCollect (<[pred (length (vOrphan c)) := None]> (vOrphan c))
                                     (mapDependers c) (vecPriority c)
                       | None => c
                       end in
              Ok (c, a, true)
        | Some parent =>
            let '(orphans, p) :=
              match porphan a with
              | Some p => (vOrphan c, p)
              | None => (vOrphan c ++ [Some (mkOrphan tx ∅ 0 dbl_zero)], length (vOrphan c))
              end in
            match orphans !! p with
            | Some (Some o) =>
                let c := mkCollect (<[p := Some (orphan_insert_dep h o)]> orphans)
                                   (dependers_add h p (mapDependers c)) (vecPriority c) in
                match vout parent !! Z.to_nat (n (prevout txin)) with
                | None => UndefinedBehaviour
                | Some o =>
                    scan_inputs mapTx view height tx ins c
                      (mkAcc (Some p) (acc_dPriority a) (int64 (nTotalIn a + nValue o)))
                end
            | _ => UndefinedBehaviour
            end
        end
      else
        match AccessCoins view h with
        | None => AssertionFailed
        | Some coins =>
            match coins_vout coins !! Z.to_nat (n (prevout txin)) with
            | None => UndefinedBehaviour
            | Some o =>
                let nValueIn := nValue o in
                let nConf := height - coins_nHeight coins in
                scan_inputs mapTx view height tx ins c
                  (mkAcc (porphan a) (dbl_add_product (acc_dPriority a) nValueIn nConf)
                         (int64 (nTotalIn a + nValueIn)))
            end
        end
  end.

(** One turn of the loop over [mempool.mapTx], lines 839-905. *)
Definition collect_tx (mapTx : list (Z * CTransaction)) (view : CCoinsViewCache)
    (height nLockTimeCutoff : Z) (tx : CTransaction) (c : Collect) : Outcome Collect :=
  if IsCoinBase tx || negb (IsFinalTx tx height nLockTimeCutoff) then Ok c
  else
    match scan_inputs mapTx view height tx (vin tx) c (mkAcc None dbl_zero 0) with
    | AssertionFailed => AssertionFailed
    | UndefinedBehaviour => UndefinedBehaviour
    | Ok (c, a, fMissingInputs) =>
        let nTotalIn := int64 (nTotalIn a + GetJoinSplitValueIn tx) in
        if fMissingInputs then Ok c
        else
          let nTxSize := uint32 (GetSerializeSize tx) in
          let dPriority := ComputePriority tx (acc_dPriority a) nTxSize in
          let hash := GetHash tx in
          let '(dPriority, nTotalIn) := ApplyDeltas hash dPriority nTotalIn in
          let feeRate := CFeeRate (int64 (nTotalIn - GetValueOut tx)) nTxSize in
          match porphan a with
          | Some p =>
              match vOrphan c !! p with
              | Some (Some o) =>
                  Ok (mkCollect (<[p := Some (orphan_set_rates dPriority feeRate o)]> (vOrphan c))
                                (mapDependers c) (vecPriority c))
              | _ => UndefinedBehaviour
              end
          | None =>
              Ok (mkCollect (vOrphan c) (mapDependers c)
                            (vecPriority c ++ [(dPriority, feeRate, tx)]))
          end
    end.

Fixpoint collect (mapTx : list (Z * CTransaction)) (view : CCoinsViewCache)
    (height nLockTimeCutoff : Z) (todo : list (Z * CTransaction)) (c : Collect)
    : Outcome Collect :=
  match todo with
  | [] => Ok c
  | (_, tx) :: todo =>
      match collect_tx mapTx view height nLockTimeCutoff tx c with
      | Ok c => collect mapTx view height nLockTimeCutoff todo c
      | r => r
      end
  end.

(** The variables of the selection loop, lines 909-997. [nBlockSigOps] is
    an [int] here, the two other counters are [uint64_t]. *)
Record Select := mkSelect {
  queue : list TxPriority;            (* vecPriority *)
  orphans : list (option COrphan);    (* vOrphan *)
  view : CCoinsViewCache;
  sel_vtx : list CTransaction;
  sel_vTxFees : list Z;
  sel_vTxSigOps : list Z;
  nBlockSize : Z;
  nBlockTx : Z;
  nBlockSigOps : Z;
  nFees : Z;
  fSortedByFee : bool
}.

(** [BOOST_FOREACH (COrphan* porphan, mapDependers[hash])], lines 987-995.
    [None]: a pointer to a destroyed orphan is followed. *)
Fixpoint release_dependers (hash : Z) (ps : list nat)
    (orph : list (option COrphan)) (vec : list TxPriority)
    : option (list (option COrphan) * list TxPriority) :=
  match ps with
  | [] => Some (orph, vec)
  | p :: ps =>
      match orph !! p with
      | Some (Some o) =>
          if negb (bool_decide (setDependsOn o = ∅)) then
            let o := orphan_erase_dep hash o in
            let orph := <[p := Some o]> orph in
            if bool_decide (setDependsOn o = ∅)
            then release_dependers hash ps orph (vec ++ [(dPriority o, feeRate o, ptx o)])
            else release_dependers hash ps orph vec
          else release_dependers hash ps orph vec
      | _ => None
      end
  end.

Definition with_queue (q : list TxPriority) (s : Select) : Select :=
  mkSelect q (orphans s) (view s) (sel_vtx s) (sel_vTxFees s) (sel_vTxSigOps s)
           (nBlockSize s) (nBlockTx s) (nBlockSigOps s) (nFees s) (fSortedByFee s).

Definition with_fSortedByFee (b : bool) (s : Select) : Select :=
  mkSelect (queue s) (orphans s) (view s) (sel_vtx s) (sel_vTxFees s) (sel_vTxSigOps s)
           (nBlockSize s) (nBlockTx s) (nBlockSigOps s) (nFees s) b.

(** One turn of [while (!vecPriority.empty())] once the front
    [(dPriority, feeRate, tx)] has been taken off the queue; a [continue]
    is the state as it stands. *)
Definition select_tx (mapDependers : gmap Z (list nat))
    (height nBlockMaxSize nBlockPrioritySize nBlockMinSize : Z)
    (front : TxPriority) (s : Select) : option Select :=
  let dPriority := front.1.1 in
  let feeRate := front.1.2 in
  let tx := front.2 in
  let nTxSize := uint32 (GetSerializeSize tx) in
  if uint64 (nBlockSize s + nTxSize) >=? nBlockMaxSize then Some s
  else
    let nTxSigOps := uint32 (GetLegacySigOpCount tx) in
    if uint32 (nBlockSigOps s + nTxSigOps) >=? MAX_BLOCK_SIGOPS then Some s
    else
      let hash := GetHash tx in
      let '(dPriorityDelta, nFeeDelta) := ApplyDeltas hash dbl_zero 0 in
      if fSortedByFee s && dbl_le_zero dPriorityDelta && (nFeeDelta <=? 0)
         && (feeRate <? minRelayTxFee)
         && (uint64 (nBlockSize s + nTxSize) >=? nBlockMinSize)
      then Some s
      else
        let s :=
          if negb (fSortedByFee s)
             && ((uint64 (nBlockSize s + nTxSize) >=? nBlockPrioritySize)
                 || negb (AllowFree dPriority))
          then with_fSortedByFee true s
          else s in
        if negb (HaveInputs (view s) tx) then Some s
        else
          let nTxFees := int64 (GetValueIn (view s) tx - GetValueOut tx) in
          let nTxSigOps := uint32 (nTxSigOps + GetP2SHSigOpCount tx (view s)) in
          if uint32 (nBlockSigOps s + nTxSigOps) >=? MAX_BLOCK_SIGOPS then Some s
          else if negb (ContextualCheckInputs tx (view s)) then Some s
          else
            let view' := UpdateCoins tx (view s) height in
            let s := mkSelect (queue s) (orphans s) view'
                       (sel_vtx s ++ [tx]) (sel_vTxFees s ++ [nTxFees])
                       (sel_vTxSigOps s ++ [nTxSigOps])
                       (uint64 (nBlockSize s + nTxSize))
                       (uint64 (nBlockTx s + 1))
                       (int32 (nBlockSigOps s + nTxSigOps))
                       (int64 (nFees s + nTxFees))
                       (fSortedByFee s) in
            match mapDependers !! hash with
            | None => Some s
            | Some ps =>
                match release_dependers hash ps (orphans s) (queue s) with
                | None => None
                | Some (orph, vec) =>
                    Some (mkSelect vec orph (view s) (sel_vtx s) (sel_vTxFees s)
                            (sel_vTxSigOps s) (nBlockSize s) (nBlockTx s)
                            (nBlockSigOps s) (nFees s) (fSortedByFee s))
                end
            end.

(** [None] when the fuel runs out, [Some None] on undefined behaviour. *)
Fixpoint select_loop (fuel : nat) (mapDependers : gmap Z (list nat))
    (height nBlockMaxSize nBlockPrioritySize nBlockMinSize : Z)
    (s : Select) : option (option Select) :=
  match fuel with
  | O => None
  | S fuel =>
      match pop_heap (TxPriorityCompare (fSortedByFee s)) (queue s) with
      | None => Some (Some s)
      | Some (front, q) =>
          match select_tx mapDependers height nBlockMaxSize nBlockPrioritySize
                  nBlockMinSize front (with_queue q s) with
          | None => Some None
          | Some s =>
              select_loop fuel mapDependers height nBlockMaxSize
                nBlockPrioritySize nBlockMinSize s
          end
      end
  end.

(** Orphans that still wait: each of them can enter the queue once. *)
Definition is_waiting (c : option COrphan) : bool :=
  match c with
  | Some o => negb (bool_decide (setDependsOn o = ∅))
  | None => false
  end.

Definition waiting (orph : list (option COrphan)) : nat :=
  length (List.filter is_waiting orph).

Inductive BuildResult :=
  | Built (t : CBlockTemplate)
  | BuildAssertionFailed
  | BuildUndefined
  | BuildRaised          (* TestBlockValidity failed *)
  | BuildOutOfFuel.

(** The coinbase of lines 1004-1013. *)
Definition miner_coinbase (scriptPubKeyIn : list byte) (height fees : Z) : CTransaction :=
  let txNew := CTransaction_default in
  let txNew := set_vin (resize1 CTxIn_default (vin txNew)) txNew in
  let txNew := set_vin (upd0 (set_prevout COutPoint_null) (vin txNew)) txNew in
  let txNew := set_vout (resize1 CTxOut_default (vout txNew)) txNew in
  let txNew := set_vout (upd0 (set_scriptPubKey scriptPubKeyIn) (vout txNew)) txNew in
  let txNew := set_vout (upd0 (set_nValue (GetBlockSubsidy height GetConsensus)) (vout txNew)) txNew in
  let txNew := set_vout (upd0 (fun o => set_nValue (int64 (nValue o + fees)) o) (vout txNew)) txNew in
  set_vin (upd0 (set_scriptSig (push_int64 height ++ [OP_0])) (vin txNew)) txNew.

(** Lines 999-1036. *)
Definition finish_block (scriptPubKeyIn : list byte) (pindexPrev : CBlockIndex)
    (height version now rand : Z) (s : Select) : BuildResult :=
  let txNew := miner_coinbase scriptPubKeyIn height (nFees s) in
  let body := <[0%nat := txNew]> (sel_vtx s) in
  let vTxFees := <[0%nat := int64 (- nFees s)]> (sel_vTxFees s) in
  let pblock := mkBlock version 0 0 0 0 0 0 [] body in
  let pblock := mkBlock (nVersion pblock) (GetBlockHash pindexPrev) (hashMerkleRoot pblock)
                  0 (nTime pblock) (nBits pblock) (randomise_nonce rand)
                  (nSolution pblock) (vtx pblock) in
  let pblock := UpdateTime pblock GetConsensus pindexPrev now in
  let pblock := set_nBits (GetNextWorkRequired pindexPrev pblock GetConsensus) pblock in
  let pblock := set_nonce_reserved (nNonce pblock) (hashReserved pblock) pblock in
  let vTxSigOps :=
    match vtx pblock with
    | tx0 :: _ => <[0%nat := GetLegacySigOpCount tx0]> (sel_vTxSigOps s)
    | [] => sel_vTxSigOps s
    end in
  if TestBlockValidity pblock pindexPrev None
  then Built (mkTemplate pblock vTxFees vTxSigOps)
  else BuildRaised.

(** [mapTx] is [mempool.mapTx] in key order, [pcoinsTip] the UTXO set the
    view is made of, [pindexPrev] the active tip; [now] and [now'] are the
    two values of [GetAdjustedTime()], [rand] that of [GetRandHash()]. *)
Definition CreateNewBlock (scriptPubKeyIn : list byte)
    (mapTx : list (Z * CTransaction)) (pcoinsTip : CCoinsViewCache)
    (pindexPrev : CBlockIndex) (now now' rand : Z) : BuildResult :=
  let nBlockMaxSize := uint32 arg_blockmaxsize in
  let nBlockMaxSize := Z.max 1000 (Z.min (uint32 (MAX_BLOCK_SIZE - 1000)) nBlockMaxSize) in
  let nBlockPrioritySize := Z.min nBlockMaxSize (uint32 arg_blockprioritysize) in
  let nBlockMinSize := Z.min nBlockMaxSize (uint32 arg_blockminsize) in
  let height := nHeight pindexPrev + 1 in
  let nMedianTimePast := GetMedianTimePast pindexPrev in
  let version := ComputeBlockVersion pindexPrev GetConsensus in
  let version := if MineBlocksOnDemand then int32 (arg_blockversion version) else version in
  let nLockTimeCutoff :=
    if LOCKTIME_MEDIAN_TIME_PAST_set then nMedianTimePast
    else uint32 now (* pblock->GetBlockTime(), after pblock->nTime = GetAdjustedTime() *) in
  match collect mapTx pcoinsTip height nLockTimeCutoff mapTx (mkCollect [] ∅ []) with
  | AssertionFailed => BuildAssertionFailed
  | UndefinedBehaviour => BuildUndefined
  | Ok c =>
      let s := mkSelect (vecPriority c) (vOrphan c) pcoinsTip
                 [CTransaction_default] [-1] [-1] 1000 0 100 0
                 (nBlockPrioritySize <=? 0) in
      let fuel := S (length (vecPriority c) + waiting (vOrphan c)) in
      match select_loop fuel (mapDependers c) height nBlockMaxSize
              nBlockPrioritySize nBlockMinSize s with
      | None => BuildOutOfFuel
      | Some None => BuildUndefined
      | Some (Some s) => finish_block scriptPubKeyIn pindexPrev height version now' rand s
      end
  end.

(** ** IncrementExtraNonce (lines 1090-1106)

    [static_hashPrevBlock] is the function's [static] variable. *)
Inductive ExtraNonceResult :=
  | NonceDone (pblock : CBlock) (nExtraNonce : Z) (static_hashPrevBlock : Z)
  | NonceAssertionFailed
  | NonceUndefined.

Definition IncrementExtraNonce (static_hashPrevBlock : Z) (pblock : CBlock)
    (pindexPrev : CBlockIndex) (nExtraNonce : Z) : ExtraNonceResult :=
  let '(nExtraNonce, static_hashPrevBlock) :=
    if negb (static_hashPrevBlock =? hashPrevBlock pblock)
    then (0, hashPrevBlock pblock)
    else (nExtraNonce, static_hashPrevBlock) in
  let nExtraNonce := uint32 (nExtraNonce + 1) in
  let height := uint32 (nHeight pindexPrev + 1) in
  match vtx pblock with
  | [] => NonceUndefined
  | tx0 :: _ =>
      match vin tx0 with
      | [] => NonceUndefined
      | _ :: _ =>
          let script := (push_int64 height ++ push_CScriptNum nExtraNonce) ++ COINBASE_FLAGS in
          let txCoinbase := set_vin (upd0 (set_scriptSig script) (vin tx0)) tx0 in
          if (Z.of_nat (length script) <=? 100) then
            let pblock := set_vtx (<[0%nat := txCoinbase]> (vtx pblock)) pblock in
            NonceDone (set_hashMerkleRoot (BuildMerkleTree (vtx pblock)) pblock)
                      nExtraNonce static_hashPrevBlock
          else NonceAssertionFailed
      end
  end.

End StandardBuilder.

End Standard.

(** ** A concrete node for worked examples

    Stand-ins for the collaborators, small enough to evaluate. The script
    pushes follow script.h ([CScriptNum::serialize], length-prefixed data);
    sizes follow the wire layout; a double is replaced by an integer; the
    decoder of a shielded record puts the raw bytes in the script of a
    single input and in one shielded descriptor. *)

Module Scenario.

Definition byte_of (z : Z) : byte := default x00 (Byte.of_N (Z.to_N (z mod 256))).

Fixpoint magnitude_bytes (fuel : nat) (z : Z) : list byte :=
  match fuel with
  | O => []
  | S fuel => if z =? 0 then [] else byte_of z :: magnitude_bytes fuel (z / 256)
  end.

Definition CScriptNum_serialize (v : Z) : list byte :=
  let m := magnitude_bytes 9 (Z.abs v) in
  match List.last (map Some m) None with
  | None => []
  | Some top =>
      if Z.testbit (Z.of_N (Byte.to_N top)) 7
      then m ++ [if v <? 0 then x80 else x00]
      else if v <? 0
           then removelast m ++ [byte_of (Z.of_N (Byte.to_N top) + 128)]
           else m
  end.

Definition push_data (b : list byte) : list byte :=
  byte_of (Z.of_nat (length b)) :: b.

Definition push_number (v : Z) : list byte :=
  if (v =? -1) || ((1 <=? v) && (v <=? 16)) then [byte_of (v + 80)]
  else push_data (CScriptNum_serialize v).

Definition wire_size (tx : CTransaction) : Z :=
  4 + 1 + Z.of_nat (length (vin tx)) * 41
    + Z.of_nat (length (concat (map scriptSig (vin tx))))
    + 1 + Z.of_nat (length (vout tx)) * 9
    + Z.of_nat (length (concat (map scriptPubKey (vout tx))))
    + 4 + Z.of_nat (length (concat (vjoinsplit tx))).

Definition toy_decode (raw : list byte) : option CTransaction :=
  Some (mkTx 2 [mkTxIn (mkOutPoint 7 0) raw 0] [] 0 [raw]).

(** The UTXO view of the examples: the coins of each known transaction. *)
Definition toy_view : Type := list (Z * CCoins).

Definition toy_coins (v : toy_view) (h : Z) : option CCoins :=
  snd <$> List.find (fun e => fst e =? h) v.

Definition toy_value_in (v : toy_view) (tx : CTransaction) : Z :=
  fold_right Z.add 0
    (map (fun i => match toy_coins v (hash (prevout i)) with
                   | Some c => default 0 (nValue <$> coins_vout c !! Z.to_nat (n (prevout i)))
                   | None => 0
                   end) (vin tx)).

Definition value_out (tx : CTransaction) : Z :=
  fold_right Z.add 0 (map nValue (vout tx)).

(** The examples give every transaction its own lock time and use it
    in place of the hash. *)
Definition toy_hash (tx : CTransaction) : Z := nLockTime tx.

Definition node (cap zstart : Z) : Node := {|
  GetConsensus := mkConsensus false;
  ForkStartHeight := 100;
  forkHeightRange := 5;
  forkCBPerBlock := cap;
  ZUtxoMiningStartBlock := zstart;
  MineBlocksOnDemand := false;
  MAX_BLOCK_SIZE := 2000000;
  MAX_BLOCK_SIGOPS := 20000;
  hashPid := repeat xab 32;
  forkExtraHashSentinel := 2 ^ 255 + 1;
  COINBASE_FLAGS := [];
  LOCKTIME_MEDIAN_TIME_PAST_set := true;
  arg_blockmaxsize := 2000000;
  arg_blockprioritysize := 1000000;
  arg_blockminsize := 0;
  arg_blockversion := fun v => v;
  fDebug := false;
  push_int64 := push_number;
  push_CScriptNum := fun v => push_data (CScriptNum_serialize v);
  push_bytes := push_data;
  OP_0 := x00;
  GetSerializeSize := wire_size;
  GetLegacySigOpCount := fun _ => 0;
  GetHash := toy_hash;
  BuildMerkleTree := fun l => fold_right Z.add 0 (map toy_hash l);
  decoderawtransaction2 := toy_decode;
  GetNextWorkRequired := fun _ _ _ => 0x1f07ffff;
  ComputeBlockVersion := fun _ _ => 4;
  GetBlockSubsidy := fun _ _ => 1250000000;
  TestBlockValidity := fun _ _ _ => true;
  IsFinalTx := fun _ _ _ => true;
  GetValueOut := value_out;
  GetJoinSplitValueIn := fun _ => 0;
  CFeeRate := fun fee size => if 0 <? size then fee * 1000 / size else 0;
  minRelayTxFee := 100;
  dbl := Z;
  dbl_zero := 0;
  dbl_eqb := Z.eqb;
  dbl_ltb := Z.ltb;
  dbl_le_zero := fun d => d <=? 0;
  dbl_add_product := fun d v c => d + v * c;
  ComputePriority := fun _ d size => if 0 <? size then d / size else 0;
  AllowFree := fun d => 57600000 <? d;
  ApplyDeltas := fun _ d a => (d, a);
  CCoinsViewCache := toy_view;
  HaveCoins := fun v h => bool_decide (is_Some (toy_coins v h));
  AccessCoins := toy_coins;
  HaveInputs := fun v tx =>
    forallb (fun i => bool_decide (is_Some (toy_coins v (hash (prevout i))))) (vin tx);
  GetValueIn := toy_value_in;
  GetP2SHSigOpCount := fun _ _ => 0;
  ContextualCheckInputs := fun _ _ => true;
  UpdateCoins := fun tx v height => v ++ [(toy_hash tx, mkCoins (vout tx) height)]
|}.

(** The same node with another [MAX_BLOCK_SIZE]. *)
Definition with_max_block_size (m : Z) (nd : Node) : Node := {|
  GetConsensus := @GetConsensus nd;
  ForkStartHeight := @ForkStartHeight nd;
  forkHeightRange := @forkHeightRange nd;
  forkCBPerBlock := @forkCBPerBlock nd;
  ZUtxoMiningStartBlock := @ZUtxoMiningStartBlock nd;
  MineBlocksOnDemand := @MineBlocksOnDemand nd;
  MAX_BLOCK_SIZE := m;
  MAX_BLOCK_SIGOPS := @MAX_BLOCK_SIGOPS nd;
  hashPid := @hashPid nd;
  forkExtraHashSentinel := @forkExtraHashSentinel nd;
  COINBASE_FLAGS := @COINBASE_FLAGS nd;
  LOCKTIME_MEDIAN_TIME_PAST_set := @LOCKTIME_MEDIAN_TIME_PAST_set nd;
  arg_blockmaxsize := @arg_blockmaxsize nd;
  arg_blockprioritysize := @arg_blockprioritysize nd;
  arg_blockminsize := @arg_blockminsize nd;
  arg_blockversion := @arg_blockversion nd;
  fDebug := @fDebug nd;
  push_int64 := @push_int64 nd;
  push_CScriptNum := @push_CScriptNum nd;
  push_bytes := @push_bytes nd;
  OP_0 := @OP_0 nd;
  GetSerializeSize := @GetSerializeSize nd;
  GetLegacySigOpCount := @GetLegacySigOpCount nd;
  GetHash := @GetHash nd;
  BuildMerkleTree := @BuildMerkleTree nd;
  decoderawtransaction2 := @decoderawtransaction2 nd;
  GetNextWorkRequired := @GetNextWorkRequired nd;
  ComputeBlockVersion := @ComputeBlockVersion nd;
  GetBlockSubsidy := @GetBlockSubsidy nd;
  TestBlockValidity := @TestBlockValidity nd;
  IsFinalTx := @IsFinalTx nd;
  GetValueOut := @GetValueOut nd;
  GetJoinSplitValueIn := @GetJoinSplitValueIn nd;
  CFeeRate := @CFeeRate nd;
  minRelayTxFee := @minRelayTxFee nd;
  dbl := @dbl nd;
  dbl_zero := @dbl_zero nd;
  dbl_eqb := @dbl_eqb nd;
  dbl_ltb := @dbl_ltb nd;
  dbl_le_zero := @dbl_le_zero nd;
  dbl_add_product := @dbl_add_product nd;
  ComputePriority := @ComputePriority nd;
  AllowFree := @AllowFree nd;
  ApplyDeltas := @ApplyDeltas nd;
  CCoinsViewCache := @CCoinsViewCache nd;
  HaveCoins := @HaveCoins nd;
  AccessCoins := @AccessCoins nd;
  HaveInputs := @HaveInputs nd;
  GetValueIn := @GetValueIn nd;
  GetP2SHSigOpCount := @GetP2SHSigOpCount nd;
  ContextualCheckInputs := @ContextualCheckInputs nd;
  UpdateCoins := @UpdateCoins nd
|}.

(** Eight bytes, little-endian. *)
Definition le8 (z : Z) : list byte :=
  map (fun i => byte_of (z / 256 ^ Z.of_nat i)) (seq 0 8).

(** One transparent record: amount, script length, script, separator. *)
Definition record (amount : Z) (script : list byte) : list byte :=
  le8 amount ++ le8 (Z.of_nat (length script)) ++ script ++ [x0a].

(** One shielded record whose size field holds the binary digits and is
    padded with NUL bytes. *)
Fixpoint binary_digits (fuel : nat) (z : Z) (acc : list byte) : list byte :=
  match fuel with
  | O => acc
  | S fuel =>
      if z =? 0 then acc
      else binary_digits fuel (z / 2) ((if Z.odd z then x31 else x30) :: acc)
  end.

Definition shielded_record (raw : list byte) : list byte :=
  let digits := binary_digits 31 (Z.of_nat (length raw)) [] in
  digits ++ repeat x00 (32 - length digits) ++ raw.

(** Inputs of the worked examples. The fork window of [node] is
    [101 .. 105]; [node cap 103] reads height 103 in the shielded format. *)
Definition pks64 : list byte := repeat x00 64.

Definition three_records : list byte :=
  record 0 [x51] ++ record 100 [x52; x53] ++ record 250 [].

Definition overflow_record : list byte := record (2 ^ 63) [x51].

Definition truncated_file : list byte := record 7 [x51] ++ [x01; x02; x03].

Definition two_shielded_records : list byte :=
  shielded_record [x01; x02; x03] ++ shielded_record [x04].

Definition long_shielded_record : list byte := shielded_record (repeat x51 101).

(** Two transparent records, the second with the script length 0, for a
    block of at most 2150 bytes. *)
Definition zero_length_second : list byte := record 5 [x51] ++ record 250 [].

(** A file that ends inside the script of its record, whose length field
    has bit 31 set. *)
Definition negative_length_file : list byte := le8 5 ++ le8 (2 ^ 31) ++ [x51].

(** A mempool of three transactions, each spending the next one in key
    order: [txC] spends [txB], [txB] spends [txA], [txA] spends a coin of
    the chain. *)
Definition txA : CTransaction :=
  mkTx 1 [mkTxIn (mkOutPoint 900 0) [] 0] [mkTxOut 4000 [x51]] 11 [].
Definition txB : CTransaction :=
  mkTx 1 [mkTxIn (mkOutPoint 11 0) [] 0] [mkTxOut 3000 [x51]] 7 [].
Definition txC : CTransaction :=
  mkTx 1 [mkTxIn (mkOutPoint 7 0) [] 0] [mkTxOut 2000 [x51]] 5 [].

Definition chain_coins : toy_view := [(900, mkCoins [mkTxOut 5000 [x51]] 50)].

Definition pool : list (Z * CTransaction) := [(5, txC); (7, txB); (11, txA)].

Definition tip : CBlockIndex := mkIndex 300 77 1000.

Definition built_block (r : Standard.BuildResult) : CBlockTemplate :=
  match r with
  | Standard.Built t => t
  | _ => mkTemplate CBlock_default [] []
  end.

(** The template and the log of a run of the fork builder. *)
Definition built (r : Fork.ForkResult) : CBlockTemplate :=
  match r with
  | Fork.ForkBuilt t _ => t
  | _ => mkTemplate CBlock_default [] []
  end.

Definition built_log (r : Fork.ForkResult) : list LogEvent :=
  match r with
  | Fork.ForkBuilt _ l => l
  | _ => []
  end.

Definition tx_at (i : nat) (t : CBlockTemplate) : CTransaction :=
  default CTransaction_default (vtx (block t) !! i).

End Scenario.

(** ** Vocabulary of the statements *)

(** Two states of the fork builder's loop with the same template so far. *)
Definition unchanged (s s' : Fork.ForkState) : Prop :=
  Fork.fk_vtx s' = Fork.fk_vtx s /\ Fork.fk_vTxFees s' = Fork.fk_vTxFees s /\
  Fork.nBlockTx s' = Fork.nBlockTx s.

(** [s'] is [s] with one more transaction, its fee entry and the count. *)
Definition appended (tx : CTransaction) (s s' : Fork.ForkState) : Prop :=
  Fork.fk_vtx s' = Fork.fk_vtx s ++ [tx] /\ Fork.fk_vTxFees s' = Fork.fk_vTxFees s ++ [0] /\
  Fork.nBlockTx s' = uint64 (Fork.nBlockTx s + 1).

Definition stream_good (f : ifstream) : Prop := eofbit f = false /\ failbit f = false.

Definition all_coinbase (l : list CTransaction) : Prop :=
  Forall (fun tx => IsCoinBase tx = true) l.

Definition coinbase_first_only (l : list CTransaction) : Prop :=
  match l with
  | [] => False
  | cb :: more => IsCoinBase cb = true /\ Forall (fun tx => IsCoinBase tx = false) more
  end.

(** The transactions of a fork template that come from the snapshot file:
    all but the dummy coinbase. *)
Definition synthetic_count (t : CBlockTemplate) : Z :=
  Z.of_nat (length (vtx (block t))) - 1.

(** I2 of the spec: [fees[0] == - sum of fees[i > 0]]. *)
Definition fees_balanced (fees : list Z) : Prop :=
  match fees with
  | [] => False
  | f0 :: more => f0 = - fold_right Z.add 0 more
  end.

(** The doubling rule in the spec's words: 0 stays 0, a > 0 becomes 2a. *)
Definition spec_doubling (a : Z) : Z := if a =? 0 then 0 else 2 * a.

(** The records of a transparent snapshot as the reader delimits them:
    the amount, the script, and what follows the script. *)
Definition split_one (r : list byte) : option (Z * list byte * list byte) :=
  if (16 <=? length r)%nat then
    let len := int32 (bytes2uint64 (take 8 (drop 8 r))) in
    if (0 <=? len) && (Z.to_nat len <=? length (drop 16 r))%nat
    then Some (bytes2uint64 (take 8 r),
               take (Z.to_nat len) (drop 16 r),
               drop (Z.to_nat len) (drop 16 r))
    else None
  else None.

Fixpoint split_records (fuel : nat) (r : list byte) : list (Z * list byte) :=
  match fuel with
  | O => []
  | S fuel =>
      match split_one r with
      | None => []
      | Some (a, script, after) =>
          (a, script) ::
          match after with
          | b :: r' => if Byte.eqb b x0a then split_records fuel r' else []
          | [] => []
          end
      end
  end.

Definition transparent_records (contents : list byte) : list (Z * list byte) :=
  split_records (S (length contents)) contents.

(** The records of a shielded snapshot as the reader delimits them: the
    bytes of the transaction, and what follows them. *)
Definition shielded_split_one (r : list byte) : option (list byte * list byte) :=
  if (32 <=? length r)%nat then
    match strtol2 (take 32 r) with
    | Some parsed =>
        let size := int32 parsed in
        if (0 <? size) && (Z.to_nat size <=? length (drop 32 r))%nat
        then Some (take (Z.to_nat size) (drop 32 r), drop (Z.to_nat size) (drop 32 r))
        else None
    | None => None
    end
  else None.

Fixpoint shielded_split (fuel : nat) (r : list byte) : list (list byte) :=
  match fuel with
  | O => []
  | S fuel =>
      match shielded_split_one r with
      | None => []
      | Some (raw, after) => raw :: shielded_split fuel after
      end
  end.

Definition shielded_records (contents : list byte) : list (list byte) :=
  shielded_split (S (length contents)) contents.

(** Either loop of the fork builder, from the state in front of it to the
    state after it. *)
Definition fork_loops `{Node} (contents pks : list byte) (h : Z) : Fork.ForkLoop :=
  if h =? ZUtxoMiningStartBlock
  then Fork.shielded_loop (S (length contents)) (Fork.fork_init h pks contents)
  else Fork.transparent_loop (S (length contents)) h (Fork.fork_init h pks contents).

(** The log entries one transparent record gives rise to when it is taken
    in: its script and what follows the script decide. *)
Definition record_log (script after : list byte) : list LogEvent :=
  (if (length script =? 0)%nat then [ErrPubKeySizeZero] else []) ++
  match after with
  | b :: _ => if Byte.eqb b x0a then [] else [ErrSeparator]
  | [] => [ErrSeparator]
  end.

(** The script [IncrementExtraNonce] assembles. *)
Definition extra_nonce_script `{Node} (static_hashPrevBlock : Z) (pblock : CBlock)
    (pindexPrev : CBlockIndex) (nExtraNonce : Z) : list byte :=
  let counter := if negb (static_hashPrevBlock =? hashPrevBlock pblock)
                 then 0 else nExtraNonce in
  (push_int64 (uint32 (nHeight pindexPrev + 1))
     ++ push_CScriptNum (uint32 (counter + 1))) ++ COINBASE_FLAGS.

(** I5 of the spec on the transactions of a template: a parent that the
    chain's UTXO view [pcoinsTip] does not have stands earlier in the
    template, after the coinbase. *)
Definition parents_first `{Node} (pcoinsTip : CCoinsViewCache)
    (body : list CTransaction) : Prop :=
  forall i tx txin,
    (1 <= i)%nat -> body !! i = Some tx -> In txin (vin tx) ->
    HaveCoins pcoinsTip (hash (prevout txin)) = false ->
    exists j parent,
      (1 <= j < i)%nat /\ body !! j = Some parent /\
      GetHash parent = hash (prevout txin).

(** The same for a transaction that is not in the template yet: its
    parents outside the chain are in [body] after the coinbase. *)
Definition parents_placed `{Node} (pcoinsTip : CCoinsViewCache)
    (body : list CTransaction) (tx : CTransaction) : Prop :=
  forall txin,
    In txin (vin tx) ->
    HaveCoins pcoinsTip (hash (prevout txin)) = false ->
    exists j parent,
      (1 <= j)%nat /\ body !! j = Some parent /\
      GetHash parent = hash (prevout txin).

(** An orphan accounts for the parents of its transaction: each one that
    the chain does not have is in its dependency set or in [body]. *)
Definition orphan_accounts `{Node} (pcoinsTip : CCoinsViewCache)
    (body : list CTransaction) (o : Standard.COrphan) : Prop :=
  IsCoinBase (Standard.ptx o) = false /\
  forall txin,
    In txin (vin (Standard.ptx o)) ->
    HaveCoins pcoinsTip (hash (prevout txin)) = false ->
    hash (prevout txin) ∈ Standard.setDependsOn o \/
    exists j parent,
      (1 <= j)%nat /\ body !! j = Some parent /\
      GetHash parent = hash (prevout txin).

(** What the loop over the mempool establishes. An entry of the queue has
    all its parents in the chain; an orphan is no coinbase, waits for
    something, and has every parent the chain lacks in its set. *)
Definition queue_entry_ready `{Node} (pcoinsTip : CCoinsViewCache)
    (e : Standard.TxPriority) : Prop :=
  IsCoinBase e.2 = false /\
  forall txin, In txin (vin e.2) -> HaveCoins pcoinsTip (hash (prevout txin)) = true.

Definition orphan_waits `{Node} (pcoinsTip : CCoinsViewCache)
    (o : Standard.COrphan) : Prop :=
  IsCoinBase (Standard.ptx o) = false /\
  Standard.setDependsOn o <> ∅ /\
  forall txin,
    In txin (vin (Standard.ptx o)) ->
    HaveCoins pcoinsTip (hash (prevout txin)) = false ->
    hash (prevout txin) ∈ Standard.setDependsOn o.

Definition collect_inv `{Node} (pcoinsTip : CCoinsViewCache)
    (c : Standard.Collect) : Prop :=
  (forall e, e ∈ Standard.vecPriority c -> queue_entry_ready pcoinsTip e) /\
  (forall p o, Standard.vOrphan c !! p = Some (Some o) -> orphan_waits pcoinsTip o).

(** The orphan of the transaction whose inputs are being scanned, when the
    inputs [pre] have been looked at; [others_wait] is about the orphans
    of the transactions scanned before. *)
Definition scanning `{Node} (view : CCoinsViewCache) (tx : CTransaction)
    (pre : list CTxIn) (a : Standard.InputAcc) (c : Standard.Collect) : Prop :=
  match Standard.porphan a with
  | None =>
      forall txin, In txin pre -> HaveCoins view (hash (prevout txin)) = true
  | Some p =>
      S p = length (Standard.vOrphan c) /\
      exists o,
        Standard.vOrphan c !! p = Some (Some o) /\ Standard.ptx o = tx /\
        Standard.setDependsOn o <> ∅ /\
        forall txin, In txin pre ->
          HaveCoins view (hash (prevout txin)) = false ->
          hash (prevout txin) ∈ Standard.setDependsOn o
  end.

Definition others_wait `{Node} (view : CCoinsViewCache)
    (a : Standard.InputAcc) (c : Standard.Collect) : Prop :=
  forall q o, Standard.vOrphan c !! q = Some (Some o) ->
              Standard.porphan a <> Some q -> orphan_waits view o.

(** A sum of [CAmount]s as [nFees += nTxFees] forms it. *)
Definition sum_CAmount (l : list Z) : Z :=
  fold_left (fun acc f => int64 (acc + f)) l 0.

(** What the selection loop keeps: the entries of the queue have their
    parents in place, the orphans account for theirs, and the template so
    far has only the placeholder at its head, then no coinbase, parents
    first. *)
Definition entry_placed `{Node} (pcoinsTip : CCoinsViewCache)
    (body : list CTransaction) (e : Standard.TxPriority) : Prop :=
  IsCoinBase e.2 = false /\ parents_placed pcoinsTip body e.2.

Definition select_inv `{Node} (pcoinsTip : CCoinsViewCache) (s : Standard.Select) : Prop :=
  (forall e, e ∈ Standard.queue s -> entry_placed pcoinsTip (Standard.sel_vtx s) e) /\
  (forall p o, Standard.orphans s !! p = Some (Some o) ->
               orphan_accounts pcoinsTip (Standard.sel_vtx s) o) /\
  parents_first pcoinsTip (Standard.sel_vtx s) /\
  (forall i tx, (1 <= i)%nat -> Standard.sel_vtx s !! i = Some tx -> IsCoinBase tx = false) /\
  (1 <= length (Standard.sel_vtx s))%nat /\
  (exists f0, Standard.sel_vTxFees s = f0 :: tail (Standard.sel_vTxFees s)) /\
  Standard.nFees s = sum_CAmount (tail (Standard.sel_vTxFees s)).

(** ** The search loop of BitcoinMiner: the nonce (lines 1409 and 1417)

    [(UintToArith256(pblock->nNonce) & 0xffff) == 0xffff] ends the search
    on a template; otherwise
    [pblock->nNonce = ArithToUint256(UintToArith256(pblock->nNonce) + 1)]. *)
Definition nonce_low16_full (nonce : Z) : bool := Z.land nonce 0xffff =? 0xffff.

Definition nonce_next (nonce : Z) : Z := uint256 (nonce + 1).

(** ** The fork builder's counters *)

(** [s'] is [s] but for the stream and the log. *)
Definition same_block (s s' : Fork.ForkState) : Prop :=
  Fork.fk_vtx s' = Fork.fk_vtx s /\ Fork.fk_vTxFees s' = Fork.fk_vTxFees s /\
  Fork.fk_vTxSigOps s' = Fork.fk_vTxSigOps s /\
  Fork.nBlockTotalAmount s' = Fork.nBlockTotalAmount s /\
  Fork.nBlockSize s' = Fork.nBlockSize s /\ Fork.nBlockTx s' = Fork.nBlockTx s /\
  Fork.nBlockSigOps s' = Fork.nBlockSigOps s.

(** [s'] is [s] after [tx] passed both limits and was pushed. *)
Definition pushed `{Node} (tx : CTransaction) (amount : Z) (s s' : Fork.ForkState) : Prop :=
  uint64 (Fork.nBlockSize s + uint32 (GetSerializeSize tx)) < Fork.fork_nBlockMaxSize /\
  uint64 (Fork.nBlockSigOps s + uint32 (GetLegacySigOpCount tx)) < MAX_BLOCK_SIGOPS /\
  same_block (Fork.fork_push tx (uint32 (GetSerializeSize tx))
                (uint32 (GetLegacySigOpCount tx)) amount s) s'.

Definition sum_Z (l : list Z) : Z := fold_right Z.add 0 l.

(** [nTxSize] and [nTxSigOps] of the transactions of a list. *)
Definition tx_sizes `{Node} (l : list CTransaction) : list Z :=
  map (fun tx => uint32 (GetSerializeSize tx)) l.

Definition tx_legacy_sigops `{Node} (l : list CTransaction) : list Z :=
  map (fun tx => uint32 (GetLegacySigOpCount tx)) l.

(** The three lists of the fork builder run in parallel. *)
Definition fork_lists `{Node} (s : Fork.ForkState) : Prop :=
  Fork.fk_vtx s <> [] /\
  Fork.fk_vTxSigOps s = -1 :: tx_legacy_sigops (tail (Fork.fk_vtx s)) /\
  Fork.fk_vTxFees s = -1 :: repeat 0 (length (tail (Fork.fk_vtx s))).

(** What the fork builder's counters hold in terms of the template. *)
Definition fork_accounts `{Node} (s : Fork.ForkState) : Prop :=
  Fork.fk_vtx s <> [] /\
  Fork.fk_vTxSigOps s = -1 :: tx_legacy_sigops (tail (Fork.fk_vtx s)) /\
  Fork.fk_vTxFees s = -1 :: repeat 0 (length (tail (Fork.fk_vtx s))) /\
  Fork.nBlockTx s = Z.of_nat (length (tail (Fork.fk_vtx s))) mod 2 ^ 64 /\
  Fork.nBlockSize s = 1000 + sum_Z (tx_sizes (tail (Fork.fk_vtx s))) /\
  (tail (Fork.fk_vtx s) = [] \/ Fork.nBlockSize s < Fork.fork_nBlockMaxSize) /\
  Fork.nBlockSigOps s = 100 + sum_Z (tx_legacy_sigops (tail (Fork.fk_vtx s))) /\
  (tail (Fork.fk_vtx s) = [] \/ Fork.nBlockSigOps s < MAX_BLOCK_SIGOPS).

(** The messages that end the reading of a shielded snapshot. *)
Definition shielded_stop (e : LogEvent) : bool :=
  match e with
  | ErrNoTxSize | ErrTxSizeZero | ErrNoTx | ErrMaxSize | ErrMaxSigOps => true
  | _ => false
  end.

(** A size field made of binary digits only. *)
Definition all_binary (l : list byte) : bool :=
  forallb (fun b => Byte.eqb b x30 || Byte.eqb b x31) l.

(** ** The fork driver *)

(** The first turn of the driver's loop that finds the tip at the height
    the turn started from. *)
Fixpoint first_stable (obs : list Fork.Observation) (tipHeight : Z)
    : option Fork.Observation :=
  match obs with
  | [] => None
  | o :: obs =>
      if nHeight (Fork.ob_tip o) =? tipHeight then Some o
      else first_stable obs (nHeight (Fork.ob_tip o))
  end.

(** ** The standard builder *)

(** [nBlockMaxSize] as [CreateNewBlock] clamps it. *)
Definition block_max_size `{Node} : Z :=
  Z.max 1000 (Z.min (uint32 (MAX_BLOCK_SIZE - 1000)) (uint32 arg_blockmaxsize)).

(** The part of the selection state that describes the block. *)
Definition block_part `{Node} (s : Standard.Select) :=
  (Standard.sel_vtx s, Standard.sel_vTxFees s, Standard.sel_vTxSigOps s,
   Standard.view s, Standard.nBlockSize s, Standard.nBlockTx s,
   Standard.nBlockSigOps s, Standard.nFees s).

(** [s'] is [s] after [tx] passed every test of the selection loop and
    was added to the block. *)
Definition added `{Node} (height maxsize : Z) (tx : CTransaction)
    (s s' : Standard.Select) : Prop :=
  let nTxSize := uint32 (GetSerializeSize tx) in
  let nTxFees := int64 (GetValueIn (Standard.view s) tx - GetValueOut tx) in
  let nTxSigOps :=
    uint32 (uint32 (GetLegacySigOpCount tx) + GetP2SHSigOpCount tx (Standard.view s)) in
  uint64 (Standard.nBlockSize s + nTxSize) < maxsize /\
  HaveInputs (Standard.view s) tx = true /\
  ContextualCheckInputs tx (Standard.view s) = true /\
  block_part s' =
    (Standard.sel_vtx s ++ [tx], Standard.sel_vTxFees s ++ [nTxFees],
     Standard.sel_vTxSigOps s ++ [nTxSigOps],
     UpdateCoins tx (Standard.view s) height,
     uint64 (Standard.nBlockSize s + nTxSize), uint64 (Standard.nBlockTx s + 1),
     int32 (Standard.nBlockSigOps s + nTxSigOps),
     int64 (Standard.nFees s + nTxFees)).

(** Every transaction that waits, in the queue or as an orphan, has [P]. *)
Definition sourced `{Node} (P : CTransaction -> Prop)
    (q : list Standard.TxPriority) (orph : list (option Standard.COrphan)) : Prop :=
  (forall e, e ∈ q -> P e.2) /\
  (forall p o, orph !! p = Some (Some o) -> P (Standard.ptx o)).

(** What the mempool loop lets through: a transaction of the pool that is
    no coinbase and is final. *)
Definition eligible `{Node} (mapTx : list (Z * CTransaction))
    (height nLockTimeCutoff : Z) (tx : CTransaction) : Prop :=
  tx ∈ map snd mapTx /\ IsCoinBase tx = false /\
  IsFinalTx tx height nLockTimeCutoff = true.

(** [nLockTimeCutoff] of [CreateNewBlock]. *)
Definition lock_time_cutoff `{Node} (pindexPrev : CBlockIndex) (now : Z) : Z :=
  if LOCKTIME_MEDIAN_TIME_PAST_set then GetMedianTimePast pindexPrev else uint32 now.

(** The transactions [txs], applied in order to the view [v]: each must
    have its inputs there and pass the script checks; the result is the
    fee and the sig-op count of each, as the selection loop computes them,
    and the view after the last. *)
Fixpoint replay `{Node} (height : Z) (v : CCoinsViewCache) (txs : list CTransaction)
    : option (list Z * list Z * CCoinsViewCache) :=
  match txs with
  | [] => Some ([], [], v)
  | tx :: txs =>
      if HaveInputs v tx && ContextualCheckInputs tx v then
        match replay height (UpdateCoins tx v height) txs with
        | Some (fees, ops, v') =>
            Some (int64 (GetValueIn v tx - GetValueOut tx) :: fees,
                  uint32 (uint32 (GetLegacySigOpCount tx) + GetP2SHSigOpCount tx v) :: ops,
                  v')
        | None => None
        end
      else None
  end.

(** What the selection loop keeps of the block it fills. *)
Definition select_ledger `{Node} (height : Z) (pcoinsTip : CCoinsViewCache)
    (s : Standard.Select) : Prop :=
  (exists t0 f0 g0,
      Standard.sel_vtx s = t0 :: tail (Standard.sel_vtx s) /\
      Standard.sel_vTxFees s = f0 :: tail (Standard.sel_vTxFees s) /\
      Standard.sel_vTxSigOps s = g0 :: tail (Standard.sel_vTxSigOps s)) /\
  replay height pcoinsTip (tail (Standard.sel_vtx s)) =
    Some (tail (Standard.sel_vTxFees s), tail (Standard.sel_vTxSigOps s),
          Standard.view s) /\
  Standard.nBlockSize s = 1000 + sum_Z (tx_sizes (tail (Standard.sel_vtx s))) /\
  (tail (Standard.sel_vtx s) = [] \/ Standard.nBlockSize s < block_max_size) /\
  Standard.nBlockTx s = Z.of_nat (length (tail (Standard.sel_vtx s))) mod 2 ^ 64.

(** An input of a mempool transaction that the builder can follow: its
    coin is in the UTXO view, or its parent is in the pool, and the output
    index exists there. *)
Definition input_resolves `{Node} (mapTx : list (Z * CTransaction))
    (pcoinsTip : CCoinsViewCache) (txin : CTxIn) : bool :=
  let h := hash (prevout txin) in
  if HaveCoins pcoinsTip h then
    match AccessCoins pcoinsTip h with
    | Some coins => bool_decide (is_Some (coins_vout coins !! Z.to_nat (n (prevout txin))))
    | None => false
    end
  else
    match Standard.mapTx_find mapTx h with
    | Some parent => bool_decide (is_Some (vout parent !! Z.to_nat (n (prevout txin))))
    | None => false
    end.

(** A pool in which every input of every transaction (coinbases apart,
    which the builder skips) can be followed. *)
Definition closed_mempool `{Node} (mapTx : list (Z * CTransaction))
    (pcoinsTip : CCoinsViewCache) : bool :=
  forallb (fun e => IsCoinBase e.2 || forallb (input_resolves mapTx pcoinsTip) (vin e.2))
          mapTx.

(** The orphan at position [p] of [vOrphan] has not been destroyed. *)
Definition live `{Node} (orph : list (option Standard.COrphan)) (p : nat) : Prop :=
  exists o, orph !! p = Some (Some o).

(** Every pointer kept in [mapDependers] is to an orphan that exists. *)
Definition pointers_live `{Node} (deps : gmap Z (list nat))
    (orph : list (option Standard.COrphan)) : Prop :=
  forall h ps p, deps !! h = Some ps -> p ∈ ps -> live orph p.

(** * Facts *)

(** ** The stream *)

Lemma read_Some f k b f' :
  read f k = (Some b, f') ->
  stream_good f /\ length b = k /\ rest f = b ++ rest f' /\ stream_good f'.
Proof.
  unfold read, stream_good.
  destruct (eofbit f), (failbit f); simpl; try discriminate.
  destruct (k <=? length (rest f))%nat eqn:E; [|discriminate].
  intros [= <- <-]. simpl. apply Nat.leb_le in E.
  rewrite length_take, take_drop. repeat split; auto. lia.
Qed.

Lemma read_None f k f' :
  read f k = (None, f') ->
  failbit f' = true /\
  (stream_good f -> eofbit f' = true /\ (length (rest f) < k)%nat).
Proof.
  unfold read, stream_good.
  destruct (eofbit f), (failbit f); simpl;
    try (intros [= <-]; simpl; split; [done|intros [? ?]; discriminate]).
  destruct (k <=? length (rest f))%nat eqn:E; [discriminate|].
  intros [= <-]. simpl. apply Nat.leb_gt in E. auto.
Qed.

Lemma read_enough f k :
  stream_good f -> (k <= length (rest f))%nat ->
  read f k = (Some (take k (rest f)), mkStream (drop k (rest f)) false false).
Proof.
  intros [E F] L. unfold read. rewrite E, F. simpl.
  apply Nat.leb_le in L. by rewrite L.
Qed.

Lemma read_short f k :
  stream_good f -> (length (rest f) < k)%nat ->
  read f k = (None, mkStream [] true true).
Proof.
  intros [E F] L. unfold read. rewrite E, F. simpl.
  apply Nat.leb_gt in L. by rewrite L.
Qed.

Lemma read_app f k b tail :
  stream_good f -> rest f = b ++ tail -> length b = k ->
  read f k = (Some b, mkStream tail false false).
Proof.
  intros G E <-. rewrite read_enough; auto.
  - rewrite E, take_app_length, drop_app_length. done.
  - rewrite E, length_app. lia.
Qed.

(** Amounts read from eight bytes are 64-bit values. *)
Lemma le_value_bound l : 0 <= le_value l < 256 ^ Z.of_nat (length l).
Proof.
  induction l as [|b l IH]; simpl length; [simpl; lia|].
  rewrite Nat2Z.inj_succ, Z.pow_succ_r by lia. simpl le_value.
  pose proof (Byte.to_N_bounded b) as B.
  assert (0 <= Z.of_N (Byte.to_N b) <= 255) by lia.
  nia.
Qed.

Lemma bytes2uint64_range a : 0 <= bytes2uint64 a < 2 ^ 64.
Proof.
  unfold bytes2uint64. pose proof (le_value_bound (take 8 a)) as B.
  assert (L : (length (take 8 a) <= 8)%nat) by (rewrite length_take; lia).
  assert (256 ^ Z.of_nat (length (take 8 a)) <= 256 ^ 8)
    by (apply Z.pow_le_mono_r; lia).
  change (2 ^ 64) with (256 ^ 8). lia.
Qed.

(** ** The fork builder, one turn of a loop at a time *)

Module ForkFacts.
Import Fork.

Section Facts.
Context `{Node}.

Lemma fork_try_push_inl tx a s s' :
  fork_try_push tx a s = inl s' ->
  s' = fork_push tx (uint32 (GetSerializeSize tx)) (uint32 (GetLegacySigOpCount tx)) a s.
Proof.
  unfold fork_try_push. repeat case_match; congruence.
Qed.

Lemma fork_try_push_inr tx a s s' :
  fork_try_push tx a s = inr s' ->
  exists e, s' = LogPrintf e s /\ (e = ErrMaxSize \/ e = ErrMaxSigOps).
Proof.
  unfold fork_try_push. repeat case_match; intros [= <-]; eauto.
Qed.

(** When both caps leave room the transaction goes in, whatever it is. *)
Lemma fork_try_push_fits tx a s :
  uint64 (nBlockSize s + uint32 (GetSerializeSize tx)) < fork_nBlockMaxSize ->
  uint64 (nBlockSigOps s + uint32 (GetLegacySigOpCount tx)) < MAX_BLOCK_SIGOPS ->
  fork_try_push tx a s =
  inl (fork_push tx (uint32 (GetSerializeSize tx)) (uint32 (GetLegacySigOpCount tx)) a s).
Proof.
  intros A B. unfold fork_try_push.
  destruct (Z.geb_spec (uint64 (nBlockSize s + uint32 (GetSerializeSize tx))) fork_nBlockMaxSize); [lia|].
  destruct (Z.geb_spec (uint64 (nBlockSigOps s + uint32 (GetLegacySigOpCount tx))) MAX_BLOCK_SIGOPS); [lia|].
  done.
Qed.

Lemma appended_push tx k g a s f :
  appended tx s (with_stream f (fork_push tx k g a s)).
Proof. by repeat split. Qed.

Lemma appended_log tx s s' e : appended tx s s' -> appended tx s (LogPrintf e s').
Proof. intros (? & ? & ?). by repeat split. Qed.

Lemma appended_stream tx s s' f : appended tx s s' -> appended tx s (with_stream f s').
Proof. intros (? & ? & ?). by repeat split. Qed.

Lemma unchanged_refl s : unchanged s s.
Proof. by repeat split. Qed.

Lemma unchanged_log s s' e : unchanged s s' -> unchanged s (LogPrintf e s').
Proof. intros (? & ? & ?). by repeat split. Qed.

Lemma unchanged_stream s s' f : unchanged s s' -> unchanged s (with_stream f s').
Proof. intros (? & ? & ?). by repeat split. Qed.

Create HintDb fork.
#[local] Hint Resolve unchanged_refl unchanged_log unchanged_stream
  appended_log appended_stream : fork.

(** What one turn of the transparent loop can do to the template. *)
Lemma split_one_reads f coin f1 sz f2 pks f3 :
  read f 8 = (Some coin, f1) ->
  read f1 8 = (Some sz, f2) ->
  0 <= int32 (bytes2uint64 sz) ->
  read f2 (Z.to_nat (int32 (bytes2uint64 sz))) = (Some pks, f3) ->
  split_one (rest f) = Some (bytes2uint64 coin, pks, rest f3).
Proof.
  intros R1 R2 P R3.
  apply read_Some in R1 as (G0 & L1 & E1 & G1).
  apply read_Some in R2 as (_ & L2 & E2 & G2).
  apply read_Some in R3 as (_ & L3 & E3 & G3).
  unfold split_one.
  assert (D8 : drop 8 (rest f) = rest f1).
  { rewrite E1. rewrite <- L1 at 1. apply drop_app_length. }
  assert (D16 : drop 16 (rest f) = rest f2).
  { change 16%nat with (8 + 8)%nat. rewrite <- drop_drop, D8, E2.
    rewrite <- L2 at 1. apply drop_app_length. }
  assert (T8 : take 8 (rest f) = coin).
  { rewrite E1. rewrite <- L1 at 1. apply take_app_length. }
  assert (T8' : take 8 (rest f1) = sz).
  { rewrite E2. rewrite <- L2 at 1. apply take_app_length. }
  assert (LL : (16 <= length (rest f))%nat).
  { rewrite E1, E2, !length_app. lia. }
  apply Nat.leb_le in LL. rewrite LL, D8, D16, T8, T8'. cbv zeta.
  apply Z.leb_le in P. rewrite P. simpl.
  assert (LS : (Z.to_nat (int32 (bytes2uint64 sz)) <= length (rest f2))%nat).
  { rewrite E3, length_app. lia. }
  apply Nat.leb_le in LS. rewrite LS.
  rewrite <- L3, E3, take_app_length, drop_app_length. done.
Qed.

Lemma split_one_length r a script after :
  split_one r = Some (a, script, after) ->
  (length after + 16 <= length r)%nat /\ 0 <= a < 2 ^ 64.
Proof.
  unfold split_one. destruct (16 <=? length r)%nat eqn:L; [|discriminate].
  cbv zeta. destruct (_ && _); [|discriminate].
  intros [= <- <- <-]. apply Nat.leb_le in L.
  rewrite !length_drop. split; [lia|].
  unfold bytes2uint64. rewrite take_take.
  pose proof (le_value_bound (take (8 `min` 8) r)) as B.
  assert (256 ^ Z.of_nat (length (take (8 `min` 8) r)) <= 256 ^ 8).
  { apply Z.pow_le_mono_r; [lia|]. rewrite length_take. lia. }
  change (2 ^ 64) with (256 ^ 8). lia.
Qed.

Lemma transparent_body_Next h s s' :
  transparent_body h s = Next s' ->
  exists a script,
    split_one (rest (if_utxo s)) = Some (a, script, x0a :: rest (if_utxo s')) /\
    appended (transparent_coinbase h (nBlockTx s) a script) s s' /\
    stream_good (if_utxo s').
Proof.
  unfold transparent_body. intros E.
  destruct (read (if_utxo s) 8) as [[coin|] f1] eqn:R1; [|repeat case_match; discriminate].
  destruct (read f1 8) as [[sz|] f2] eqn:R2; [|discriminate].
  destruct (Z.ltb_spec (int32 (bytes2uint64 sz)) 0) as [|P]; [discriminate|].
  set (s0 := if int32 (bytes2uint64 sz) =? 0 then LogPrintf ErrPubKeySizeZero s else s) in *.
  assert (U0 : unchanged s s0 /\ nBlockTx s0 = nBlockTx s).
  { clear E. subst s0. case_match; (split; [auto with fork|reflexivity]). }
  destruct (read f2 _) as [[pks|] f3] eqn:R3; [|discriminate].
  destruct (fork_try_push _ _ _) as [s1|s1] eqn:F; [|discriminate].
  apply fork_try_push_inl in F. subst s1.
  simpl in E.
  destruct (read f3 1) as [[term|] f4] eqn:R4; [|discriminate].
  destruct term as [|t [|]]; try discriminate.
  destruct (Byte.eqb t x0a) eqn:T; [|discriminate].
  injection E as <-.
  pose proof (split_one_reads _ _ _ _ _ _ _ R1 R2 P R3) as S1.
  apply read_Some in R4 as (_ & L4 & E4 & G4).
  apply Byte.byte_dec_bl in T. subst t.
  exists (bytes2uint64 coin), pks. split; [|split; [|done]].
  - rewrite S1, E4. done.
  - destruct U0 as [(U1 & U2 & U3) U4].
    unfold appended; simpl. rewrite U1, U2, U4. done.
Qed.

Lemma transparent_body_Break h s s' :
  transparent_body h s = Break s' ->
  unchanged s s' \/
  exists a script after,
    split_one (rest (if_utxo s)) = Some (a, script, after) /\
    appended (transparent_coinbase h (nBlockTx s) a script) s s'.
Proof.
  unfold transparent_body. intros E.
  destruct (read (if_utxo s) 8) as [[coin|] f1] eqn:R1;
    [|left; repeat case_match; injection E as <-; auto with fork].
  destruct (read f1 8) as [[sz|] f2] eqn:R2;
    [|left; injection E as <-; auto with fork].
  destruct (Z.ltb_spec (int32 (bytes2uint64 sz)) 0) as [|P]; [discriminate|].
  set (s0 := if int32 (bytes2uint64 sz) =? 0 then LogPrintf ErrPubKeySizeZero s else s) in *.
  assert (U0 : unchanged s s0 /\ nBlockTx s0 = nBlockTx s).
  { clear E. subst s0. case_match; (split; [auto with fork|reflexivity]). }
  destruct U0 as [U0 U4].
  destruct (read f2 _) as [[pks|] f3] eqn:R3;
    [|left; injection E as <-; auto with fork].
  pose proof (split_one_reads _ _ _ _ _ _ _ R1 R2 P R3) as S1.
  destruct (fork_try_push _ _ _) as [s1|s1] eqn:F.
  - apply fork_try_push_inl in F. subst s1. right.
    exists (bytes2uint64 coin), pks, (rest f3). split; [done|].
    assert (A : appended (transparent_coinbase h (nBlockTx s) (bytes2uint64 coin) pks) s
                  (fork_push (transparent_coinbase h (nBlockTx s) (bytes2uint64 coin) pks)
                     (uint32 (GetSerializeSize (transparent_coinbase h (nBlockTx s) (bytes2uint64 coin) pks)))
                     (uint32 (GetLegacySigOpCount (transparent_coinbase h (nBlockTx s) (bytes2uint64 coin) pks)))
                     (bytes2uint64 coin) (with_stream f3 s0))).
    { destruct U0 as (U1 & U2 & U3). unfold appended; simpl. rewrite U1, U2, U4. done. }
    simpl in E. rewrite U4 in E.
    repeat case_match; try discriminate; injection E as <-; auto with fork.
  - apply fork_try_push_inr in F as (e & -> & _). left.
    injection E as <-. auto with fork.
Qed.

Lemma transparent_body_defined h s : transparent_body h s <> Undefined.
Proof. unfold transparent_body. repeat case_match; discriminate. Qed.

Lemma shielded_body_Next s s' :
  shielded_body s = Next s' ->
  exists raw d,
    decoderawtransaction2 raw = Some d /\
    appended (shielded_coinbase d) s s' /\
    (length (rest (if_utxo s')) < length (rest (if_utxo s)))%nat.
Proof.
  unfold shielded_body. intros E.
  destruct (eofbit (if_utxo s)); [discriminate|].
  destruct (read (if_utxo s) 32) as [[sz|] f1] eqn:R1; [|discriminate].
  destruct (strtol2 sz) as [parsed|]; [|discriminate].
  destruct (int32 parsed =? 0); [discriminate|].
  destruct (int32 parsed <? 0); [discriminate|].
  simpl in E.
  destruct (read f1 _) as [[raw|] f2] eqn:R2; [|discriminate].
  destruct (decoderawtransaction2 raw) as [d|] eqn:D; [|discriminate].
  destruct (fork_try_push _ _ _) as [s1|s1] eqn:P; [|discriminate].
  apply fork_try_push_inl in P. subst s1. injection E as <-.
  apply read_Some in R1 as (G0 & L1 & E1 & G1).
  apply read_Some in R2 as (_ & L2 & E2 & G2).
  exists raw, d. split; [done|]. split.
  - by repeat split.
  - simpl. rewrite E1, E2, !length_app. lia.
Qed.

Lemma shielded_body_Break s s' : shielded_body s = Break s' -> unchanged s s'.
Proof.
  unfold shielded_body. intros E.
  repeat case_match; try discriminate; injection E as <-; auto with fork.
  match goal with P : fork_try_push _ _ _ = inr _ |- _ =>
    apply fork_try_push_inr in P as (e & -> & _) end.
  auto with fork.
Qed.

(** ** The loops: invariants and fuel *)

Lemma transparent_loop_invariant (I : ForkState -> Prop) h :
  (forall s s', I s -> unchanged s s' -> I s') ->
  (forall s s' a script,
      I s -> nBlockTx s < forkCBPerBlock -> 0 <= a < 2 ^ 64 ->
      appended (transparent_coinbase h (nBlockTx s) a script) s s' ->
      I s') ->
  forall fuel s s_end,
    I s -> transparent_loop fuel h s = Done s_end -> I s_end.
Proof.
  intros Hsame Hpush. induction fuel as [|fuel IH]; intros s s_end Hs E; [discriminate|].
  simpl in E.
  destruct (stream_ok (if_utxo s) && (nBlockTx s <? forkCBPerBlock)) eqn:G;
    [|by injection E as <-].
  apply andb_true_iff in G as [_ G]. apply Z.ltb_lt in G.
  destruct (transparent_body h s) as [s1|s1| |] eqn:B; try discriminate.
  - apply transparent_body_Next in B as (a & script & S1 & A & _).
    apply split_one_length in S1 as [_ R].
    eapply IH; [|exact E]. eauto.
  - injection E as <-.
    apply transparent_body_Break in B as [U|(a & script & after & S1 & A)]; [eauto|].
    apply split_one_length in S1 as [_ R]. eauto.
Qed.

Lemma shielded_loop_invariant (I : ForkState -> Prop) :
  (forall s s', I s -> unchanged s s' -> I s') ->
  (forall s s' raw d,
      I s -> decoderawtransaction2 raw = Some d ->
      appended (shielded_coinbase d) s s' -> I s') ->
  forall fuel s s_end,
    I s -> shielded_loop fuel s = Done s_end -> I s_end.
Proof.
  intros Hsame Hpush. induction fuel as [|fuel IH]; intros s s_end Hs E; [discriminate|].
  simpl in E.
  destruct (shielded_body s) as [s1|s1| |] eqn:B; try discriminate.
  - apply shielded_body_Next in B as (raw & d & D & A & _).
    eapply IH; [|exact E]. eauto.
  - injection E as <-. apply shielded_body_Break in B. eauto.
Qed.

(** A turn that goes on has eaten bytes of the file: the fuel suffices. *)
Lemma transparent_loop_fuel h fuel s :
  (length (rest (if_utxo s)) < fuel)%nat -> transparent_loop fuel h s <> OutOfFuel.
Proof.
  revert s. induction fuel as [|fuel IH]; intros s L; [lia|].
  simpl. destruct (_ && _); [|discriminate].
  destruct (transparent_body h s) as [s1|s1| |] eqn:B; try discriminate.
  apply transparent_body_Next in B as (a & script & S1 & _ & _).
  apply split_one_length in S1 as [L' _]. simpl in L'.
  apply IH. lia.
Qed.

Lemma shielded_loop_fuel fuel s :
  (length (rest (if_utxo s)) < fuel)%nat -> shielded_loop fuel s <> OutOfFuel.
Proof.
  revert s. induction fuel as [|fuel IH]; intros s L; [lia|].
  simpl.
  destruct (shielded_body s) as [s1|s1| |] eqn:B; try discriminate.
  apply shielded_body_Next in B as (_ & _ & _ & _ & L').
  apply IH. lia.
Qed.

Lemma transparent_loop_defined h fuel s : transparent_loop fuel h s <> UndefinedBehaviour.
Proof.
  revert s. induction fuel as [|fuel IH]; intros s; [discriminate|].
  simpl. destruct (_ && _); [|discriminate].
  destruct (transparent_body h s) as [s1|s1| |] eqn:B; try discriminate; auto.
  by apply transparent_body_defined in B.
Qed.

(** The builder always comes back: with a template, with [NULL] for a
    missing file, or with an exception (or, on a malformed size field of
    the shielded format, by reading outside its buffer). *)
Lemma CreateNewForkBlockAt_fuel file pks rand h :
  CreateNewForkBlockAt file pks rand h <> ForkOutOfFuel.
Proof.
  unfold CreateNewForkBlockAt. destruct file as [contents|]; [|discriminate].
  destruct (h =? ZUtxoMiningStartBlock).
  - pose proof (shielded_loop_fuel (S (length contents)) (fork_init h pks contents)) as F.
    destruct (shielded_loop _ _); try discriminate. exfalso. apply F; [simpl; lia|done].
  - pose proof (transparent_loop_fuel h (S (length contents)) (fork_init h pks contents)) as F.
    destruct (transparent_loop _ _ _); try discriminate. exfalso. apply F; [simpl; lia|done].
Qed.

Lemma CreateNewForkBlockAt_built contents pks rand h T log :
  CreateNewForkBlockAt (Some contents) pks rand h = ForkBuilt T log ->
  exists s_end,
    (if h =? ZUtxoMiningStartBlock
     then shielded_loop (S (length contents)) (fork_init h pks contents)
     else transparent_loop (S (length contents)) h (fork_init h pks contents)) = Done s_end /\
    T = fork_finish rand s_end /\ log = fk_log s_end.
Proof.
  unfold CreateNewForkBlockAt. intros E.
  destruct (if h =? ZUtxoMiningStartBlock then _ else _) as [s_end| | |]; try discriminate.
  injection E as <- <-. eauto.
Qed.

(** The driver hands out a template of the body with the header filled in. *)
Lemma UpdateTime_vtx b cp prev now : vtx (UpdateTime b cp prev now) = vtx b.
Proof. unfold UpdateTime. by case_match. Qed.

Lemma fork_finalise_Returned t log prev now T log' :
  fork_finalise t log prev now = Returned T log' ->
  vtx (block T) = vtx (block t) /\ vTxFees T = vTxFees t /\
  vTxSigOps T = vTxSigOps t /\ log' = log.
Proof.
  unfold fork_finalise. case_match; [|discriminate]. intros [= <- <-].
  simpl. by rewrite UpdateTime_vtx.
Qed.

Lemma CreateNewForkBlock_Returned files tip obs T log :
  CreateNewForkBlock files tip obs = Returned T log ->
  exists h contents pks rand T0,
    files h = Some contents /\
    CreateNewForkBlockAt (Some contents) pks rand h = ForkBuilt T0 log /\
    vtx (block T) = vtx (block T0) /\ vTxFees T = vTxFees T0 /\
    vTxSigOps T = vTxSigOps T0.
Proof.
  unfold CreateNewForkBlock. generalize (nHeight tip) as tipHeight.
  induction obs as [|o obs IH]; intros tipHeight E; [discriminate|].
  simpl in E.
  destruct (CreateNewForkBlockAt _ _ _ _) as [| | | |t l] eqn:A; try discriminate.
  - destruct (negb _); [eauto|discriminate].
  - destruct (negb _); [eauto|].
    apply fork_finalise_Returned in E as (E1 & E2 & E3 & ->).
    destruct (files (tipHeight + 1)) as [contents|] eqn:F; [|discriminate].
    exists (tipHeight + 1), contents, (ob_pks o), (ob_rand o), t. done.
Qed.

End Facts.
End ForkFacts.

(** ** Shapes of the coinbases *)

Module ForkShapes.
Import Fork ForkFacts.

Section Shapes.
Context `{Node}.

Lemma dummy_coinbase_eq h pks :
  dummy_coinbase h pks =
  mkTx 1 [mkTxIn COutPoint_null (fork_scriptSig h 0) (uint32 (-1))] [mkTxOut 0 pks] 0 [].
Proof. reflexivity. Qed.

Lemma transparent_coinbase_eq h k a pks :
  transparent_coinbase h k a pks =
  mkTx 1 [mkTxIn COutPoint_null (fork_scriptSig h k) (uint32 (-1))]
       [mkTxOut (if Z.b2z (int64 a =? 0) =? 0 then int64 (uint64 (a * 2)) else int64 a) pks]
       0 [].
Proof.
  unfold transparent_coinbase. simpl.
  destruct (Z.b2z (int64 a =? 0) =? 0); reflexivity.
Qed.

Lemma shielded_coinbase_eq d :
  shielded_coinbase d =
  mkTx (tx_nVersion d)
       [mkTxIn COutPoint_null
               (match vin d with i :: _ => scriptSig i | [] => [] end)
               (match vin d with i :: _ => nSequence i | [] => uint32 (-1) end)]
       [mkTxOut 0 (match vout d with o :: _ => scriptPubKey o | [] => [] end)]
       (nLockTime d) (vjoinsplit d).
Proof.
  unfold shielded_coinbase. destruct d as [v i o l j].
  destruct i as [|i0 ?], o as [|o0 ?]; reflexivity.
Qed.

Lemma dummy_IsCoinBase h pks : IsCoinBase (dummy_coinbase h pks) = true.
Proof. reflexivity. Qed.

Lemma transparent_IsCoinBase h k a pks : IsCoinBase (transparent_coinbase h k a pks) = true.
Proof. rewrite transparent_coinbase_eq. reflexivity. Qed.

Lemma shielded_IsCoinBase d : IsCoinBase (shielded_coinbase d) = true.
Proof. rewrite shielded_coinbase_eq. reflexivity. Qed.

End Shapes.

(** The test [!nValue == 0] holds exactly for the non-zero amounts. *)
Lemma doubling_test a :
  0 <= a < 2 ^ 64 -> (Z.b2z (int64 a =? 0) =? 0) = negb (a =? 0).
Proof.
  intros R. unfold int64.
  destruct (Z.eqb_spec a 0) as [->|N]; [reflexivity|].
  assert ((a + 2 ^ 63) mod 2 ^ 64 - 2 ^ 63 <> 0).
  { destruct (Z_lt_le_dec a (2 ^ 63)).
    - rewrite Z.mod_small by lia. lia.
    - replace (a + 2 ^ 63) with (a - 2 ^ 63 + 1 * 2 ^ 64) by lia.
      rewrite Z.mod_add, Z.mod_small by lia. lia. }
  destruct (Z.eqb_spec ((a + 2 ^ 63) mod 2 ^ 64 - 2 ^ 63) 0); [lia|reflexivity].
Qed.

Lemma int64_small a : - 2 ^ 63 <= a < 2 ^ 63 -> int64 a = a.
Proof. intros R. unfold int64. rewrite Z.mod_small by lia. lia. Qed.

Lemma uint64_small a : 0 <= a < 2 ^ 64 -> uint64 a = a.
Proof. intros R. unfold uint64. by rewrite Z.mod_small. Qed.

End ForkShapes.

(** ** What every template of the fork builder looks like *)

Module ForkTemplates.
Import Fork ForkFacts ForkShapes.

Section Templates.
Context `{Node}.

Lemma fork_loops_invariant (I : ForkState -> Prop) contents pks h s_end :
  (forall s s', I s -> unchanged s s' -> I s') ->
  (forall s s' tx, I s -> IsCoinBase tx = true -> appended tx s s' -> I s') ->
  I (fork_init h pks contents) ->
  fork_loops contents pks h = Done s_end ->
  I s_end.
Proof.
  intros Hsame Hpush Hinit. unfold fork_loops. destruct (h =? ZUtxoMiningStartBlock).
  - apply shielded_loop_invariant; auto.
    intros s s' raw d Hs _ A. eapply Hpush; eauto using shielded_IsCoinBase.
  - apply transparent_loop_invariant; auto.
    intros s s' a script Hs _ _ A. eapply Hpush; eauto using transparent_IsCoinBase.
Qed.

Lemma fork_all_coinbase contents pks h s_end :
  fork_loops contents pks h = Done s_end -> all_coinbase (fk_vtx s_end).
Proof.
  apply (fork_loops_invariant (fun s => all_coinbase (fk_vtx s))).
  - intros s s' Hs (-> & _). done.
  - intros s s' tx Hs P (-> & _). apply Forall_app. split; [done|]. by constructor.
  - repeat constructor.
Qed.

Lemma fork_fees_shape contents pks h s_end :
  fork_loops contents pks h = Done s_end ->
  exists k, fk_vTxFees s_end = -1 :: repeat 0 k /\ length (fk_vtx s_end) = S k.
Proof.
  apply (fork_loops_invariant
           (fun s => exists k, fk_vTxFees s = -1 :: repeat 0 k /\ length (fk_vtx s) = S k)).
  - intros s s' Hs (-> & -> & _). done.
  - intros s s' tx (k & F & L) _ (-> & -> & _). exists (S k).
    rewrite F, length_app, L. simpl. split; [|lia].
    f_equal. rewrite repeat_cons. done.
  - by exists O.
Qed.

Lemma fork_dummy_first contents pks h s_end :
  fork_loops contents pks h = Done s_end ->
  exists more, fk_vtx s_end = dummy_coinbase h pks :: more.
Proof.
  apply (fork_loops_invariant
           (fun s => exists more, fk_vtx s = dummy_coinbase h pks :: more)).
  - intros s s' Hs (-> & _). done.
  - intros s s' tx (more & E) _ (-> & _). rewrite E. by eexists.
  - by eexists.
Qed.

(** With a cap that a [uint64_t] can hold, the count is the number of
    transactions after the dummy coinbase and stays within the cap. *)
Lemma transparent_loop_count h fuel s s_end :
  0 <= forkCBPerBlock < 2 ^ 64 ->
  transparent_loop fuel h s = Done s_end ->
  nBlockTx s = Z.of_nat (length (fk_vtx s)) - 1 ->
  0 <= nBlockTx s <= forkCBPerBlock ->
  nBlockTx s_end = Z.of_nat (length (fk_vtx s_end)) - 1 /\
  0 <= nBlockTx s_end <= forkCBPerBlock.
Proof.
  intros Hcap E N0 R0. revert E.
  apply (transparent_loop_invariant
           (fun s => nBlockTx s = Z.of_nat (length (fk_vtx s)) - 1 /\
                     0 <= nBlockTx s <= forkCBPerBlock)); [| |done].
  - intros s1 s2 Hs (-> & _ & ->). done.
  - intros s1 s2 a script (N1 & R1) G _ (-> & _ & ->).
    rewrite length_app. simpl. unfold uint64.
    rewrite Z.mod_small by lia. lia.
Qed.

(** The template grows at its end only. *)
Lemma transparent_loop_grows h fuel s s_end :
  transparent_loop fuel h s = Done s_end ->
  exists more, fk_vtx s_end = fk_vtx s ++ more.
Proof.
  apply (transparent_loop_invariant (fun s' => exists more, fk_vtx s' = fk_vtx s ++ more)).
  - intros s1 s2 Hs (-> & _). done.
  - intros s1 s2 a script (more & E) _ _ (-> & _). exists (more ++ [transparent_coinbase h (nBlockTx s1) a script]).
    by rewrite E, app_assoc.
  - exists []. by rewrite app_nil_r.
Qed.

(** The count at work in the transparent loop is the number of
    transactions after the dummy coinbase, as a [uint64_t]. *)
Lemma transparent_loop_records h fuel : forall s s_end k,
  transparent_loop fuel h s = Done s_end ->
  length (fk_vtx s) = S k ->
  nBlockTx s = uint64 (Z.of_nat k) ->
  forall j tx,
    fk_vtx s_end !! (S k + j)%nat = Some tx ->
    exists a script,
      split_records fuel (rest (if_utxo s)) !! j = Some (a, script) /\
      tx = transparent_coinbase h (uint64 (Z.of_nat (k + j))) a script.
Proof.
  induction fuel as [|fuel IH]; intros s s_end k E L N j tx Hj; [discriminate|].
  simpl in E.
  assert (Hnone : forall i, fk_vtx s !! (S k + i)%nat = None).
  { intros i. apply lookup_ge_None. lia. }
  destruct (stream_ok (if_utxo s) && (nBlockTx s <? forkCBPerBlock)).
  2:{ injection E as <-. by rewrite Hnone in Hj. }
  destruct (transparent_body h s) as [s1|s1| |] eqn:B; try discriminate.
  - apply transparent_body_Next in B as (a & script & S1 & (V & _ & C) & _).
    simpl. rewrite S1. simpl.
    destruct j as [|j].
    + apply transparent_loop_grows in E as (more & E).
      rewrite E, V, Nat.add_0_r in Hj.
      rewrite <- app_assoc, lookup_app_r in Hj by lia.
      rewrite L, Nat.sub_diag in Hj. simpl in Hj. injection Hj as <-.
      exists a, script. by rewrite Nat.add_0_r, <- N.
    + specialize (IH s1 s_end (S k) E).
      destruct (IH) with (j := j) (tx := tx) as (a' & script' & R & ->).
      * rewrite V, length_app, L. simpl. lia.
      * rewrite C, N. unfold uint64. rewrite Zplus_mod_idemp_l. f_equal. lia.
      * rewrite <- Hj. f_equal. lia.
      * exists a', script'. split; [done|]. do 3 f_equal. lia.
  - injection E as <-.
    apply transparent_body_Break in B as [(V & _)|(a & script & after & S1 & (V & _))].
    + rewrite V in Hj. by rewrite Hnone in Hj.
    + rewrite V in Hj. destruct j as [|j].
      * rewrite Nat.add_0_r, lookup_app_r in Hj by lia.
        rewrite L, Nat.sub_diag in Hj. simpl in Hj. injection Hj as <-.
        simpl. rewrite S1. exists a, script. by rewrite Nat.add_0_r, <- N.
      * rewrite lookup_ge_None_2 in Hj; [done|]. rewrite length_app, L. simpl. lia.
Qed.

Lemma transparent_template_records contents pks rand h T log i tx :
  h <> ZUtxoMiningStartBlock ->
  CreateNewForkBlockAt (Some contents) pks rand h = ForkBuilt T log ->
  vtx (block T) !! S i = Some tx ->
  exists a script,
    transparent_records contents !! i = Some (a, script) /\
    0 <= a < 2 ^ 64 /\
    tx = transparent_coinbase h (uint64 (Z.of_nat i)) a script.
Proof.
  intros Hh E Hi. apply CreateNewForkBlockAt_built in E as (s_end & E & -> & _).
  apply Z.eqb_neq in Hh. rewrite Hh in E. simpl in Hi.
  destruct (transparent_loop_records h _ _ _ O E eq_refl eq_refl i tx Hi)
    as (a & script & R & ->).
  exists a, script. split; [exact R|]. split; [|done].
  clear -R. unfold transparent_records in R. simpl rest in R.
  revert R. generalize (S (length contents)) as fuel. revert contents.
  induction i as [|i IH]; intros contents fuel R; (destruct fuel as [|fuel]; [done|]);
    simpl in R; destruct (split_one contents) as [[[a' sc'] after]|] eqn:S1; try done.
  - cbn in R. injection R as -> ->. apply split_one_length in S1. tauto.
  - cbn in R. destruct after as [|b r']; [done|]. destruct (Byte.eqb b x0a); [|done]. eauto.
Qed.

(** The shielded loop: every transaction after the dummy coinbase is a
    decoded transaction cut down by [shielded_coinbase]. *)
Lemma shielded_template_shape contents pks rand T log i tx :
  CreateNewForkBlockAt (Some contents) pks rand ZUtxoMiningStartBlock = ForkBuilt T log ->
  vtx (block T) !! S i = Some tx ->
  exists raw d, decoderawtransaction2 raw = Some d /\ tx = shielded_coinbase d.
Proof.
  intros E Hi. apply CreateNewForkBlockAt_built in E as (s_end & E & -> & _).
  rewrite Z.eqb_refl in E. simpl in Hi. revert i tx Hi.
  revert E.
  apply (shielded_loop_invariant
           (fun s => forall i tx, fk_vtx s !! S i = Some tx ->
                     exists raw d, decoderawtransaction2 raw = Some d /\ tx = shielded_coinbase d)).
  - intros s s' Hs (-> & _). done.
  - intros s s' raw d Hs D (-> & _) i tx Hi.
    destruct (decide (S i < length (fk_vtx s))%nat).
    + rewrite lookup_app_l in Hi by done. eauto.
    + rewrite lookup_app_r in Hi by lia.
      destruct (S i - length (fk_vtx s))%nat; [|by destruct n0].
      injection Hi as <-. eauto.
  - intros [|i] tx; discriminate.
Qed.

End Templates.
End ForkTemplates.

(** ** A whole record in front of the reader *)

Module ForkRecords.
Import Fork ForkFacts ForkShapes.

Lemma split_one_inv r a script after :
  split_one r = Some (a, script, after) ->
  exists coin sz,
    r = coin ++ sz ++ script ++ after /\
    length coin = 8%nat /\ length sz = 8%nat /\
    a = bytes2uint64 coin /\
    int32 (bytes2uint64 sz) = Z.of_nat (length script).
Proof.
  unfold split_one. destruct (16 <=? length r)%nat eqn:L; [|discriminate].
  cbv zeta. destruct (_ && _) eqn:PQ; [|discriminate].
  apply andb_true_iff in PQ as [P Q].
  intros [= <- <- <-].
  apply Nat.leb_le in L, Q. apply Z.leb_le in P.
  exists (take 8 r), (take 8 (drop 8 r)).
  split; [|split; [|split; [|split]]].
  - rewrite <- (take_drop 8 r) at 1. f_equal.
    rewrite <- (take_drop 8 (drop 8 r)) at 1. f_equal.
    rewrite drop_drop. change (8 + 8)%nat with 16%nat.
    by rewrite take_drop.
  - rewrite length_take. lia.
  - rewrite length_take, length_drop. lia.
  - done.
  - rewrite length_take. rewrite Nat.min_l by done. lia.
Qed.

Lemma split_one_app coin sz script after :
  length coin = 8%nat -> length sz = 8%nat ->
  int32 (bytes2uint64 sz) = Z.of_nat (length script) ->
  split_one (coin ++ sz ++ script ++ after) = Some (bytes2uint64 coin, script, after).
Proof.
  intros L1 L2 P.
  apply (split_one_reads (mkStream (coin ++ sz ++ script ++ after) false false)
           coin (mkStream (sz ++ script ++ after) false false)
           sz (mkStream (script ++ after) false false)
           script (mkStream after false false)).
  - by apply read_app.
  - by apply read_app.
  - lia.
  - apply read_app; [done|done|]. rewrite P. by rewrite Nat2Z.id.
Qed.

Section Records.
Context `{Node}.

Lemma transparent_body_emits h s a script after :
  stream_good (if_utxo s) ->
  split_one (rest (if_utxo s)) = Some (a, script, after) ->
  let tx := transparent_coinbase h (nBlockTx s) a script in
  uint64 (nBlockSize s + uint32 (GetSerializeSize tx)) < fork_nBlockMaxSize ->
  uint64 (nBlockSigOps s + uint32 (GetLegacySigOpCount tx)) < MAX_BLOCK_SIGOPS ->
  exists s',
    (transparent_body h s = Next s' \/ transparent_body h s = Break s') /\
    appended tx s s' /\
    fk_log s' = fk_log s ++ record_log script after.
Proof.
  intros G S1 tx C1 C2.
  apply split_one_inv in S1 as (coin & sz & E & L1 & L2 & -> & P).
  unfold transparent_body.
  rewrite (read_app _ _ coin (sz ++ script ++ after)) by done.
  rewrite (read_app _ _ sz (script ++ after)) by done.
  assert (P0 : (int32 (bytes2uint64 sz) <? 0) = false) by (apply Z.ltb_ge; lia).
  rewrite P0, P, Nat2Z.id.
  rewrite (read_app _ _ script after) by done.
  set (s0 := if Z.of_nat (length script) =? 0 then LogPrintf ErrPubKeySizeZero s else s).
  assert (U : nBlockTx s0 = nBlockTx s /\ nBlockSize s0 = nBlockSize s /\
              nBlockSigOps s0 = nBlockSigOps s /\ fk_vtx s0 = fk_vtx s /\
              fk_vTxFees s0 = fk_vTxFees s /\
              fk_log s0 = fk_log s ++ (if (length script =? 0)%nat then [ErrPubKeySizeZero] else [])).
  { subst s0. destruct script; simpl; rewrite ?app_nil_r; done. }
  destruct U as (U1 & U2 & U3 & U4 & U5 & U6).
  simpl nBlockTx. rewrite U1. fold tx.
  rewrite fork_try_push_fits by (simpl; rewrite ?U2, ?U3; done).
  simpl if_utxo. unfold record_log.
  destruct after as [|b after].
  - rewrite read_short; [|done|simpl; lia].
    eexists. split; [right; reflexivity|]. split.
    + unfold appended. simpl. by rewrite U4, U5, U1.
    + simpl. by rewrite U6, <- app_assoc.
  - rewrite (read_app _ _ [b] after) by done.
    destruct (Byte.eqb b x0a).
    + eexists. split; [left; reflexivity|]. split.
      * unfold appended. simpl. by rewrite U4, U5, U1.
      * simpl. by rewrite U6, app_nil_r.
    + eexists. split; [right; reflexivity|]. split.
      * unfold appended. simpl. by rewrite U4, U5, U1.
      * simpl. by rewrite U6, <- app_assoc.
Qed.

End Records.
End ForkRecords.

(** ** IncrementExtraNonce *)

Module NonceFacts.
Import Standard.

Section Nonce.
Context `{Node}.

Lemma IncrementExtraNonce_cases st pblock prev k :
  match IncrementExtraNonce st pblock prev k with
  | NonceDone b _ _ =>
      exists tx0 i0,
        vtx b !! 0%nat = Some tx0 /\ vin tx0 !! 0%nat = Some i0 /\
        scriptSig i0 = extra_nonce_script st pblock prev k /\
        (length (scriptSig i0) <= 100)%nat
  | NonceAssertionFailed =>
      (100 < length (extra_nonce_script st pblock prev k))%nat
  | NonceUndefined =>
      vtx pblock = [] \/ exists tx0 more, vtx pblock = tx0 :: more /\ vin tx0 = []
  end.
Proof.
  unfold IncrementExtraNonce, extra_nonce_script.
  destruct (negb (st =? hashPrevBlock pblock)); cbv zeta iota beta;
    (destruct (vtx pblock) as [|tx0 more] eqn:V; [by left|]);
    (destruct (vin tx0) as [|i0 ins] eqn:I; [right; eauto|]);
    match goal with |- context [Z.of_nat (length ?l) <=? 100] =>
      destruct (Z.leb_spec (Z.of_nat (length l)) 100) end;
    try lia;
    simpl; rewrite ?V; simpl; eexists _, _; (split; [reflexivity|]); simpl;
    (split; [reflexivity|]); simpl; (split; [reflexivity|lia]).
Qed.

End Nonce.
End NonceFacts.

(** ** A record the caps leave no room for *)

Module ForkCaps.
Import Fork ForkFacts ForkShapes ForkRecords.

Section Caps.
Context `{Node}.

(** The two tests of [fork_try_push] as one boolean. *)
Lemma fork_try_push_room tx a s :
  fork_try_push tx a s =
  if (uint64 (nBlockSize s + uint32 (GetSerializeSize tx)) <? fork_nBlockMaxSize)
     && (uint64 (nBlockSigOps s + uint32 (GetLegacySigOpCount tx)) <? MAX_BLOCK_SIGOPS)
  then inl (fork_push tx (uint32 (GetSerializeSize tx))
              (uint32 (GetLegacySigOpCount tx)) a s)
  else inr (LogPrintf
              (if uint64 (nBlockSize s + uint32 (GetSerializeSize tx)) <? fork_nBlockMaxSize
               then ErrMaxSigOps else ErrMaxSize) s).
Proof.
  unfold fork_try_push.
  rewrite !Z.geb_leb.
  destruct (Z.ltb_spec (uint64 (nBlockSize s + uint32 (GetSerializeSize tx)))
              fork_nBlockMaxSize) as [A|A],
           (Z.leb_spec fork_nBlockMaxSize
              (uint64 (nBlockSize s + uint32 (GetSerializeSize tx)))) as [A'|A'];
    try lia; simpl; [|reflexivity].
  destruct (Z.ltb_spec (uint64 (nBlockSigOps s + uint32 (GetLegacySigOpCount tx)))
              MAX_BLOCK_SIGOPS) as [B|B],
           (Z.leb_spec MAX_BLOCK_SIGOPS
              (uint64 (nBlockSigOps s + uint32 (GetLegacySigOpCount tx)))) as [B'|B'];
    try lia; reflexivity.
Qed.

(** A whole record in front of the reader for which one of the caps
    leaves no room is not taken in: the turn stops the reading with the
    message of that cap, after the message about an empty script if the
    script is empty. *)
Lemma transparent_body_drops h s a script after :
  stream_good (if_utxo s) ->
  split_one (rest (if_utxo s)) = Some (a, script, after) ->
  let tx := transparent_coinbase h (nBlockTx s) a script in
  (uint64 (nBlockSize s + uint32 (GetSerializeSize tx)) <? fork_nBlockMaxSize)
    && (uint64 (nBlockSigOps s + uint32 (GetLegacySigOpCount tx)) <? MAX_BLOCK_SIGOPS)
    = false ->
  exists s' e,
    transparent_body h s = Break s' /\ unchanged s s' /\
    fk_log s' = fk_log s ++
      (if (length script =? 0)%nat then [ErrPubKeySizeZero] else []) ++ [e] /\
    (e = ErrMaxSize \/ e = ErrMaxSigOps).
Proof.
  intros G S1 tx C.
  apply split_one_inv in S1 as (coin & sz & E & L1 & L2 & -> & P).
  unfold transparent_body.
  rewrite (read_app _ _ coin (sz ++ script ++ after)) by done.
  rewrite (read_app _ _ sz (script ++ after)) by done.
  assert (P0 : (int32 (bytes2uint64 sz) <? 0) = false) by (apply Z.ltb_ge; lia).
  rewrite P0, P, Nat2Z.id.
  rewrite (read_app _ _ script after) by done.
  set (s0 := if Z.of_nat (length script) =? 0 then LogPrintf ErrPubKeySizeZero s else s).
  assert (U : nBlockTx s0 = nBlockTx s /\ nBlockSize s0 = nBlockSize s /\
              nBlockSigOps s0 = nBlockSigOps s /\ fk_vtx s0 = fk_vtx s /\
              fk_vTxFees s0 = fk_vTxFees s /\
              fk_log s0 = fk_log s ++ (if (length script =? 0)%nat then [ErrPubKeySizeZero] else [])).
  { subst s0. destruct script; simpl; rewrite ?app_nil_r; done. }
  destruct U as (U1 & U2 & U3 & U4 & U5 & U6).
  simpl nBlockTx. rewrite U1. fold tx.
  rewrite fork_try_push_room. simpl nBlockSize. simpl nBlockSigOps.
  rewrite U2, U3, C.
  eexists _, _. split; [reflexivity|]. split; [|split].
  - unfold unchanged. simpl. by rewrite U4, U5, U1.
  - simpl. rewrite U6, <- app_assoc. reflexivity.
  - destruct (_ <? fork_nBlockMaxSize); auto.
Qed.

(** A whole record the caps leave room for: the turn goes on when the
    separator follows it and stops when it does not. *)
Lemma transparent_body_emits_flow h s a script after :
  stream_good (if_utxo s) ->
  split_one (rest (if_utxo s)) = Some (a, script, after) ->
  let tx := transparent_coinbase h (nBlockTx s) a script in
  uint64 (nBlockSize s + uint32 (GetSerializeSize tx)) < fork_nBlockMaxSize ->
  uint64 (nBlockSigOps s + uint32 (GetLegacySigOpCount tx)) < MAX_BLOCK_SIGOPS ->
  exists s',
    transparent_body h s =
      (match after with
       | b :: _ => if Byte.eqb b x0a then Next s' else Break s'
       | [] => Break s'
       end) /\
    appended tx s s' /\
    fk_log s' = fk_log s ++ record_log script after.
Proof.
  intros G S1 tx C1 C2.
  apply split_one_inv in S1 as (coin & sz & E & L1 & L2 & -> & P).
  unfold transparent_body.
  rewrite (read_app _ _ coin (sz ++ script ++ after)) by done.
  rewrite (read_app _ _ sz (script ++ after)) by done.
  assert (P0 : (int32 (bytes2uint64 sz) <? 0) = false) by (apply Z.ltb_ge; lia).
  rewrite P0, P, Nat2Z.id.
  rewrite (read_app _ _ script after) by done.
  set (s0 := if Z.of_nat (length script) =? 0 then LogPrintf ErrPubKeySizeZero s else s).
  assert (U : nBlockTx s0 = nBlockTx s /\ nBlockSize s0 = nBlockSize s /\
              nBlockSigOps s0 = nBlockSigOps s /\ fk_vtx s0 = fk_vtx s /\
              fk_vTxFees s0 = fk_vTxFees s /\
              fk_log s0 = fk_log s ++ (if (length script =? 0)%nat then [ErrPubKeySizeZero] else [])).
  { subst s0. destruct script; simpl; rewrite ?app_nil_r; done. }
  destruct U as (U1 & U2 & U3 & U4 & U5 & U6).
  simpl nBlockTx. rewrite U1. fold tx.
  rewrite fork_try_push_fits by (simpl; rewrite ?U2, ?U3; done).
  simpl if_utxo. unfold record_log.
  destruct after as [|b after].
  - rewrite read_short; [|done|simpl; lia].
    eexists. split; [reflexivity|]. split.
    + unfold appended. simpl. by rewrite U4, U5, U1.
    + simpl. by rewrite U6, <- app_assoc.
  - rewrite (read_app _ _ [b] after) by done.
    destruct (Byte.eqb b x0a).
    + eexists. split; [reflexivity|]. split.
      * unfold appended. simpl. by rewrite U4, U5, U1.
      * simpl. by rewrite U6, app_nil_r.
    + eexists. split; [reflexivity|]. split.
      * unfold appended. simpl. by rewrite U4, U5, U1.
      * simpl. by rewrite U6, <- app_assoc.
Qed.

End Caps.
End ForkCaps.

(** ** The records of a shielded snapshot *)

Module ShieldedRecords.
Import Fork ForkFacts ForkShapes ForkTemplates.

Lemma shielded_split_one_inv r raw after :
  shielded_split_one r = Some (raw, after) ->
  exists field parsed,
    r = field ++ raw ++ after /\ length field = 32%nat /\
    strtol2 field = Some parsed /\ 0 < int32 parsed /\
    int32 parsed = Z.of_nat (length raw).
Proof.
  unfold shielded_split_one. destruct (32 <=? length r)%nat eqn:L; [|discriminate].
  destruct (strtol2 (take 32 r)) as [parsed|] eqn:P; [|discriminate].
  cbv zeta. destruct (_ && _) eqn:PQ; [|discriminate].
  apply andb_true_iff in PQ as [Pos Q].
  intros [= <- <-].
  apply Nat.leb_le in L, Q. apply Z.ltb_lt in Pos.
  exists (take 32 r), parsed.
  split; [|split; [|split; [|split]]].
  - by rewrite !take_drop.
  - rewrite length_take. lia.
  - exact P.
  - exact Pos.
  - rewrite length_take. rewrite Nat.min_l by done. lia.
Qed.

Lemma shielded_split_one_reads f sz f1 parsed raw f2 :
  read f 32 = (Some sz, f1) ->
  strtol2 sz = Some parsed ->
  0 < int32 parsed ->
  read f1 (Z.to_nat (int32 parsed)) = (Some raw, f2) ->
  shielded_split_one (rest f) = Some (raw, rest f2).
Proof.
  intros R1 P Pos R2.
  apply read_Some in R1 as (_ & L1 & E1 & _).
  apply read_Some in R2 as (_ & L2 & E2 & _).
  unfold shielded_split_one.
  assert (T : take 32 (rest f) = sz) by (rewrite E1, <- L1; apply take_app_length).
  assert (D : drop 32 (rest f) = rest f1) by (rewrite E1, <- L1; apply drop_app_length).
  assert (L : (32 <=? length (rest f))%nat = true).
  { apply Nat.leb_le. rewrite E1, length_app. lia. }
  rewrite L, T, P, D. cbv zeta.
  assert (Q : (0 <? int32 parsed) &&
              (Z.to_nat (int32 parsed) <=? length (rest f1))%nat = true).
  { apply andb_true_iff. split; [by apply Z.ltb_lt|].
    apply Nat.leb_le. rewrite E2, length_app. lia. }
  rewrite Q. f_equal. f_equal.
  - rewrite E2, <- L2. apply take_app_length.
  - rewrite E2, <- L2. apply drop_app_length.
Qed.

Section Shielded.
Context `{Node}.

(** A turn of the shielded loop that goes on has decoded the bytes of the
    record in front of the reader and pushed the coinbase made of them. *)
Lemma shielded_body_Next_record s s' :
  shielded_body s = Next s' ->
  exists raw d,
    shielded_split_one (rest (if_utxo s)) = Some (raw, rest (if_utxo s')) /\
    decoderawtransaction2 raw = Some d /\
    appended (shielded_coinbase d) s s'.
Proof.
  unfold shielded_body. intros E.
  destruct (eofbit (if_utxo s)); [discriminate|].
  destruct (read (if_utxo s) 32) as [[sz|] f1] eqn:R1; [|discriminate].
  destruct (strtol2 sz) as [parsed|] eqn:P; [|discriminate].
  destruct (Z.eqb_spec (int32 parsed) 0) as [|Nz]; [discriminate|].
  destruct (Z.ltb_spec (int32 parsed) 0) as [|Pos]; [discriminate|].
  simpl in E.
  destruct (read f1 _) as [[raw|] f2] eqn:R2; [|discriminate].
  destruct (decoderawtransaction2 raw) as [d|] eqn:D; [|discriminate].
  destruct (fork_try_push _ _ _) as [s1|s1] eqn:Pu; [|discriminate].
  apply fork_try_push_inl in Pu. subst s1. injection E as <-.
  exists raw, d. split; [|split; [exact D|by repeat split]].
  simpl. eapply shielded_split_one_reads; eauto. lia.
Qed.

Lemma shielded_loop_grows fuel s s_end :
  shielded_loop fuel s = Done s_end ->
  exists more, fk_vtx s_end = fk_vtx s ++ more.
Proof.
  apply (shielded_loop_invariant (fun s' => exists more, fk_vtx s' = fk_vtx s ++ more)).
  - intros s1 s2 Hs (-> & _). done.
  - intros s1 s2 raw d (more & E) _ (-> & _).
    exists (more ++ [shielded_coinbase d]). by rewrite E, app_assoc.
  - exists []. by rewrite app_nil_r.
Qed.

(** The transaction after the dummy coinbase at position [j] is made of
    the [j]-th record of the file. *)
Lemma shielded_loop_records fuel : forall s s_end k,
  shielded_loop fuel s = Done s_end ->
  length (fk_vtx s) = S k ->
  forall j tx,
    fk_vtx s_end !! (S k + j)%nat = Some tx ->
    exists raw d,
      shielded_split fuel (rest (if_utxo s)) !! j = Some raw /\
      decoderawtransaction2 raw = Some d /\
      tx = shielded_coinbase d.
Proof.
  induction fuel as [|fuel IH]; intros s s_end k E L j tx Hj; [discriminate|].
  simpl in E.
  assert (Hnone : forall i, fk_vtx s !! (S k + i)%nat = None).
  { intros i. apply lookup_ge_None. lia. }
  destruct (shielded_body s) as [s1|s1| |] eqn:B; try discriminate.
  - apply shielded_body_Next_record in B as (raw & d & S1 & D & (V & _)).
    simpl. rewrite S1.
    destruct j as [|j].
    + apply shielded_loop_grows in E as (more & E).
      rewrite E, V, Nat.add_0_r in Hj.
      rewrite <- app_assoc, lookup_app_r in Hj by lia.
      rewrite L, Nat.sub_diag in Hj. simpl in Hj. injection Hj as <-.
      exists raw, d. done.
    + destruct (IH s1 s_end (S k) E) with (j := j) (tx := tx) as (raw' & d' & R & D' & ->).
      * rewrite V, length_app, L. simpl. lia.
      * rewrite <- Hj. f_equal. lia.
      * exists raw', d'. done.
  - injection E as <-. apply shielded_body_Break in B as (V & _).
    rewrite V in Hj. by rewrite Hnone in Hj.
Qed.

Lemma shielded_template_records contents pks rand T log i tx :
  CreateNewForkBlockAt (Some contents) pks rand ZUtxoMiningStartBlock = ForkBuilt T log ->
  vtx (block T) !! S i = Some tx ->
  exists raw d,
    shielded_records contents !! i = Some raw /\
    decoderawtransaction2 raw = Some d /\
    tx = shielded_coinbase d.
Proof.
  intros E Hi. apply CreateNewForkBlockAt_built in E as (s_end & E & -> & _).
  rewrite Z.eqb_refl in E. simpl in Hi.
  exact (shielded_loop_records _ _ _ O E eq_refl i tx Hi).
Qed.

(** A whole shielded record in front of the reader is taken in as soon as
    its bytes decode and the caps leave room: the script of the decoded
    transaction is not looked at. *)
Lemma shielded_body_emits s raw after d :
  stream_good (if_utxo s) ->
  shielded_split_one (rest (if_utxo s)) = Some (raw, after) ->
  decoderawtransaction2 raw = Some d ->
  let tx := shielded_coinbase d in
  uint64 (nBlockSize s + uint32 (GetSerializeSize tx)) < fork_nBlockMaxSize ->
  uint64 (nBlockSigOps s + uint32 (GetLegacySigOpCount tx)) < MAX_BLOCK_SIGOPS ->
  exists s',
    shielded_body s = Next s' /\ appended tx s s' /\
    rest (if_utxo s') = after /\ fk_log s' = fk_log s.
Proof.
  intros G S1 D tx C1 C2.
  apply shielded_split_one_inv in S1 as (field & parsed & E & L & P & Pos & Len).
  unfold shielded_body. rewrite (proj1 G).
  rewrite (read_app _ _ field (raw ++ after)) by done.
  rewrite P. cbv zeta.
  destruct (Z.eqb_spec (int32 parsed) 0) as [|_]; [lia|].
  destruct (Z.ltb_spec (int32 parsed) 0) as [|_]; [lia|].
  simpl if_utxo. rewrite Len, Nat2Z.id.
  rewrite (read_app _ _ raw after) by done.
  rewrite D. fold tx.
  rewrite fork_try_push_fits by (simpl; done).
  eexists. split; [reflexivity|]. split; [by repeat split|]. done.
Qed.

(** The script the fork builder writes is bounded whenever the pushes it
    is made of are. *)
Lemma fork_scriptSig_length h k :
  (forall v w, length (push_int64 v) + length (push_CScriptNum w) +
               length (push_bytes hashPid) + 1 <= 100)%nat ->
  (length (fork_scriptSig h k) <= 100)%nat.
Proof.
  intros B. specialize (B h (int64 k)). unfold fork_scriptSig.
  destruct (k =? 0); rewrite !length_app; simpl; lia.
Qed.

End Shielded.
End ShieldedRecords.

(** ** The script pushes of the worked examples *)

Module ScenarioFacts.
Import Scenario.

Lemma magnitude_bytes_length (fuel : nat) : forall z,
  (length (magnitude_bytes fuel z) <= fuel)%nat.
Proof.
  induction fuel as [|fuel IH]; intros z; simpl; [lia|].
  destruct (z =? 0); simpl; [lia|]. specialize (IH (z / 256)). lia.
Qed.

Lemma CScriptNum_serialize_length (v : Z) :
  (length (CScriptNum_serialize v) <= 10)%nat.
Proof.
  unfold CScriptNum_serialize.
  pose proof (magnitude_bytes_length 9 (Z.abs v)) as M.
  revert M. generalize (magnitude_bytes 9 (Z.abs v)) as m. intros m M. cbv zeta.
  destruct (List.last _ _) as [top|]; [|simpl; lia].
  destruct (Z.testbit _ _); [rewrite length_app; simpl; lia|].
  destruct (v <? 0); [|lia].
  rewrite length_app, removelast_firstn_len, length_take. simpl. lia.
Qed.

Lemma push_number_length (v : Z) : (length (push_number v) <= 11)%nat.
Proof.
  unfold push_number, push_data. pose proof (CScriptNum_serialize_length v).
  destruct (_ || _); simpl; lia.
Qed.

(** On the node of the examples the script of a fork coinbase has at most
    56 bytes. *)
Lemma node_pushes_fit (cap zstart : Z) (v w : Z) :
  (length (@push_int64 (node cap zstart) v) +
   length (@push_CScriptNum (node cap zstart) w) +
   length (@push_bytes (node cap zstart) (@hashPid (node cap zstart))) + 1 <= 100)%nat.
Proof.
  pose proof (push_number_length v). pose proof (CScriptNum_serialize_length w).
  simpl. lia.
Qed.

End ScenarioFacts.

(** ** The standard builder *)

Module StandardFacts.
Import Standard ForkFacts.

Section Facts.
Context `{Node}.

(** *** The queue *)

Lemma heap_front_from_bound less best bestv i l :
  (best < i)%nat -> (heap_front_from less best bestv i l < i + length l)%nat.
Proof.
  revert best bestv i. induction l as [|x l IH]; intros best bestv i L; simpl; [lia|].
  destruct (less bestv x).
  - specialize (IH i x (S i)). lia.
  - specialize (IH best bestv (S i)). lia.
Qed.

Lemma pop_heap_None less l : pop_heap less l = None -> l = [].
Proof.
  unfold pop_heap, heap_front. destruct l as [|x l]; [done|].
  pose proof (heap_front_from_bound less 0 x 1 l) as B.
  destruct (_ !! _) eqn:E; [discriminate|].
  apply lookup_ge_None in E. simpl in E. lia.
Qed.

Lemma pop_heap_Some less l x q :
  pop_heap less l = Some (x, q) ->
  exists i, l !! i = Some x /\ q = delete i l.
Proof.
  unfold pop_heap. destruct (heap_front less l) as [i|]; [|discriminate].
  destruct (l !! i) eqn:E; [|discriminate]. intros [= <- <-]. eauto.
Qed.

Lemma pop_heap_length less l x q :
  pop_heap less l = Some (x, q) -> length l = S (length q).
Proof.
  intros (i & E & ->)%pop_heap_Some. rewrite length_delete by eauto.
  apply lookup_lt_Some in E. lia.
Qed.

Lemma pop_heap_elem less l x q :
  pop_heap less l = Some (x, q) -> x ∈ l /\ forall y, y ∈ q -> y ∈ l.
Proof.
  intros (i & E & ->)%pop_heap_Some. split.
  - eapply list_elem_of_lookup_2; eauto.
  - intros y Hy. by eapply list_elem_of_delete_inv.
Qed.

(** *** The loop over the mempool *)

Lemma scan_inputs_inv mapTx view height tx ins :
  forall pre c a c' a' miss,
    scan_inputs mapTx view height tx ins c a = Ok (c', a', miss) ->
    others_wait view a c -> scanning view tx pre a c ->
    vecPriority c' = vecPriority c /\
    if miss
    then forall q o, vOrphan c' !! q = Some (Some o) -> orphan_waits view o
    else others_wait view a' c' /\ scanning view tx (pre ++ ins) a' c'.
Proof.
  induction ins as [|txin ins IH]; intros pre c a c' a' miss E Hoth Hcur.
  { injection E as <- <- <-. rewrite app_nil_r. done. }
  simpl in E.
  destruct (HaveCoins view (hash (prevout txin))) eqn:HC; simpl in E.
  - (* the parent is in the chain *)
    destruct (AccessCoins view _) as [coins|]; [|discriminate].
    destruct (coins_vout coins !! _) as [o|]; [|discriminate].
    apply (IH (pre ++ [txin])) in E; [| exact Hoth |].
    + rewrite <- app_assoc in E. exact E.
    + unfold scanning in *. simpl. destruct (porphan a) as [p|].
      * destruct Hcur as (L & o' & Lk & P & N & D). split; [done|].
        exists o'. repeat split; try done.
        intros t [Ht| ->%list_elem_of_In%list_elem_of_singleton]%in_app_or Hf; [eauto|congruence].
      * intros t [Ht| ->%list_elem_of_In%list_elem_of_singleton]%in_app_or; [eauto|done].
  - (* the parent is not in the chain *)
    destruct (mapTx_find mapTx _) as [parent|].
    + (* it is in the pool: the transaction waits for it *)
      destruct (porphan a) as [p|] eqn:Pa.
      * unfold scanning in Hcur. rewrite Pa in Hcur.
        destruct Hcur as (L & o & Lk & P & N & D).
        rewrite Lk in E.
        destruct (vout parent !! _) as [po|]; [|discriminate].
        apply (IH (pre ++ [txin])) in E.
        -- rewrite <- app_assoc in E. exact E.
        -- intros q o' Lq Nq. simpl in *.
           rewrite list_lookup_insert_ne in Lq by congruence.
           apply (Hoth q o' Lq). congruence.
        -- unfold scanning. simpl. rewrite length_insert. split; [done|].
           exists (orphan_insert_dep (hash (prevout txin)) o).
           split; [apply list_lookup_insert_eq; lia|].
           split; [done|]. split; [simpl; set_solver|].
           intros t [Ht| ->%list_elem_of_In%list_elem_of_singleton]%in_app_or Hf; simpl.
           ++ apply elem_of_union_l. eauto.
           ++ set_solver.
      * unfold scanning in Hcur. rewrite Pa in Hcur.
        rewrite lookup_app_r in E by lia. rewrite Nat.sub_diag in E. simpl in E.
        destruct (vout parent !! _) as [po|]; [|discriminate].
        apply (IH (pre ++ [txin])) in E.
        -- rewrite <- app_assoc in E. exact E.
        -- intros q o' Lq Nq. simpl in *.
           assert (q <> length (vOrphan c)) by congruence.
           rewrite list_lookup_insert_ne in Lq by done.
           destruct (decide (q < length (vOrphan c))%nat).
           ++ rewrite lookup_app_l in Lq by done.
              apply (Hoth q o' Lq). rewrite Pa. done.
           ++ rewrite lookup_ge_None_2 in Lq; [done|]. rewrite length_app. simpl. lia.
        -- unfold scanning. simpl. rewrite length_insert, length_app. simpl.
           split; [lia|].
           eexists. split.
           { apply list_lookup_insert_eq. rewrite length_app. simpl. lia. }
           split; [done|]. split; [simpl; set_solver|].
           intros t [Ht| ->%list_elem_of_In%list_elem_of_singleton]%in_app_or Hf; simpl.
           ++ rewrite Hcur in Hf by done. discriminate.
           ++ set_solver.
    + (* it is nowhere *)
      destruct fDebug; [discriminate|]. injection E as <- <- <-.
      split; [by destruct (porphan a)|].
      intros q o Lq. destruct (porphan a) as [p|] eqn:Pa.
      * unfold scanning in Hcur. rewrite Pa in Hcur. destruct Hcur as (L & _).
        simpl in Lq. destruct (decide (q = p)) as [->|Nq].
        -- rewrite <- L in Lq. simpl in Lq.
           rewrite list_lookup_insert_eq in Lq by lia. discriminate.
        -- rewrite list_lookup_insert_ne in Lq by (rewrite <- L; simpl; congruence).
           apply (Hoth q o Lq). rewrite Pa. congruence.
      * apply (Hoth q o Lq). rewrite Pa. done.
Qed.

Lemma collect_tx_inv mapTx view height cutoff tx c c' :
  collect_tx mapTx view height cutoff tx c = Ok c' ->
  collect_inv view c -> collect_inv view c'.
Proof.
  unfold collect_tx. intros E [Hq Ho].
  destruct (IsCoinBase tx || negb (IsFinalTx tx height cutoff)) eqn:G.
  { injection E as <-. by split. }
  apply orb_false_iff in G as [Hcb _].
  destruct (scan_inputs _ _ _ _ _ _ _) as [[[c1 a] miss]| |] eqn:S; try discriminate.
  apply (scan_inputs_inv _ _ _ _ _ []) in S as [V S].
  2:{ intros q o Lq _. eauto. }
  2:{ unfold scanning. simpl. tauto. }
  destruct miss.
  { injection E as <-. split; [by rewrite V|done]. }
  destruct S as [Hoth Hcur]. simpl in Hcur.
  destruct (ApplyDeltas _ _ _) as [dP nT].
  unfold scanning in Hcur.
  destruct (porphan a) as [p|] eqn:Pa.
  - destruct Hcur as (L & o & Lk & P & N & D). rewrite Lk in E. injection E as <-.
    split; simpl; [by rewrite V|].
    intros q o' Lq. destruct (decide (q = p)) as [->|Nq].
    + rewrite list_lookup_insert_eq in Lq by lia. injection Lq as <-.
      split; [simpl; congruence|]. split; [done|]. simpl. rewrite P. done.
    + rewrite list_lookup_insert_ne in Lq by done.
      apply (Hoth q o' Lq). rewrite Pa. congruence.
  - injection E as <-. split; simpl.
    + intros e [He| ->%list_elem_of_singleton]%elem_of_app.
      * apply Hq. by rewrite <- V.
      * split; simpl; done.
    + intros q o Lq. apply (Hoth q o Lq). rewrite Pa. done.
Qed.

Lemma collect_inv_holds mapTx view height cutoff todo :
  forall c c',
    collect mapTx view height cutoff todo c = Ok c' ->
    collect_inv view c -> collect_inv view c'.
Proof.
  induction todo as [|[k tx] todo IH]; intros c c' E I; simpl in E.
  - by injection E as <-.
  - destruct (collect_tx _ _ _ _ _ _) as [c1| |] eqn:T; try discriminate.
    eapply IH; [exact E|]. eapply collect_tx_inv; eauto.
Qed.

(** *** The selection loop *)

Lemma parents_placed_app view body more tx :
  parents_placed view body tx -> parents_placed view (body ++ more) tx.
Proof.
  intros P txin Hin Hf. destruct (P txin Hin Hf) as (j & parent & Lj & Lk & G).
  exists j, parent. split; [done|]. split; [|done]. by apply lookup_app_l_Some.
Qed.

Lemma orphan_accounts_app view body more o :
  orphan_accounts view body o -> orphan_accounts view (body ++ more) o.
Proof.
  intros [Hc P]. split; [done|]. intros txin Hin Hf.
  destruct (P txin Hin Hf) as [D|(j & parent & Lj & Lk & G)]; [by left|right].
  exists j, parent. split; [done|]. split; [|done]. by apply lookup_app_l_Some.
Qed.

Lemma release_dependers_inv view body txid ps :
  (exists j parent, (1 <= j)%nat /\ body !! j = Some parent /\ GetHash parent = txid) ->
  forall orph vec orph' vec',
    release_dependers txid ps orph vec = Some (orph', vec') ->
    (forall p o, orph !! p = Some (Some o) -> orphan_accounts view body o) ->
    (forall e, e ∈ vec -> entry_placed view body e) ->
    (forall p o, orph' !! p = Some (Some o) -> orphan_accounts view body o) /\
    (forall e, e ∈ vec' -> entry_placed view body e).
Proof.
  intros Hplaced. induction ps as [|p ps IH]; intros orph vec orph' vec' E Ho Hv; simpl in E.
  { injection E as <- <-. done. }
  destruct (orph !! p) as [[o|]|] eqn:Lp; try discriminate.
  destruct (bool_decide (setDependsOn o = ∅)) eqn:Em; simpl in E.
  { eapply IH; eauto. }
  assert (Ho' : forall q o', <[p := Some (orphan_erase_dep txid o)]> orph !! q = Some (Some o') ->
                             orphan_accounts view body o').
  { intros q o' Lq. destruct (decide (q = p)) as [->|Nq].
    - rewrite list_lookup_insert_eq in Lq by (by eapply lookup_lt_Some).
      injection Lq as <-. destruct (Ho p o Lp) as [Hc P]. split; [done|].
      intros txin Hin Hf. destruct (P txin Hin Hf) as [D|D]; [|by right].
      destruct (decide (hash (prevout txin) = txid)) as [->|Nh].
      + right. exact Hplaced.
      + left. simpl. set_solver.
    - rewrite list_lookup_insert_ne in Lq by done. eauto. }
  destruct (bool_decide (setDependsOn o ∖ {[txid]} = ∅)) eqn:Em'.
  - eapply IH; [exact E|exact Ho'|].
    intros e [He| ->%list_elem_of_singleton]%elem_of_app; [eauto|].
    apply bool_decide_eq_true in Em'.
    destruct (Ho' p (orphan_erase_dep txid o)) as [Hc P].
    { apply list_lookup_insert_eq. by eapply lookup_lt_Some. }
    split; [exact Hc|]. intros txin Hin Hf.
    destruct (P txin Hin Hf) as [D|D]; [|done].
    simpl in D. rewrite Em' in D. set_solver.
  - eapply IH; eauto.
Qed.

(** A dependent enters the queue when, and only when, the txid that is
    erased was the last one it waited for. *)
Lemma release_dependers_pushes txid ps :
  forall orph vec orph' vec',
    release_dependers txid ps orph vec = Some (orph', vec') ->
    exists pushed,
      vec' = vec ++ pushed /\
      Forall (fun e => exists p o,
                  p ∈ ps /\ orph !! p = Some (Some o) /\
                  setDependsOn o <> ∅ /\ setDependsOn o ∖ {[txid]} = ∅ /\
                  e = (dPriority o, feeRate o, ptx o)) pushed.
Proof.
  induction ps as [|p ps IH]; intros orph vec orph' vec' E; simpl in E.
  { injection E as <- <-. exists []. by rewrite app_nil_r. }
  destruct (orph !! p) as [[o|]|] eqn:Lp; try discriminate.
  destruct (bool_decide (setDependsOn o = ∅)) eqn:Em; simpl in E.
  { apply IH in E as (pushed & -> & F). exists pushed. split; [done|].
    eapply Forall_impl; [exact F|]. intros e (q & o' & Hq & R). exists q, o'.
    split; [set_solver|done]. }
  apply bool_decide_eq_false in Em.
  assert (Hback : forall q o',
             q ∈ ps ->
             <[p := Some (orphan_erase_dep txid o)]> orph !! q = Some (Some o') ->
             setDependsOn o' <> ∅ -> setDependsOn o' ∖ {[txid]} = ∅ ->
             q ∈ p :: ps /\ orph !! q = Some (Some o')).
  { intros q o' Hq Lq N1 N2. split; [set_solver|].
    destruct (decide (q = p)) as [->|Nq].
    - rewrite list_lookup_insert_eq in Lq by (by eapply lookup_lt_Some).
      injection Lq as <-. simpl in *. exfalso. apply N1. set_solver.
    - by rewrite list_lookup_insert_ne in Lq. }
  destruct (bool_decide (setDependsOn o ∖ {[txid]} = ∅)) eqn:Em'.
  - apply bool_decide_eq_true in Em'.
    apply IH in E as (pushed & -> & F).
    exists ((dPriority o, feeRate o, ptx o) :: pushed).
    split; [by rewrite <- app_assoc|]. constructor.
    + exists p, o. split; [set_solver|]. done.
    + eapply Forall_impl; [exact F|]. intros e (q & o' & Hq & Lq & N1 & N2 & ->).
      destruct (Hback q o' Hq Lq N1 N2). exists q, o'. done.
  - apply IH in E as (pushed & -> & F). exists pushed. split; [done|].
    eapply Forall_impl; [exact F|]. intros e (q & o' & Hq & Lq & N1 & N2 & ->).
    destruct (Hback q o' Hq Lq N1 N2). exists q, o'. done.
Qed.

Lemma select_inv_continue view s q b :
  select_inv view s -> (forall e, e ∈ q -> e ∈ queue s) ->
  select_inv view (with_fSortedByFee b (with_queue q s)).
Proof.
  intros (Hq & Ho & Hp & Hc & Hl & Hf & Hn) Sub.
  split; [|split; [|split; [|split; [|split; [|split]]]]]; simpl; auto.
Qed.

Lemma select_tx_inv view deps height m1 m2 m3 front q s s' :
  select_inv view s ->
  entry_placed view (sel_vtx s) front ->
  (forall e, e ∈ q -> e ∈ queue s) ->
  select_tx deps height m1 m2 m3 front (with_queue q s) = Some s' ->
  select_inv view s'.
Proof.
  intros I Hfront Sub E.
  assert (I0 : select_inv view (with_queue q s)).
  { destruct I as (Hq & Ho & Hp & Hc & Hl & Hf & Hn).
    split; [|split; [|split; [|split; [|split; [|split]]]]]; simpl; auto. }
  assert (I1 : forall b, select_inv view (with_fSortedByFee b (with_queue q s)))
    by (intros b; by apply select_inv_continue).
  unfold select_tx in E.
  destruct (_ >=? m1); [by injection E as <-|].
  destruct (_ >=? MAX_BLOCK_SIGOPS); [by injection E as <-|].
  destruct (ApplyDeltas _ _ _) as [dPd nFd].
  destruct (_ && _ && _ && _ && _); [by injection E as <-|].
  set (s1 := if _ && _ then with_fSortedByFee true (with_queue q s) else with_queue q s) in E.
  assert (I2 : select_inv view s1 /\ sel_vtx s1 = sel_vtx s /\ queue s1 = q /\
               orphans s1 = orphans s /\ sel_vTxFees s1 = sel_vTxFees s).
  { subst s1. destruct (_ && _); simpl; auto. }
  clearbody s1. destruct I2 as (I2 & V1 & Q1 & O1 & F1).
  destruct (negb (HaveInputs _ _)); [by injection E as <-|].
  destruct (_ >=? MAX_BLOCK_SIGOPS); [by injection E as <-|].
  destruct (negb (ContextualCheckInputs _ _)); [by injection E as <-|].
  destruct I2 as (Hq & Ho & Hp & Hc & Hl & (f0 & Hf) & Hn).
  destruct Hfront as [Fc Fp]. rewrite <- V1 in Fp.
  (* the transaction goes in *)
  set (body := sel_vtx s1 ++ [front.2]) in *.
  assert (Hplaced : exists j parent,
             (1 <= j)%nat /\ body !! j = Some parent /\ GetHash parent = GetHash front.2).
  { exists (length (sel_vtx s1)), front.2. split; [done|]. split; [|done].
    subst body. rewrite lookup_app_r by lia. by rewrite Nat.sub_diag. }
  assert (Hq' : forall e, e ∈ queue s1 -> entry_placed view body e).
  { intros e He. destruct (Hq e He). split; [done|]. by apply parents_placed_app. }
  assert (Ho' : forall p o, orphans s1 !! p = Some (Some o) -> orphan_accounts view body o).
  { intros p o Lp. apply orphan_accounts_app. eauto. }
  assert (Hp' : parents_first view body).
  { intros i tx txin Li Lk Hin Hfa. subst body.
    destruct (decide (i < length (sel_vtx s1))%nat).
    - rewrite lookup_app_l in Lk by done.
      destruct (Hp i tx txin Li Lk Hin Hfa) as (j & parent & Lj & Lkj & G).
      exists j, parent. split; [done|]. split; [|done]. by apply lookup_app_l_Some.
    - rewrite lookup_app_r in Lk by lia.
      destruct (i - length (sel_vtx s1))%nat eqn:D; [|by destruct n0].
      injection Lk as <-.
      destruct (Fp txin Hin Hfa) as (j & parent & Lj & Lkj & G).
      exists j, parent. split; [|split; [by apply lookup_app_l_Some|done]].
      apply lookup_lt_Some in Lkj. lia. }
  assert (Hc' : forall i tx, (1 <= i)%nat -> body !! i = Some tx -> IsCoinBase tx = false).
  { intros i tx Li Lk. subst body.
    destruct (decide (i < length (sel_vtx s1))%nat).
    - rewrite lookup_app_l in Lk by done. eauto.
    - rewrite lookup_app_r in Lk by lia.
      destruct (i - length (sel_vtx s1))%nat; [|by destruct n0].
      by injection Lk as <-. }
  assert (Hl' : (1 <= length body)%nat) by (subst body; rewrite length_app; lia).
  set (fee := int64 (GetValueIn (Standard.view s1) front.2 - GetValueOut front.2)) in *.
  assert (Hf' : exists f1, sel_vTxFees s1 ++ [fee] = f1 :: tail (sel_vTxFees s1 ++ [fee])).
  { rewrite Hf. simpl. eauto. }
  assert (Hn' : int64 (nFees s1 + fee) = sum_CAmount (tail (sel_vTxFees s1 ++ [fee]))).
  { rewrite Hf. simpl. unfold sum_CAmount. rewrite fold_left_app. simpl.
    fold (sum_CAmount (tail (sel_vTxFees s1))). by rewrite <- Hn. }
  destruct (deps !! GetHash front.2) as [ps|].
  - simpl in E.
    destruct (release_dependers _ _ _ _) as [[orph vec]|] eqn:R; [|discriminate].
    injection E as <-.
    destruct (release_dependers_inv view body _ ps Hplaced _ _ _ _ R Ho' Hq') as [Ho'' Hq''].
    split; [|split; [|split; [|split; [|split; [|split]]]]]; simpl; auto.
  - injection E as <-.
    split; [|split; [|split; [|split; [|split; [|split]]]]]; simpl; auto.
Qed.

Lemma select_loop_inv view deps height m1 m2 m3 fuel :
  forall s s',
    select_inv view s ->
    select_loop fuel deps height m1 m2 m3 s = Some (Some s') ->
    select_inv view s'.
Proof.
  induction fuel as [|fuel IH]; intros s s' I E; [discriminate|].
  simpl in E.
  destruct (pop_heap _ _) as [[front q]|] eqn:P.
  - destruct (select_tx _ _ _ _ _ _ _) as [s1|] eqn:T; [|discriminate].
    apply pop_heap_elem in P as [Hin Sub].
    eapply IH; [|exact E].
    eapply select_tx_inv; [exact I| |exact Sub|exact T].
    destruct I as (Hq & _). auto.
  - by injection E as <-.
Qed.

(** *** The selection loop ends *)

Lemma waiting_insert orph : forall p c c',
  orph !! p = Some c ->
  (waiting (<[p := c']> orph) + (if is_waiting c then 1 else 0) =
   waiting orph + (if is_waiting c' then 1 else 0))%nat.
Proof.
  unfold waiting. induction orph as [|x orph IH]; intros p c c' L; [done|].
  destruct p as [|p]; simpl in *.
  - injection L as ->. destruct (is_waiting c), (is_waiting c'); simpl; lia.
  - specialize (IH p c c' L). destruct (is_waiting x); simpl; lia.
Qed.

Lemma release_dependers_measure txid ps :
  forall orph vec orph' vec',
    release_dependers txid ps orph vec = Some (orph', vec') ->
    (length vec' + waiting orph' = length vec + waiting orph)%nat.
Proof.
  induction ps as [|p ps IH]; intros orph vec orph' vec' E; simpl in E.
  { by injection E as <- <-. }
  destruct (orph !! p) as [[o|]|] eqn:Lp; try discriminate.
  destruct (bool_decide (setDependsOn o = ∅)) eqn:Em; simpl in E; [eauto|].
  pose proof (waiting_insert orph p (Some o) (Some (orphan_erase_dep txid o)) Lp) as W.
  simpl in W. rewrite Em in W. simpl in W.
  destruct (bool_decide (setDependsOn o ∖ {[txid]} = ∅)) eqn:Em'; simpl in W.
  - apply IH in E. rewrite length_app in E. simpl in E. lia.
  - apply IH in E. lia.
Qed.

Lemma select_tx_measure deps height m1 m2 m3 front q s s' :
  select_tx deps height m1 m2 m3 front (with_queue q s) = Some s' ->
  (length (queue s') + waiting (orphans s') = length q + waiting (orphans s))%nat.
Proof.
  unfold select_tx. intros E.
  destruct (_ >=? m1); [by injection E as <-|].
  destruct (_ >=? MAX_BLOCK_SIGOPS); [by injection E as <-|].
  destruct (ApplyDeltas _ _ _) as [dPd nFd].
  destruct (_ && _ && _ && _ && _); [by injection E as <-|].
  set (s1 := if _ && _ then with_fSortedByFee true (with_queue q s) else with_queue q s) in E.
  assert (I2 : queue s1 = q /\ orphans s1 = orphans s).
  { subst s1. destruct (_ && _); simpl; auto. }
  clearbody s1. destruct I2 as (Q1 & O1).
  destruct (negb (HaveInputs _ _)); [injection E as <-; congruence|].
  destruct (_ >=? MAX_BLOCK_SIGOPS); [injection E as <-; congruence|].
  destruct (negb (ContextualCheckInputs _ _)); [injection E as <-; congruence|].
  destruct (deps !! GetHash front.2) as [ps|].
  - simpl in E.
    destruct (release_dependers _ _ _ _) as [[orph vec]|] eqn:R; [|discriminate].
    injection E as <-. simpl. apply release_dependers_measure in R. congruence.
  - injection E as <-. simpl. congruence.
Qed.

Lemma select_loop_fuel deps height m1 m2 m3 fuel :
  forall s,
    (length (queue s) + waiting (orphans s) < fuel)%nat ->
    select_loop fuel deps height m1 m2 m3 s <> None.
Proof.
  induction fuel as [|fuel IH]; intros s L; [lia|]. simpl.
  destruct (pop_heap _ _) as [[front q]|] eqn:P; [|discriminate].
  destruct (select_tx _ _ _ _ _ _ _) as [s1|] eqn:T; [|discriminate].
  apply pop_heap_length in P. apply select_tx_measure in T.
  apply IH. lia.
Qed.

(** *** The whole function *)

(** The sizes the function computes from the command line. *)
Lemma CreateNewBlock_fuel spk mapTx coins prev now now' rand :
  CreateNewBlock spk mapTx coins prev now now' rand <> BuildOutOfFuel.
Proof.
  unfold CreateNewBlock.
  destruct (collect _ _ _ _ _ _) as [c| |]; try discriminate.
  match goal with |- context [select_loop ?f ?d ?h ?a ?b ?c ?s] =>
    pose proof (select_loop_fuel d h a b c f s) as F;
    destruct (select_loop f d h a b c s) as [[s'|]|] end.
  - unfold finish_block. case_match; discriminate.
  - discriminate.
  - exfalso. apply F; [simpl; lia|done].
Qed.

Lemma finish_block_Built spk prev height version now rand s T :
  finish_block spk prev height version now rand s = Built T ->
  vtx (block T) = <[0%nat := miner_coinbase spk height (nFees s)]> (sel_vtx s) /\
  vTxFees T = <[0%nat := int64 (- nFees s)]> (sel_vTxFees s) /\
  hashReserved (block T) = 0.
Proof.
  unfold finish_block. case_match; [|discriminate]. intros [= <-]. simpl.
  rewrite UpdateTime_vtx. simpl. split; [done|]. split; [done|].
  unfold UpdateTime. by case_match.
Qed.

Lemma collect_inv_init view : collect_inv view (mkCollect [] ∅ []).
Proof.
  split; simpl.
  - intros e He. by apply elem_of_nil in He.
  - intros p o L. by rewrite lookup_nil in L.
Qed.

Lemma CreateNewBlock_Built spk mapTx coins prev now now' rand T :
  CreateNewBlock spk mapTx coins prev now now' rand = Built T ->
  exists s,
    select_inv coins s /\
    vtx (block T) = <[0%nat := miner_coinbase spk (nHeight prev + 1) (nFees s)]> (sel_vtx s) /\
    vTxFees T = <[0%nat := int64 (- nFees s)]> (sel_vTxFees s) /\
    hashReserved (block T) = 0.
Proof.
  unfold CreateNewBlock. intros E.
  destruct (collect _ _ _ _ _ _) as [c| |] eqn:C; try discriminate.
  apply collect_inv_holds in C; [|apply collect_inv_init].
  destruct C as [Cq Co].
  destruct (select_loop _ _ _ _ _ _ _) as [[s|]|] eqn:L; try discriminate.
  apply finish_block_Built in E. exists s. split; [|exact E].
  eapply select_loop_inv; [|exact L].
  split; [|split; [|split; [|split; [|split; [|split]]]]]; simpl.
  - intros e He. destruct (Cq e He) as [Hc Hp]. split; [done|].
    intros txin Hin Hf. rewrite Hp in Hf by done. discriminate.
  - intros p o Lp. destruct (Co p o Lp) as (Hc & _ & Hd). split; [done|].
    intros txin Hin Hf. left. eauto.
  - intros i tx txin Li Lk. destruct i as [|[|i]]; [lia|done|done].
  - intros i tx Li Lk. destruct i as [|[|i]]; [lia|done|done].
  - lia.
  - eauto.
  - reflexivity.
Qed.

End Facts.
End StandardFacts.

(** * The claims *)

(** ** Header time and difficulty *)

(** C9, as stated, fails where the maximum does not fit the header's time
    field: with the clock at 2^32 + 5 seconds the header gets the time 5. *)
Lemma UpdateTime_time_wraps :
  let nd := Scenario.node 3 103 in
  let now := 2 ^ 32 + 5 in
  let r := @UpdateTime nd CBlock_default (mkConsensus false) Scenario.tip now in
  Z.max (GetMedianTimePast Scenario.tip + 1) now = 2 ^ 32 + 5 /\
  nTime r = 5 /\
  nTime r <> Z.max (GetMedianTimePast Scenario.tip + 1) now.
Proof. vm_compute. repeat split; discriminate. Qed.

(** C9 (amended). For a median time past and a clock that are [int64_t]
    values (the increment not overflowing), [UpdateTime] sets the header's
    time to [max(prev.median_time_past + 1, adjusted_now())] reduced
    modulo 2^32, the width of the field: it is the maximum itself whenever
    the maximum is in [0, 2^32). Where [fPowAllowMinDifficultyBlocks]
    holds it recomputes the bits (from the header that already carries the
    new time), and it leaves the bits and every other field alone
    otherwise. *)
Theorem UpdateTime_time_and_bits `{Node} (pblock : CBlock) (cp : ConsensusParams)
    (pindexPrev : CBlockIndex) (now : Z) :
  - 2 ^ 63 <= GetMedianTimePast pindexPrev < 2 ^ 63 - 1 ->
  - 2 ^ 63 <= now < 2 ^ 63 ->
  let m := Z.max (GetMedianTimePast pindexPrev + 1) now in
  let r := UpdateTime pblock cp pindexPrev now in
  nTime r = m mod 2 ^ 32 /\
  (0 <= m < 2 ^ 32 -> nTime r = m) /\
  nBits r = (if fPowAllowMinDifficultyBlocks cp
             then GetNextWorkRequired pindexPrev (set_nTime (m mod 2 ^ 32) pblock) cp
             else nBits pblock) /\
  nVersion r = nVersion pblock /\ hashPrevBlock r = hashPrevBlock pblock /\
  hashMerkleRoot r = hashMerkleRoot pblock /\ hashReserved r = hashReserved pblock /\
  nNonce r = nNonce pblock /\ nSolution r = nSolution pblock /\ vtx r = vtx pblock.
Proof.
  intros Hm Hn m r. subst r. unfold UpdateTime, uint32. fold m.
  destruct (fPowAllowMinDifficultyBlocks cp); simpl;
    (split; [reflexivity|]); (split; [intros R; by apply Z.mod_small|]);
    repeat split.
Qed.

Lemma UpdateTime_time_and_bits_witness :
  let nd := Scenario.node 3 103 in
  nTime (@UpdateTime nd CBlock_default (mkConsensus false) Scenario.tip 2000) = 2000.
Proof.
  intros nd.
  refine (proj1 (proj2 (@UpdateTime_time_and_bits nd CBlock_default (mkConsensus false)
                          Scenario.tip 2000 _ _)) _); vm_compute; split;
    first [discriminate | reflexivity].
Defined.

(** ** Fork mode *)

Module ForkClaims.
Import Fork ForkFacts ForkShapes ForkTemplates ForkRecords ForkCaps ShieldedRecords.

(** C4, as stated, fails: a record whose amount is 2^63 is emitted with the
    output value 0, not 2 * 2^63. *)
Lemma doubling_overflows_at_2_63 :
  transparent_records Scenario.overflow_record = [(2 ^ 63, [x51])] /\
  match @CreateNewForkBlockAt (Scenario.node 2 103)
          (Some Scenario.overflow_record) Scenario.pks64 0 101 with
  | ForkBuilt T _ =>
      (vout <$> vtx (block T) !! 1%nat) = Some [mkTxOut 0 [x51]]
  | _ => False
  end /\
  spec_doubling (2 ^ 63) <> 0.
Proof. vm_compute. repeat split; discriminate. Qed.

(** C4 (amended). In a template read from a transparent snapshot, the
    transaction after the dummy coinbase at position [i] has one output, with
    the script of the [i]-th record of the file and, for the record's amount
    [a], the value 0 when [a = 0] and [2a] reduced to 64 bits when [a > 0]:
    the amount is doubled once, in [uint64_t], and stored in a signed
    64-bit field. This is the spec's [2a] for every amount below 2^62. *)
Theorem doubling_rule_64bit `{Node} (contents pks : list byte) (rand h : Z)
    (T : CBlockTemplate) (log : list LogEvent) (i : nat) (tx : CTransaction) :
  h <> ZUtxoMiningStartBlock ->
  CreateNewForkBlockAt (Some contents) pks rand h = ForkBuilt T log ->
  vtx (block T) !! S i = Some tx ->
  exists a script v,
    transparent_records contents !! i = Some (a, script) /\
    vout tx = [mkTxOut v script] /\
    v = (if a =? 0 then 0 else int64 (uint64 (2 * a))) /\
    (a < 2 ^ 62 -> v = spec_doubling a).
Proof.
  intros Hh E Hi.
  destruct (transparent_template_records _ _ _ _ _ _ _ _ Hh E Hi)
    as (a & script & R & Ra & ->).
  rewrite transparent_coinbase_eq. simpl.
  rewrite doubling_test by done.
  exists a, script. eexists. split; [done|]. split; [reflexivity|].
  destruct (Z.eqb_spec a 0) as [->|Na]; simpl.
  - split; [reflexivity|]. intros _. reflexivity.
  - rewrite (Z.mul_comm a 2). split; [reflexivity|]. intros Hs.
    unfold spec_doubling. apply Z.eqb_neq in Na. rewrite Na.
    rewrite uint64_small by lia. apply int64_small. lia.
Qed.

Lemma doubling_rule_64bit_witness :
  let r := @CreateNewForkBlockAt (Scenario.node 3 103)
             (Some Scenario.three_records) Scenario.pks64 0 101 in
  exists a script v,
    transparent_records Scenario.three_records !! 1%nat = Some (a, script) /\
    vout (Scenario.tx_at 2 (Scenario.built r)) = [mkTxOut v script] /\
    a = 100 /\ v = 200.
Proof.
  intros r.
  destruct (@doubling_rule_64bit (Scenario.node 3 103) Scenario.three_records
              Scenario.pks64 0 101 (Scenario.built r) (Scenario.built_log r) 1%nat
              (Scenario.tx_at 2 (Scenario.built r)))
    as (a & script & v & R & V & E & _).
  - vm_compute. discriminate.
  - vm_compute. reflexivity.
  - vm_compute. reflexivity.
  - exists a, script, v. split; [exact R|]. split; [exact V|].
    vm_compute in R. injection R as <- <-.
    vm_compute in V. injection V as <-. split; reflexivity.
Defined.

(** C5, as stated, fails for shielded records: the coinbase made of a
    shielded record keeps the script of the decoded transaction's input;
    the height, the index and [hashPid] are not written into it. *)
Lemma shielded_scriptSig_not_rewritten :
  let nd := Scenario.node 2 103 in
  let r := @CreateNewForkBlockAt nd (Some Scenario.two_shielded_records)
             Scenario.pks64 0 103 in
  map scriptSig (vin (Scenario.tx_at 1 (Scenario.built r))) = [[x01; x02; x03]] /\
  length (vtx (block (Scenario.built r))) = 3%nat /\
  [x01; x02; x03] <> @fork_scriptSig nd 103 0.
Proof. vm_compute. repeat split; discriminate. Qed.

(** C5 (amended). The script [fork_scriptSig h k] is
    [push(h) ‖ push(k) ‖ OP_0], with [push(hashPid)] in front of [OP_0]
    when [k = 0]. In every fork template the dummy coinbase at index 0
    carries [fork_scriptSig h 0]; in a template read from a transparent
    snapshot the transaction after it at position [i] has the one input
    with the null outpoint and [fork_scriptSig h i], and no shielded
    descriptor. In the template of the shielded snapshot a transaction after
    the dummy is a decoded transaction whose inputs are cut to one with the
    null outpoint and whose outputs are cut to one of value 0: its
    [script_sig] is the one the decoded transaction had (empty if it had no
    input), and its shielded descriptors are those of the decoded
    transaction. The decoded transaction is that of the bytes of the
    record: the transaction at position [i] after the dummy comes from the
    [i]-th record of the file. *)
Theorem fork_coinbase_shaping `{Node} :
  (forall h k,
      fork_scriptSig h k =
      push_int64 h ++ push_CScriptNum (int64 k)
        ++ (if k =? 0 then push_bytes hashPid else []) ++ [OP_0]) /\
  (forall contents pks rand h T log,
      CreateNewForkBlockAt (Some contents) pks rand h = ForkBuilt T log ->
      exists tx0,
        vtx (block T) !! 0%nat = Some tx0 /\
        vin tx0 = [mkTxIn COutPoint_null (fork_scriptSig h 0) (uint32 (-1))]) /\
  (forall contents pks rand h T log i tx,
      h <> ZUtxoMiningStartBlock ->
      CreateNewForkBlockAt (Some contents) pks rand h = ForkBuilt T log ->
      vtx (block T) !! S i = Some tx ->
      vin tx = [mkTxIn COutPoint_null (fork_scriptSig h (uint64 (Z.of_nat i))) (uint32 (-1))] /\
      vjoinsplit tx = []) /\
  (forall contents pks rand T log i tx,
      CreateNewForkBlockAt (Some contents) pks rand ZUtxoMiningStartBlock = ForkBuilt T log ->
      vtx (block T) !! S i = Some tx ->
      exists raw d,
        shielded_records contents !! i = Some raw /\
        decoderawtransaction2 raw = Some d /\
        tx_nVersion tx = tx_nVersion d /\ nLockTime tx = nLockTime d /\
        vjoinsplit tx = vjoinsplit d /\
        vin tx = [mkTxIn COutPoint_null
                    (match vin d with i0 :: _ => scriptSig i0 | [] => [] end)
                    (match vin d with i0 :: _ => nSequence i0 | [] => uint32 (-1) end)] /\
        vout tx = [mkTxOut 0 (match vout d with o :: _ => scriptPubKey o | [] => [] end)]).
Proof.
  split; [|split; [|split]].
  - intros h k. unfold fork_scriptSig. destruct (k =? 0); reflexivity.
  - intros contents pks rand h T log E.
    apply CreateNewForkBlockAt_built in E as (s_end & E & -> & _).
    apply fork_dummy_first in E as (more & E). simpl. rewrite E.
    eexists. split; [reflexivity|]. reflexivity.
  - intros contents pks rand h T log i tx Hh E Hi.
    destruct (transparent_template_records _ _ _ _ _ _ _ _ Hh E Hi)
      as (a & script & _ & _ & ->).
    rewrite transparent_coinbase_eq. done.
  - intros contents pks rand T log i tx E Hi.
    destruct (shielded_template_records _ _ _ _ _ _ _ E Hi) as (raw & d & R & D & ->).
    exists raw, d. rewrite shielded_coinbase_eq. done.
Qed.

Lemma fork_coinbase_shaping_witness :
  let nd := Scenario.node 3 103 in
  let r := @CreateNewForkBlockAt nd (Some Scenario.three_records) Scenario.pks64 0 101 in
  let z := @CreateNewForkBlockAt nd (Some Scenario.two_shielded_records) Scenario.pks64 0 103 in
  vin (Scenario.tx_at 2 (Scenario.built r)) =
    [mkTxIn COutPoint_null (@fork_scriptSig nd 101 1) (uint32 (-1))] /\
  shielded_records Scenario.two_shielded_records = [[x01; x02; x03]; [x04]] /\
  vjoinsplit (Scenario.tx_at 2 (Scenario.built z)) = [[x04]].
Proof.
  intros nd r z.
  destruct (@fork_coinbase_shaping nd) as (_ & _ & Ht & Hz).
  split; [|split; [vm_compute; reflexivity|]].
  - refine (proj1 (Ht Scenario.three_records Scenario.pks64 0 101
                      (Scenario.built r) (Scenario.built_log r) 1%nat
                      (Scenario.tx_at 2 (Scenario.built r)) _ _ _)).
    + vm_compute. discriminate.
    + vm_compute. reflexivity.
    + vm_compute. reflexivity.
  - destruct (Hz Scenario.two_shielded_records Scenario.pks64 0
                 (Scenario.built z) (Scenario.built_log z) 1%nat
                 (Scenario.tx_at 2 (Scenario.built z)))
      as (raw & d & R & D & _ & _ & J & _).
    + vm_compute. reflexivity.
    + vm_compute. reflexivity.
    + vm_compute in R. injection R as <-.
      vm_compute in D. injection D as <-. exact J.
Defined.

(** C2, as stated, fails in the shielded format: with [forkCBPerBlock = 1]
    a shielded snapshot of two records gives two synthetic coinbases. *)
Lemma shielded_count_exceeds_cap :
  let nd := Scenario.node 1 103 in
  let r := @CreateNewForkBlockAt nd (Some Scenario.two_shielded_records)
             Scenario.pks64 0 103 in
  r = ForkBuilt (Scenario.built r) [ErrNoTxSize] /\
  @forkCBPerBlock nd = 1 /\
  synthetic_count (Scenario.built r) = 2 /\
  ~ synthetic_count (Scenario.built r) <= @forkCBPerBlock nd.
Proof.
  intros nd r.
  assert (C : synthetic_count (Scenario.built r) = 2) by (vm_compute; reflexivity).
  split; [vm_compute; reflexivity|]. split; [reflexivity|]. split; [exact C|].
  rewrite C. change (@forkCBPerBlock nd) with 1. lia.
Qed.

(** C2 (amended). In every template read from a transparent snapshot the
    number of synthetic coinbases is at most [forkCBPerBlock] (a value a
    [uint64_t] holds). The loop of the shielded format has no such test. *)
Theorem transparent_count_capped `{Node} (contents pks : list byte) (rand h : Z)
    (T : CBlockTemplate) (log : list LogEvent) :
  0 <= forkCBPerBlock < 2 ^ 64 ->
  h <> ZUtxoMiningStartBlock ->
  CreateNewForkBlockAt (Some contents) pks rand h = ForkBuilt T log ->
  0 <= synthetic_count T <= forkCBPerBlock.
Proof.
  intros Hcap Hh E.
  apply CreateNewForkBlockAt_built in E as (s_end & E & -> & _).
  apply Z.eqb_neq in Hh. rewrite Hh in E.
  apply transparent_loop_count in E as [N R]; [| done | reflexivity | simpl; lia].
  unfold synthetic_count. simpl. lia.
Qed.

Lemma transparent_count_capped_witness :
  let nd := Scenario.node 2 103 in
  let r := @CreateNewForkBlockAt nd (Some Scenario.three_records) Scenario.pks64 0 101 in
  synthetic_count (Scenario.built r) = 2 /\
  0 <= synthetic_count (Scenario.built r) <= 2.
Proof.
  intros nd r. split; [vm_compute; reflexivity|].
  apply (@transparent_count_capped nd Scenario.three_records Scenario.pks64 0 101
           (Scenario.built r) (Scenario.built_log r)).
  - vm_compute. split; [discriminate|reflexivity].
  - vm_compute. discriminate.
  - vm_compute. reflexivity.
Defined.

(** Every fork template has the fee entries [-1, 0, ..., 0]: the entry of
    the dummy coinbase is never written again. *)
Lemma fork_fees_placeholder `{Node} (contents pks : list byte) (rand h : Z)
    (T : CBlockTemplate) (log : list LogEvent) :
  CreateNewForkBlockAt (Some contents) pks rand h = ForkBuilt T log ->
  vTxFees T = -1 :: repeat 0 (length (vtx (block T)) - 1) /\
  ~ fees_balanced (vTxFees T).
Proof.
  intros E. apply CreateNewForkBlockAt_built in E as (s_end & E & -> & _).
  apply fork_fees_shape in E as (k & F & L). simpl. rewrite F, L.
  replace (S k - 1)%nat with k by lia. split; [done|].
  simpl. intros B. assert (fold_right Z.add 0 (repeat 0 k) = 0).
  { clear. induction k; simpl; lia. }
  lia.
Qed.

(** C3 at its failing input: the fork template of the three-record snapshot
    has the fees [-1, 0, 0, 0], and [-1] is not minus the sum of the rest.
    The driver hands the same list out. *)
Theorem fork_fees_unbalanced :
  let nd := Scenario.node 3 103 in
  let r := @CreateNewForkBlockAt nd (Some Scenario.three_records) Scenario.pks64 0 101 in
  r = ForkBuilt (Scenario.built r) (Scenario.built_log r) /\
  vTxFees (Scenario.built r) = [-1; 0; 0; 0] /\
  ~ fees_balanced (vTxFees (Scenario.built r)) /\
  match @CreateNewForkBlock nd
          (fun h => if h =? 101 then Some Scenario.three_records else None)
          (mkIndex 100 7 1000) [mkObs (mkIndex 100 7 1000) 2000 0 Scenario.pks64] with
  | Returned T _ => vTxFees T = [-1; 0; 0; 0]
  | _ => False
  end.
Proof.
  intros nd r.
  assert (F : vTxFees (Scenario.built r) = [-1; 0; 0; 0]) by (vm_compute; reflexivity).
  split; [vm_compute; reflexivity|]. split; [exact F|]. split.
  - rewrite F. simpl. lia.
  - vm_compute. reflexivity.
Qed.

(** C6, as stated, fails: at the last height of the fork window a file
    that ends inside the amount of its second record ends the reading
    without any error, although one record only has been taken and the cap
    is two. *)
Lemma truncated_file_ends_silently :
  let nd := Scenario.node 2 103 in
  let r := @CreateNewForkBlockAt nd (Some Scenario.truncated_file) Scenario.pks64 0 105 in
  r = ForkBuilt (Scenario.built r) [] /\
  transparent_records Scenario.truncated_file = [(7, [x51])] /\
  drop 18 Scenario.truncated_file = [x01; x02; x03] /\
  synthetic_count (Scenario.built r) = 1 /\
  synthetic_count (Scenario.built r) < @forkCBPerBlock nd /\
  existsb SnapshotCorrupt (Scenario.built_log r) = false.
Proof.
  intros nd r.
  assert (C : synthetic_count (Scenario.built r) = 1) by (vm_compute; reflexivity).
  split; [vm_compute; reflexivity|]. split; [vm_compute; reflexivity|].
  split; [vm_compute; reflexivity|]. split; [exact C|].
  split; [rewrite C; change (@forkCBPerBlock nd) with 2; lia|].
  vm_compute. reflexivity.
Qed.

(** C6 (amended). One turn of the transparent loop on a stream in good
    state. A file that ends before the eight bytes of an amount are there
    stops the reading, with the error "No more data (Amount)" unless the
    height is the one at [forkHeightRange] from the fork start, where it
    stops silently. A file that ends inside the script length stops it
    with the matching corruption error. Once the script length is read it
    is cut to an [int]: if that is negative the allocation throws and no
    template is made, whatever follows; if not, a file that ends inside
    the script stops the reading with the matching corruption error. A
    record that is complete but for its separator is taken in, and then
    stops the reading with "invalid record separator", when the size and
    sig-op caps leave room for it; when they do not it is dropped and the
    message of the cap stops the reading. Once the count has reached
    [forkCBPerBlock] nothing is read any more and the loop ends without a
    message, whatever the file holds. No turn changes the template
    otherwise. *)
Theorem transparent_truncation `{Node} (h : Z) (s : ForkState) :
  stream_good (if_utxo s) ->
  let r := rest (if_utxo s) in
  let len := int32 (bytes2uint64 (take 8 (drop 8 r))) in
  ((length r < 8)%nat ->
   exists s', transparent_body h s = Break s' /\ unchanged s s' /\
     fk_log s' = fk_log s ++
       (if h - ForkStartHeight =? forkHeightRange then [] else [ErrNoAmount])) /\
  ((8 <= length r < 16)%nat ->
   exists s', transparent_body h s = Break s' /\ unchanged s s' /\
     fk_log s' = fk_log s ++ [ErrNoPubKeySize]) /\
  ((16 <= length r)%nat -> len < 0 -> transparent_body h s = Raise) /\
  ((16 <= length r)%nat -> 0 <= len ->
   (length r < 16 + Z.to_nat len)%nat ->
   exists s', transparent_body h s = Break s' /\ unchanged s s' /\
     fk_log s' = fk_log s ++ [ErrNoPubKeyScript]) /\
  (forall a script,
   split_one r = Some (a, script, []) ->
   let tx := transparent_coinbase h (nBlockTx s) a script in
   let empty := if (length script =? 0)%nat then [ErrPubKeySizeZero] else [] in
   if (uint64 (nBlockSize s + uint32 (GetSerializeSize tx)) <? fork_nBlockMaxSize)
      && (uint64 (nBlockSigOps s + uint32 (GetLegacySigOpCount tx)) <? MAX_BLOCK_SIGOPS)
   then
     exists s', transparent_body h s = Break s' /\ appended tx s s' /\
       fk_log s' = fk_log s ++ empty ++ [ErrSeparator]
   else
     exists s' e, transparent_body h s = Break s' /\ unchanged s s' /\
       fk_log s' = fk_log s ++ empty ++ [e] /\
       (e = ErrMaxSize \/ e = ErrMaxSigOps)) /\
  (forall fuel, forkCBPerBlock <= nBlockTx s -> transparent_loop (S fuel) h s = Done s).
Proof.
  intros G r len. subst r len. split; [|split; [|split; [|split; [|split]]]].
  - intros L. unfold transparent_body. rewrite read_short by done. simpl.
    destruct (h - ForkStartHeight =? forkHeightRange); simpl.
    + eexists. split; [reflexivity|]. split; [by repeat split|]. simpl. by rewrite app_nil_r.
    + eexists. split; [reflexivity|]. split; [by repeat split|]. done.
  - intros L. unfold transparent_body.
    rewrite read_enough by (done || lia).
    rewrite read_short; [|done|simpl; rewrite length_drop; lia].
    eexists. split; [reflexivity|]. split; [by repeat split|]. done.
  - intros L P. unfold transparent_body.
    rewrite read_enough by (done || lia).
    rewrite read_enough; [|done|simpl; rewrite length_drop; lia].
    simpl rest. apply Z.ltb_lt in P. by rewrite P.
  - intros L P Q. unfold transparent_body.
    rewrite read_enough by (done || lia).
    rewrite read_enough; [|done|simpl; rewrite length_drop; lia].
    simpl rest.
    destruct (Z.ltb_spec (int32 (bytes2uint64 (take 8 (drop 8 (rest (if_utxo s)))))) 0)
      as [|_]; [lia|].
    rewrite read_short; [|done|simpl; rewrite !length_drop; lia].
    destruct (Z.eqb_spec (int32 (bytes2uint64 (take 8 (drop 8 (rest (if_utxo s)))))) 0)
      as [Z0|_].
    { rewrite Z0 in Q. simpl in Q. lia. }
    eexists. split; [reflexivity|]. split; [by repeat split|]. done.
  - intros a script S1 tx empty.
    destruct (_ && _) eqn:C.
    + apply andb_true_iff in C as [C1 C2]. apply Z.ltb_lt in C1, C2.
      destruct (transparent_body_emits h s a script [] G S1 C1 C2) as (s' & [B|B] & A & Lg).
      * apply transparent_body_Next in B as (a' & script' & S1' & _).
        rewrite S1 in S1'. discriminate.
      * exists s'. done.
    + exact (transparent_body_drops h s a script [] G S1 C).
  - intros fuel C. simpl.
    destruct (Z.ltb_spec (nBlockTx s) forkCBPerBlock) as [|_]; [lia|].
    by rewrite andb_false_r.
Qed.

Lemma transparent_truncation_witness :
  let nd := Scenario.node 2 103 in
  let s := @fork_init nd 104 Scenario.pks64 [x01; x02; x03] in
  exists s', @transparent_body nd 104 s = Break s' /\ fk_log s' = [ErrNoAmount].
Proof.
  intros nd s.
  destruct (@transparent_truncation nd 104 s) as ((s' & B & _ & L) & _).
  - split; reflexivity.
  - vm_compute. lia.
  - exists s'. split; [exact B|]. rewrite L. reflexivity.
Defined.

(** C10, as stated, fails when the block is full: in a block of at most
    2150 bytes the second record, whose script length is 0, is logged and
    then dropped at the size cap; no coinbase is made of it. *)
Lemma zero_script_len_is_dropped :
  let nd := Scenario.with_max_block_size 2150 (Scenario.node 3 103) in
  let r := @CreateNewForkBlockAt nd (Some Scenario.zero_length_second)
             Scenario.pks64 0 101 in
  transparent_records Scenario.zero_length_second = [(5, [x51]); (250, [])] /\
  r = ForkBuilt (Scenario.built r) [ErrPubKeySizeZero; ErrMaxSize] /\
  map (fun tx => map scriptPubKey (vout tx)) (vtx (block (Scenario.built r))) =
    [[Scenario.pks64]; [[x51]]].
Proof. vm_compute. repeat split. Qed.

(** C10 (amended). A record whose script length field is 0 does not stop
    the reader with a corruption error: the turn logs "PubKeyScript size =
    0", the read of no bytes succeeds, and the coinbase built of the record
    has an empty output script. When the size and sig-op caps leave room
    for it, it is taken in like any other record: the reading goes on if
    the separator follows and stops with "invalid record separator" if it
    does not, and the transaction is in whatever the loop ends with. When
    a cap leaves no room the record is dropped and the message of the cap
    stops the reading. *)
Theorem zero_script_len_is_emitted `{Node} (h : Z) (s : ForkState)
    (coin sz tail : list byte) :
  stream_good (if_utxo s) ->
  rest (if_utxo s) = coin ++ sz ++ tail ->
  length coin = 8%nat -> length sz = 8%nat -> bytes2uint64 sz = 0 ->
  let tx := transparent_coinbase h (nBlockTx s) (bytes2uint64 coin) [] in
  let room :=
    (uint64 (nBlockSize s + uint32 (GetSerializeSize tx)) <? fork_nBlockMaxSize)
    && (uint64 (nBlockSigOps s + uint32 (GetLegacySigOpCount tx)) <? MAX_BLOCK_SIGOPS) in
  map scriptPubKey (vout tx) = [[]] /\
  (if room then
     exists s',
       transparent_body h s =
         (match tail with
          | b :: _ => if Byte.eqb b x0a then Next s' else Break s'
          | [] => Break s'
          end) /\
       fk_vtx s' = fk_vtx s ++ [tx] /\
       fk_log s' = fk_log s ++ ErrPubKeySizeZero ::
         (match tail with
          | b :: _ => if Byte.eqb b x0a then [] else [ErrSeparator]
          | [] => [ErrSeparator]
          end)
   else
     exists s' e,
       transparent_body h s = Break s' /\ unchanged s s' /\
       fk_log s' = fk_log s ++ [ErrPubKeySizeZero; e] /\
       (e = ErrMaxSize \/ e = ErrMaxSigOps)) /\
  (forall fuel s_end,
     room = true ->
     nBlockTx s < forkCBPerBlock ->
     transparent_loop (S fuel) h s = Done s_end ->
     exists more, fk_vtx s_end = fk_vtx s ++ tx :: more).
Proof.
  intros G E L1 L2 Z0 tx room.
  assert (S1 : split_one (rest (if_utxo s)) = Some (bytes2uint64 coin, [], tail)).
  { rewrite E. apply (split_one_app coin sz [] tail); [done|done|]. by rewrite Z0. }
  assert (Hroom : room = true ->
            exists s', transparent_body h s =
                         (match tail with
                          | b :: _ => if Byte.eqb b x0a then Next s' else Break s'
                          | [] => Break s'
                          end) /\
                       fk_vtx s' = fk_vtx s ++ [tx] /\
                       fk_log s' = fk_log s ++ record_log [] tail).
  { intros C. apply andb_true_iff in C as [C1 C2]. apply Z.ltb_lt in C1, C2.
    destruct (transparent_body_emits_flow h s _ _ _ G S1 C1 C2) as (s' & B & (V & _) & Lg).
    exists s'. done. }
  split; [|split].
  - subst tx. rewrite transparent_coinbase_eq. reflexivity.
  - destruct room eqn:C.
    + destruct (Hroom eq_refl) as (s' & B & V & Lg).
      exists s'. split; [exact B|]. split; [exact V|]. exact Lg.
    + exact (transparent_body_drops h s _ [] tail G S1 C).
  - intros fuel s_end C Cnt Lp. simpl in Lp.
    destruct (Hroom C) as (s' & B & V & _).
    destruct G as [_ F]. unfold stream_ok in Lp. rewrite F in Lp.
    apply Z.ltb_lt in Cnt. rewrite Cnt in Lp. simpl in Lp.
    rewrite B in Lp.
    assert (Hgo : transparent_loop fuel h s' = Done s_end \/ s' = s_end).
    { destruct tail as [|b tail']; [right; congruence|].
      destruct (Byte.eqb b x0a); [by left|right; congruence]. }
    destruct Hgo as [Lp'|<-].
    + apply transparent_loop_grows in Lp' as (more & ->). rewrite V.
      exists more. by rewrite <- app_assoc.
    + exists []. by rewrite V.
Qed.

Lemma zero_script_len_is_emitted_witness :
  let nd := Scenario.node 1 103 in
  let file := Scenario.record 250 [] in
  let r := @CreateNewForkBlockAt nd (Some file) Scenario.pks64 0 101 in
  vout (Scenario.tx_at 1 (Scenario.built r)) = [mkTxOut 500 []] /\
  Scenario.built_log r = [ErrPubKeySizeZero].
Proof.
  intros nd file r.
  destruct (@zero_script_len_is_emitted nd 101
              (@fork_init nd 101 Scenario.pks64 file)
              (Scenario.le8 250) (Scenario.le8 0) [x0a])
    as (_ & _ & Hloop).
  - split; reflexivity.
  - reflexivity.
  - reflexivity.
  - reflexivity.
  - reflexivity.
  - destruct (Hloop (length file)
                (match @transparent_loop nd (S (length file)) 101
                         (@fork_init nd 101 Scenario.pks64 file) with
                 | Done s => s
                 | _ => @fork_init nd 101 Scenario.pks64 file
                 end)) as (more & V).
    + vm_compute. reflexivity.
    + vm_compute. reflexivity.
    + vm_compute. reflexivity.
    + split; vm_compute; reflexivity.
Defined.




End ForkClaims.

(** ** Standard mode, and the two modes together *)

Module TemplateClaims.
Import Fork Standard ForkFacts ForkShapes ForkTemplates StandardFacts.

(** The standard builder does what the fork builder leaves undone: its
    first fee entry is minus the sum of the others (in [CAmount]
    arithmetic). *)
Lemma standard_fees_balanced `{Node} (spk : list byte) (mapTx : list (Z * CTransaction))
    (coins : CCoinsViewCache) (prev : CBlockIndex) (now now' rand : Z)
    (T : CBlockTemplate) :
  CreateNewBlock spk mapTx coins prev now now' rand = Built T ->
  exists f0 more,
    vTxFees T = f0 :: more /\ f0 = int64 (- sum_CAmount more).
Proof.
  intros E. apply CreateNewBlock_Built in E as (s & I & _ & F & _).
  destruct I as (_ & _ & _ & _ & _ & (f0 & Hf) & Hn).
  rewrite F, Hf. simpl. eexists _, _. split; [reflexivity|]. by rewrite Hn.
Qed.

(** C1, as stated, fails in fork mode: the template of a snapshot of three
    records has a coinbase at index 1 (and at 2 and 3). *)
Lemma fork_template_has_coinbase_at_1 :
  let nd := Scenario.node 3 103 in
  let r := @CreateNewForkBlockAt nd (Some Scenario.three_records) Scenario.pks64 0 101 in
  r = ForkBuilt (Scenario.built r) (Scenario.built_log r) /\
  length (vtx (block (Scenario.built r))) = 4%nat /\
  IsCoinBase (Scenario.tx_at 1 (Scenario.built r)) = true /\
  ~ coinbase_first_only (vtx (block (Scenario.built r))).
Proof.
  intros nd r.
  split; [vm_compute; reflexivity|]. split; [vm_compute; reflexivity|].
  split; [vm_compute; reflexivity|].
  intros C.
  assert (E : exists t0 t1 more,
             vtx (block (Scenario.built r)) = t0 :: t1 :: more /\ IsCoinBase t1 = true).
  { vm_compute. eexists _, _, _. split; reflexivity. }
  destruct E as (t0 & t1 & more & E & Hcb).
  rewrite E in C. destruct C as [_ C].
  apply Forall_cons in C as [C1 _]. congruence.
Qed.

(** C1 (amended). In every template the standard builder returns, the
    transaction at index 0 is a coinbase and no transaction after it is
    one. In every template the fork builder returns (from its body or
    through its driver) the transaction at index 0 is a coinbase, and so is
    every transaction after it: these are the synthetic coinbases of the
    snapshot. *)
Theorem coinbase_positions `{Node} :
  (forall spk mapTx coins prev now now' rand T,
      CreateNewBlock spk mapTx coins prev now now' rand = Built T ->
      coinbase_first_only (vtx (block T))) /\
  (forall file pks rand h T log,
      CreateNewForkBlockAt file pks rand h = ForkBuilt T log ->
      vtx (block T) <> [] /\ all_coinbase (vtx (block T))) /\
  (forall files tip obs T log,
      CreateNewForkBlock files tip obs = Returned T log ->
      vtx (block T) <> [] /\ all_coinbase (vtx (block T))).
Proof.
  assert (Hat : forall file pks rand h T log,
             CreateNewForkBlockAt file pks rand h = ForkBuilt T log ->
             vtx (block T) <> [] /\ all_coinbase (vtx (block T))).
  { intros [contents|] pks rand h T log E; [|discriminate].
    apply CreateNewForkBlockAt_built in E as (s_end & E & -> & _). simpl. split.
    - apply fork_dummy_first in E as (more & ->). done.
    - by apply fork_all_coinbase in E. }
  split; [|split; [exact Hat|]].
  - intros spk mapTx coins prev now now' rand T E.
    apply CreateNewBlock_Built in E as (s & I & V & _).
    destruct I as (_ & _ & _ & Hc & Hl & _).
    rewrite V. destruct (sel_vtx s) as [|t0 more] eqn:Sv; [simpl in Hl; lia|].
    simpl. split; [reflexivity|].
    apply Forall_forall. intros tx Htx.
    apply list_elem_of_lookup_1 in Htx as (i & Li).
    apply (Hc (S i) tx); [lia|]. exact Li.
  - intros files tip obs T log E.
    apply CreateNewForkBlock_Returned in E as (h & contents & pks & rand & T0 & _ & E & -> & _).
    eauto.
Qed.

Lemma coinbase_positions_witness :
  let nd := Scenario.node 3 103 in
  let std := @CreateNewBlock nd [x51] Scenario.pool Scenario.chain_coins Scenario.tip
               2000 2001 0 in
  let frk := @CreateNewForkBlockAt nd (Some Scenario.three_records) Scenario.pks64 0 101 in
  coinbase_first_only (vtx (block (Scenario.built_block std))) /\
  length (vtx (block (Scenario.built_block std))) = 4%nat /\
  all_coinbase (vtx (block (Scenario.built frk))).
Proof.
  intros nd std frk.
  destruct (@coinbase_positions nd) as (Hstd & Hat & _).
  split; [|split].
  - apply (Hstd [x51] Scenario.pool Scenario.chain_coins Scenario.tip 2000 2001 0).
    vm_compute. reflexivity.
  - vm_compute. reflexivity.
  - apply (Hat (Some Scenario.three_records) Scenario.pks64 0 101 _ (Scenario.built_log frk)).
    vm_compute. reflexivity.
Defined.

(** C8. In every template the standard builder returns, a transaction at
    index [i >= 1] has each parent that the chain's UTXO view lacks (a
    parent in the pool) at an index [j] with [1 <= j < i]. The loop over
    the mempool puts into the queue only transactions whose parents are all
    in the chain and leaves every orphan with a dependency set that is
    not empty; afterwards a dependent is pushed into the queue only by the
    erasure that empties its set. *)
Theorem parents_before_children `{Node} :
  (forall spk mapTx coins prev now now' rand T,
      CreateNewBlock spk mapTx coins prev now now' rand = Built T ->
      parents_first coins (vtx (block T))) /\
  (forall mapTx coins height cutoff c,
      collect mapTx coins height cutoff mapTx (mkCollect [] ∅ []) = Ok c ->
      collect_inv coins c) /\
  (forall txid ps orph vec orph' vec',
      release_dependers txid ps orph vec = Some (orph', vec') ->
      exists pushed,
        vec' = vec ++ pushed /\
        Forall (fun e => exists p o,
                    p ∈ ps /\ orph !! p = Some (Some o) /\
                    setDependsOn o <> ∅ /\ setDependsOn o ∖ {[txid]} = ∅ /\
                    e = (dPriority o, feeRate o, ptx o)) pushed).
Proof.
  split; [|split].
  - intros spk mapTx coins prev now now' rand T E.
    apply CreateNewBlock_Built in E as (s & I & V & _).
    destruct I as (_ & _ & Hp & _).
    rewrite V. intros i tx txin Li Lk Hin Hf.
    rewrite list_lookup_insert_ne in Lk by lia.
    destruct (Hp i tx txin Li Lk Hin Hf) as (j & parent & Lj & Lkj & G).
    exists j, parent. split; [done|]. split; [|done].
    rewrite list_lookup_insert_ne by lia. done.
  - intros mapTx coins height cutoff c E.
    eapply collect_inv_holds; [exact E|apply collect_inv_init].
  - apply release_dependers_pushes.
Qed.

Lemma parents_before_children_witness :
  let nd := Scenario.node 3 103 in
  let std := @CreateNewBlock nd [x51] Scenario.pool Scenario.chain_coins Scenario.tip
               2000 2001 0 in
  parents_first Scenario.chain_coins (vtx (block (Scenario.built_block std))) /\
  map Scenario.toy_hash (vtx (block (Scenario.built_block std))) = [0; 11; 7; 5].
Proof.
  intros nd std. split.
  - apply (proj1 (@parents_before_children nd)
             [x51] Scenario.pool Scenario.chain_coins Scenario.tip 2000 2001 0).
    vm_compute. reflexivity.
  - vm_compute. reflexivity.
Defined.

End TemplateClaims.

(** * Further properties of the code *)

(** ** The nonce *)

Lemma randomise_nonce_eq (rand : Z) :
  randomise_nonce rand = 2 ^ 16 * ((rand mod 2 ^ 256) mod 2 ^ 224).
Proof.
  unfold randomise_nonce, uint256.
  rewrite Z.shiftl_mul_pow2, Z.shiftr_div_pow2 by lia.
  set (r := rand mod 2 ^ 256).
  change (2 ^ 256) with (2 ^ 224 * 2 ^ 32).
  rewrite Z.mul_mod_distr_r by lia.
  change (2 ^ 32) with (2 ^ 16 * 2 ^ 16).
  rewrite Z.mul_assoc, Z.div_mul by lia. lia.
Qed.

Lemma randomise_nonce_range (rand : Z) : 0 <= randomise_nonce rand < 2 ^ 240.
Proof.
  rewrite randomise_nonce_eq.
  pose proof (Z.mod_pos_bound (rand mod 2 ^ 256) (2 ^ 224) ltac:(lia)). lia.
Qed.


(** From a fresh template the search loop steps through the nonces
    [n, n + 1, ..., n + 65535] without wrapping, and the test on the low
    16 bits stops it at the last of them and at no earlier one: a template
    is searched for 65536 nonces at most. *)
Theorem nonce_search_space (rand : Z) (i : nat) :
  Z.of_nat i <= 65535 ->
  Nat.iter i nonce_next (randomise_nonce rand) = randomise_nonce rand + Z.of_nat i /\
  (nonce_low16_full (Nat.iter i nonce_next (randomise_nonce rand)) = true <->
   Z.of_nat i = 65535).
Proof.
  intros Hi.
  pose proof (randomise_nonce_range rand) as R.
  pose proof (randomise_nonce_eq rand) as E.
  set (n0 := randomise_nonce rand) in *.
  set (m := (rand mod 2 ^ 256) mod 2 ^ 224) in *.
  assert (It : forall k, Z.of_nat k <= 65535 -> Nat.iter k nonce_next n0 = n0 + Z.of_nat k).
  { induction k as [|k IH]; intros Hk; [simpl; lia|].
    rewrite Nat.iter_succ, IH by lia. unfold nonce_next, uint256.
    rewrite Z.mod_small; lia. }
  split; [by apply It|].
  rewrite It by done. unfold nonce_low16_full.
  change 0xffff with (Z.ones 16) at 1. rewrite Z.land_ones by lia.
  rewrite E, Z.add_comm, Z.mul_comm, Z.mod_add by lia.
  rewrite Z.mod_small by lia.
  split; [intros ?%Z.eqb_eq; lia|intros ->; reflexivity].
Qed.


Lemma nonce_search_space_witness :
  nonce_low16_full (Nat.iter 3 nonce_next (randomise_nonce 12345)) = true <->
  Z.of_nat 3 = 65535.
Proof.
  apply (proj2 (nonce_search_space 12345 3 ltac:(simpl; lia))).
Defined.

(** ** The fork builder: what its counters and lists hold *)

Module ForkAccounts.
Import Fork ForkFacts ForkShapes ForkTemplates.

Section Accounts.
Context `{Node}.

Lemma same_block_refl s : same_block s s.
Proof. by repeat split. Qed.

Lemma same_block_log s s' e : same_block s s' -> same_block s (LogPrintf e s').
Proof. intros S. exact S. Qed.

Lemma same_block_stream s s' f : same_block s s' -> same_block s (with_stream f s').
Proof. intros S. exact S. Qed.

Lemma pushed_log tx a s s' e : pushed tx a s s' -> pushed tx a s (LogPrintf e s').
Proof. intros P. exact P. Qed.

Lemma pushed_stream tx a s s' f : pushed tx a s s' -> pushed tx a s (with_stream f s').
Proof. intros P. exact P. Qed.

Lemma pushed_from tx a s0 s s' : same_block s0 s -> pushed tx a s s' -> pushed tx a s0 s'.
Proof.
  intros (S1 & S2 & S3 & S4 & S5 & S6 & S7) (P1 & P2 & P3).
  unfold pushed. rewrite S5 in P1. rewrite S7 in P2.
  split; [exact P1|]. split; [exact P2|].
  destruct P3 as (Q1 & Q2 & Q3 & Q4 & Q5 & Q6 & Q7). simpl in *.
  unfold same_block; simpl.
  rewrite Q1, Q2, Q3, Q4, Q5, Q6, Q7, S1, S2, S3, S4, S5, S6, S7. done.
Qed.

Lemma fork_try_push_pushed tx a s s' : fork_try_push tx a s = inl s' -> pushed tx a s s'.
Proof.
  unfold fork_try_push. intros E.
  destruct (Z.geb_spec (uint64 (nBlockSize s + uint32 (GetSerializeSize tx)))
              fork_nBlockMaxSize); [discriminate|].
  destruct (Z.geb_spec (uint64 (nBlockSigOps s + uint32 (GetLegacySigOpCount tx)))
              MAX_BLOCK_SIGOPS); [discriminate|].
  injection E as <-. split; [lia|]. split; [lia|]. apply same_block_refl.
Qed.

Lemma fork_try_push_stops tx a s s' :
  fork_try_push tx a s = inr s' ->
  same_block s s' /\ exists e, fk_log s' = fk_log s ++ [e] /\ shielded_stop e = true.
Proof.
  intros E. apply fork_try_push_inr in E as (e & -> & [-> | ->]);
    (split; [apply same_block_log, same_block_refl|]); eexists; simpl; done.
Qed.

Create HintDb accounts.
#[local] Hint Resolve same_block_refl same_block_log same_block_stream
  pushed_log pushed_stream : accounts.

(** One turn of the transparent loop leaves the template as it is or
    pushes one coinbase that passed both limits. *)
Lemma transparent_body_step h s :
  match transparent_body h s with
  | Next s' | Break s' =>
      same_block s s' \/
      exists a script, pushed (transparent_coinbase h (nBlockTx s) a script) a s s'
  | _ => True
  end.
Proof.
  unfold transparent_body.
  destruct (read (if_utxo s) 8) as [[coin|] f1] eqn:R1;
    [|cbv zeta; destruct (negb _ || negb _); simpl; left; auto with accounts].
  destruct (read f1 8) as [[sz|] f2] eqn:R2; [|simpl; left; auto with accounts].
  destruct (int32 (bytes2uint64 sz) <? 0); [exact I|].
  set (s0 := if int32 (bytes2uint64 sz) =? 0 then LogPrintf ErrPubKeySizeZero s else s).
  assert (U0 : same_block s s0 /\ nBlockTx s0 = nBlockTx s).
  { subst s0. case_match; (split; [auto with accounts|reflexivity]). }
  destruct U0 as [U0 U4].
  destruct (read f2 _) as [[pks|] f3] eqn:R3;
    [|simpl; left; auto with accounts].
  simpl. rewrite U4.
  destruct (fork_try_push _ _ _) as [s1|s1] eqn:F.
  - apply fork_try_push_pushed in F.
    assert (P : pushed (transparent_coinbase h (nBlockTx s) (bytes2uint64 coin) pks)
                  (bytes2uint64 coin) s s1).
    { eapply pushed_from; [|exact F]. exact U0. }
    destruct (read (if_utxo s1) 1) as [[[|t [|]]|] f4]; simpl;
      try destruct (Byte.eqb t x0a); simpl; right;
      exists (bytes2uint64 coin), pks; exact P.
  - apply fork_try_push_stops in F as [F _]. left.
    destruct U0 as (? & ? & ? & ? & ? & ? & ?), F as (? & ? & ? & ? & ? & ? & ?).
    simpl in *. unfold same_block. repeat split; congruence.
Qed.

(** One turn of the shielded loop: it goes on after a push, without a
    message and with a stream that has not met the end of the file; it
    stops with one message and the template as it was. *)
Lemma shielded_body_step s :
  eofbit (if_utxo s) = false ->
  match shielded_body s with
  | Next s' =>
      eofbit (if_utxo s') = false /\ fk_log s' = fk_log s /\
      exists raw d, decoderawtransaction2 raw = Some d /\
                    pushed (shielded_coinbase d) 0 s s'
  | Break s' =>
      same_block s s' /\ exists e, fk_log s' = fk_log s ++ [e] /\ shielded_stop e = true
  | _ => True
  end.
Proof.
  unfold shielded_body. intros ->.
  destruct (read (if_utxo s) 32) as [[sz|] f1] eqn:R1;
    [|split; [auto with accounts|eexists; simpl; done]].
  destruct (strtol2 sz) as [parsed|]; [|exact I].
  destruct (int32 parsed =? 0); [split; [auto with accounts|eexists; simpl; done]|].
  destruct (int32 parsed <? 0); [exact I|].
  simpl.
  destruct (read f1 _) as [[raw|] f2] eqn:R2;
    [|split; [auto with accounts|eexists; simpl; done]].
  destruct (decoderawtransaction2 raw) as [d|] eqn:D; [|exact I].
  apply read_Some in R2 as (_ & _ & _ & [G2 _]).
  destruct (fork_try_push _ _ _) as [s1|s1] eqn:P.
  - pose proof (fork_try_push_inl _ _ _ _ P) as ->.
    apply fork_try_push_pushed in P.
    split; [exact G2|]. split; [reflexivity|]. eexists _, _. split; [exact D|].
    exact P.
  - apply fork_try_push_stops in P as [S (e & L & Se)].
    split; [exact S|]. exists e. split; [exact L|exact Se].
Qed.

(** An invariant of the template and the counters holds after either
    loop. *)
Lemma fork_loops_steps (I : ForkState -> Prop) contents pks h s_end :
  (forall s s', I s -> same_block s s' -> I s') ->
  (forall s s' tx a, I s -> pushed tx a s s' -> I s') ->
  I (fork_init h pks contents) ->
  fork_loops contents pks h = Done s_end -> I s_end.
Proof.
  intros Hsame Hpush. unfold fork_loops.
  generalize (S (length contents)) as fuel.
  generalize (fork_init h pks contents) as s.
  intros s fuel A. destruct (h =? ZUtxoMiningStartBlock).
  - revert s A. induction fuel as [|fuel IH]; intros s A E; [discriminate|].
    simpl in E. destruct (eofbit (if_utxo s)) eqn:Eof.
    + unfold shielded_body in E. rewrite Eof in E. by injection E as <-.
    + pose proof (shielded_body_step s Eof) as B.
      destruct (shielded_body s) as [s1|s1| |]; try discriminate.
      * destruct B as (_ & _ & raw & d & _ & P).
        apply (IH s1); [|exact E]. eapply Hpush; eauto.
      * injection E as <-. destruct B as [B _]. eapply Hsame; eauto.
  - revert s A. induction fuel as [|fuel IH]; intros s A E; [discriminate|].
    simpl in E. destruct (_ && _); [|by injection E as <-].
    pose proof (transparent_body_step h s) as B.
    destruct (transparent_body h s) as [s1|s1| |]; try discriminate.
    + apply (IH s1); [|exact E].
      destruct B as [B|(a & script & P)]; [eapply Hsame|eapply Hpush]; eauto.
    + injection E as <-.
      destruct B as [B|(a & script & P)]; [eapply Hsame|eapply Hpush]; eauto.
Qed.

Lemma fork_loops_lists contents pks h s_end :
  fork_loops contents pks h = Done s_end -> fork_lists s_end.
Proof.
  apply (fork_loops_steps fork_lists).
  - intros s s' A (S1 & S2 & S3 & _). unfold fork_lists. rewrite S1, S2, S3. exact A.
  - intros s s' tx a (A1 & A2 & A3) (_ & _ & Q1 & Q2 & Q3 & _). simpl in *.
    unfold fork_lists. rewrite Q1, Q2, Q3.
    destruct (fk_vtx s) as [|cb more]; [done|]. simpl in *.
    unfold tx_legacy_sigops in *. rewrite map_app, length_app, repeat_app. simpl.
    split; [done|]. split; [by rewrite A2|by rewrite A3].
  - unfold fork_lists, fork_init, tx_legacy_sigops; simpl. split; [discriminate|done].
Qed.

(** The counters follow the template through either loop. *)
Lemma fork_accounts_init h pks contents : fork_accounts (fork_init h pks contents).
Proof.
  unfold fork_accounts, fork_init, sum_Z, tx_sizes, tx_legacy_sigops; simpl.
  repeat split; auto; discriminate.
Qed.

Lemma fork_accounts_same s s' : fork_accounts s -> same_block s s' -> fork_accounts s'.
Proof.
  intros A (S1 & S2 & S3 & S4 & S5 & S6 & S7). unfold fork_accounts.
  rewrite S1, S2, S3, S5, S6, S7. exact A.
Qed.

Lemma sum_Z_app l1 l2 : sum_Z (l1 ++ l2) = sum_Z l1 + sum_Z l2.
Proof. unfold sum_Z. induction l1; simpl; lia. Qed.

Lemma sum_Z_uint32_nonneg (f : CTransaction -> Z) l :
  0 <= sum_Z (map (fun tx => uint32 (f tx)) l).
Proof.
  unfold sum_Z. induction l as [|x l IH]; simpl; [lia|].
  pose proof (Z.mod_pos_bound (f x) (2 ^ 32) ltac:(lia)). unfold uint32 in *. lia.
Qed.

Lemma fork_accounts_pushed tx a s s' :
  MAX_BLOCK_SIGOPS <= 2 ^ 32 ->
  fork_accounts s -> pushed tx a s s' -> fork_accounts s'.
Proof.
  intros Hmax (A1 & A2 & A3 & A4 & A5 & A6 & A7 & A8) (P1 & P2 & P3).
  destruct P3 as (Q1 & Q2 & Q3 & Q4 & Q5 & Q6 & Q7). simpl in *.
  destruct (fk_vtx s) as [|cb more] eqn:V; [done|]. simpl in *.
  assert (B : 0 <= uint32 (GetSerializeSize tx) < 2 ^ 32)
    by (apply Z.mod_pos_bound; lia).
  assert (C : 0 <= uint32 (GetLegacySigOpCount tx) < 2 ^ 32)
    by (apply Z.mod_pos_bound; lia).
  pose proof (sum_Z_uint32_nonneg GetSerializeSize more) as N1.
  pose proof (sum_Z_uint32_nonneg GetLegacySigOpCount more) as N2.
  fold (tx_sizes more) in N1. fold (tx_legacy_sigops more) in N2.
  assert (M : fork_nBlockMaxSize < 2 ^ 32).
  { unfold fork_nBlockMaxSize, uint32. apply Z.mod_pos_bound. lia. }
  assert (S1 : uint64 (nBlockSize s + uint32 (GetSerializeSize tx)) =
               nBlockSize s + uint32 (GetSerializeSize tx)).
  { unfold uint64. apply Z.mod_small.
    destruct A6 as [->|A6]; simpl in *; unfold sum_Z in *; simpl in *; lia. }
  assert (S2 : uint64 (nBlockSigOps s + uint32 (GetLegacySigOpCount tx)) =
               nBlockSigOps s + uint32 (GetLegacySigOpCount tx)).
  { unfold uint64. apply Z.mod_small.
    destruct A8 as [->|A8]; simpl in *; unfold sum_Z in *; simpl in *; lia. }
  unfold fork_accounts. rewrite Q1, Q2, Q3, Q5, Q6, Q7. simpl.
  unfold tx_legacy_sigops, tx_sizes in *.
  rewrite !map_app, !sum_Z_app, length_app, repeat_app. simpl.
  split; [done|]. split; [by rewrite A2|]. split; [by rewrite A3|].
  split.
  { rewrite A4. unfold uint64. rewrite Zplus_mod_idemp_l. f_equal. lia. }
  split; [rewrite S1, A5; unfold sum_Z; simpl; lia|].
  split; [right; lia|].
  split; [rewrite S2, A7; unfold sum_Z; simpl; lia|].
  right. lia.
Qed.

Lemma fork_loops_accounts contents pks h s_end :
  MAX_BLOCK_SIGOPS <= 2 ^ 32 ->
  fork_loops contents pks h = Done s_end -> fork_accounts s_end.
Proof.
  intros Hmax. apply (fork_loops_steps fork_accounts).
  - apply fork_accounts_same.
  - intros s s' tx a A P. eapply fork_accounts_pushed; eauto.
  - apply fork_accounts_init.
Qed.

End Accounts.

(** In a fork template the three lists run in parallel: the entries of
    the dummy coinbase stay [-1], and entry [i > 0] of [vTxSigOps] is the
    legacy sig-op count of transaction [i]. *)
Theorem fork_lists_parallel `{Node} (file : option (list byte)) (pks : list byte)
    (rand h : Z) (T : CBlockTemplate) (log : list LogEvent) :
  CreateNewForkBlockAt file pks rand h = ForkBuilt T log ->
  length (vTxFees T) = length (vtx (block T)) /\
  length (vTxSigOps T) = length (vtx (block T)) /\
  vTxSigOps T = -1 :: tx_legacy_sigops (tail (vtx (block T))).
Proof.
  intros E. destruct file as [contents|]; [|discriminate].
  apply CreateNewForkBlockAt_built in E as (s_end & E & -> & _).
  apply (fork_loops_lists contents pks h s_end) in E as (A1 & A2 & A3). simpl.
  rewrite A2, A3. unfold tx_legacy_sigops. simpl.
  rewrite length_map, repeat_length.
  destruct (fk_vtx s_end); [done|]. done.
Qed.

Lemma fork_lists_parallel_witness :
  let nd := Scenario.node 3 103 in
  let r := @CreateNewForkBlockAt nd (Some Scenario.three_records) Scenario.pks64 0 101 in
  length (vtx (block (Scenario.built r))) = 4%nat /\
  length (vTxFees (Scenario.built r)) = length (vtx (block (Scenario.built r))) /\
  length (vTxSigOps (Scenario.built r)) = length (vtx (block (Scenario.built r))) /\
  vTxSigOps (Scenario.built r) =
    -1 :: @tx_legacy_sigops nd (tail (vtx (block (Scenario.built r)))).
Proof.
  intros nd r. split; [vm_compute; reflexivity|].
  apply (@fork_lists_parallel nd (Some Scenario.three_records) Scenario.pks64 0 101
           (Scenario.built r) (Scenario.built_log r)).
  vm_compute. reflexivity.
Defined.

(** The size and sig-op limits of the fork builder hold of the template
    it returns: 1000 bytes and 100 sig-ops of reserve, plus what the
    transactions read from the snapshot take, stay below
    [MAX_BLOCK_SIZE - 1000] and [MAX_BLOCK_SIGOPS]; no counter wraps. *)
Theorem fork_template_within_limits `{Node} (file : option (list byte)) (pks : list byte)
    (rand h : Z) (T : CBlockTemplate) (log : list LogEvent) :
  MAX_BLOCK_SIGOPS <= 2 ^ 32 ->
  CreateNewForkBlockAt file pks rand h = ForkBuilt T log ->
  (1 < length (vtx (block T)))%nat ->
  1000 + sum_Z (tx_sizes (tail (vtx (block T)))) < uint32 (MAX_BLOCK_SIZE - 1000) /\
  100 + sum_Z (tx_legacy_sigops (tail (vtx (block T)))) < MAX_BLOCK_SIGOPS.
Proof.
  intros Hmax E L. destruct file as [contents|]; [|discriminate].
  apply CreateNewForkBlockAt_built in E as (s_end & E & -> & _).
  apply (fork_loops_accounts contents pks h s_end Hmax) in E
    as (A1 & _ & _ & _ & A5 & A6 & A7 & A8). simpl in *.
  destruct (fk_vtx s_end) as [|cb [|t more]]; simpl in *; try lia.
  destruct A6 as [|A6]; [discriminate|]. destruct A8 as [|A8]; [discriminate|].
  unfold fork_nBlockMaxSize in A6. rewrite <- A5, <- A7. done.
Qed.

Lemma fork_template_within_limits_witness :
  let nd := Scenario.node 3 103 in
  let r := @CreateNewForkBlockAt nd (Some Scenario.three_records) Scenario.pks64 0 101 in
  @tx_sizes nd (tail (vtx (block (Scenario.built r)))) = [98; 67; 65] /\
  1000 + sum_Z (@tx_sizes nd (tail (vtx (block (Scenario.built r))))) < 1999000 /\
  100 + sum_Z (@tx_legacy_sigops nd (tail (vtx (block (Scenario.built r))))) < 20000.
Proof.
  intros nd r. split; [vm_compute; reflexivity|].
  apply (@fork_template_within_limits nd (Some Scenario.three_records) Scenario.pks64
           0 101 (Scenario.built r) (Scenario.built_log r)).
  - vm_compute. discriminate.
  - vm_compute. reflexivity.
  - vm_compute. lia.
Defined.

End ForkAccounts.

(** ** The fork builder: how the reading of a snapshot ends *)

Module ForkEdges.
Import Fork ForkFacts ForkShapes ForkTemplates ForkAccounts.

Lemma shielded_loop_logs `{Node} (fuel : nat) : forall s s_end,
  eofbit (if_utxo s) = false ->
  shielded_loop fuel s = Done s_end ->
  exists e, fk_log s_end = fk_log s ++ [e] /\ shielded_stop e = true.
Proof.
  induction fuel as [|fuel IH]; intros s s_end Eof E; [discriminate|].
  simpl in E. pose proof (shielded_body_step s Eof) as B.
  destruct (shielded_body s) as [s1|s1| |]; try discriminate.
  - destruct B as (Eof1 & L & _).
    destruct (IH s1 s_end Eof1 E) as (e & L' & Se).
    exists e. by rewrite L', L.
  - injection E as <-. exact (proj2 B).
Qed.

(** The loop over a shielded snapshot has no silent end: its test of
    [eof()] never fires, since the flag is set by a read that fails and a
    failed read leaves the loop with a message. Every template made from a
    shielded snapshot, a well-formed one too, comes with exactly one
    ERROR line in the log. *)
Theorem shielded_reading_always_logs `{Node} (file : option (list byte))
    (pks : list byte) (rand : Z) (T : CBlockTemplate) (log : list LogEvent) :
  CreateNewForkBlockAt file pks rand ZUtxoMiningStartBlock = ForkBuilt T log ->
  exists e, log = [e] /\ shielded_stop e = true.
Proof.
  intros E. destruct file as [contents|]; [|discriminate].
  apply CreateNewForkBlockAt_built in E as (s_end & E & _ & ->).
  rewrite Z.eqb_refl in E.
  apply shielded_loop_logs in E; [|reflexivity]. exact E.
Qed.

Lemma shielded_reading_always_logs_witness :
  let nd := Scenario.node 1 103 in
  let r := @CreateNewForkBlockAt nd (Some Scenario.two_shielded_records)
             Scenario.pks64 0 103 in
  length (vtx (block (Scenario.built r))) = 3%nat /\
  exists e, Scenario.built_log r = [e] /\ shielded_stop e = true.
Proof.
  intros nd r. split; [vm_compute; reflexivity|].
  apply (@shielded_reading_always_logs nd (Some Scenario.two_shielded_records)
           Scenario.pks64 0 (Scenario.built r) (Scenario.built_log r)).
  vm_compute. reflexivity.
Defined.

Lemma strtol2_digits_all_binary (l : list byte) : forall acc,
  all_binary l = true -> strtol2_digits acc l = None.
Proof.
  induction l as [|b l IH]; intros acc A; [reflexivity|].
  simpl in *. apply andb_true_iff in A as [A1 A2].
  destruct (Byte.eqb b x30); [by apply IH|].
  simpl in A1. rewrite A1. by apply IH.
Qed.

Lemma strtol2_all_binary (l : list byte) : all_binary l = true -> strtol2 l = None.
Proof.
  destruct l as [|b l]; [reflexivity|]. intros A.
  pose proof (strtol2_digits_all_binary (b :: l) 0 A) as D.
  simpl in A. apply andb_true_iff in A as [A1 _].
  apply orb_true_iff in A1 as [A1|A1]; apply Byte.byte_dec_bl in A1; subst b;
    exact D.
Qed.

(** The size field of a shielded record is handed to [strtol] as it was
    read, 32 bytes without a terminator: when all 32 are binary digits the
    scan leaves the buffer, and nothing can be said of the call. *)
Theorem shielded_size_field_overrun `{Node} (field after pks : list byte) (rand : Z) :
  length field = 32%nat ->
  all_binary field = true ->
  CreateNewForkBlockAt (Some (field ++ after)) pks rand ZUtxoMiningStartBlock =
  ForkUndefined.
Proof.
  intros L A. unfold CreateNewForkBlockAt. rewrite Z.eqb_refl.
  cbn [shielded_loop]. unfold shielded_body. cbn [fork_init if_utxo ifstream_open eofbit].
  rewrite (read_app _ 32 field after); [|done|reflexivity|exact L].
  by rewrite (strtol2_all_binary field A).
Qed.

Lemma shielded_size_field_overrun_witness :
  @CreateNewForkBlockAt (Scenario.node 1 103)
    (Some (repeat x31 32 ++ [x01])) Scenario.pks64 0 103 = ForkUndefined.
Proof.
  apply (@shielded_size_field_overrun (Scenario.node 1 103) (repeat x31 32) [x01]
           Scenario.pks64 0); reflexivity.
Defined.

(** A transparent record whose script length, cut to an [int], is
    negative makes [new char[pbsize]] throw: no template is returned and
    nothing is logged. *)
Theorem transparent_negative_length_throws `{Node} (coin sz after pks : list byte)
    (rand h : Z) :
  h <> ZUtxoMiningStartBlock ->
  0 < forkCBPerBlock ->
  length coin = 8%nat -> length sz = 8%nat ->
  int32 (bytes2uint64 sz) < 0 ->
  CreateNewForkBlockAt (Some (coin ++ sz ++ after)) pks rand h = ForkRaised.
Proof.
  intros Hh Hcap Lc Ls Neg. unfold CreateNewForkBlockAt.
  apply Z.eqb_neq in Hh. rewrite Hh.
  cbn [transparent_loop]. cbn [fork_init if_utxo ifstream_open stream_ok failbit nBlockTx negb andb].
  apply Z.ltb_lt in Hcap. rewrite Hcap.
  unfold transparent_body. cbn [fork_init if_utxo ifstream_open].
  rewrite (read_app _ 8 coin (sz ++ after)); [|done|reflexivity|exact Lc].
  rewrite (read_app _ 8 sz after); [|done|reflexivity|exact Ls].
  apply Z.ltb_lt in Neg. by rewrite Neg.
Qed.

Lemma transparent_negative_length_throws_witness :
  @CreateNewForkBlockAt (Scenario.node 3 103)
    (Some (Scenario.le8 5 ++ Scenario.le8 (2 ^ 31) ++ [x51; x0a]))
    Scenario.pks64 0 101 = ForkRaised.
Proof.
  apply (@transparent_negative_length_throws (Scenario.node 3 103)
           (Scenario.le8 5) (Scenario.le8 (2 ^ 31)) [x51; x0a] Scenario.pks64 0 101).
  - vm_compute. discriminate.
  - vm_compute. reflexivity.
  - reflexivity.
  - reflexivity.
  - vm_compute. reflexivity.
Defined.

End ForkEdges.

(** ** The fork driver *)

Module ForkDriver.
Import Fork ForkFacts ForkShapes.

Lemma driver_loop_returned `{Node} (files : Z -> option (list byte))
    (obs : list Observation) : forall th T log,
  CreateNewForkBlock_loop files obs th = Returned T log ->
  exists o T0,
    first_stable obs th = Some o /\
    CreateNewForkBlockAt (files (nHeight (ob_tip o) + 1)) (ob_pks o) (ob_rand o)
      (nHeight (ob_tip o) + 1) = ForkBuilt T0 log /\
    fork_finalise T0 log (ob_tip o) (ob_now o) = Returned T log.
Proof.
  induction obs as [|o obs IH]; intros th T log E; [discriminate|].
  simpl in E. simpl.
  destruct (Z.eqb_spec (nHeight (ob_tip o)) th) as [Eq|Ne].
  - subst th. destruct (CreateNewForkBlockAt _ _ _ _) as [| | | |T0 log0] eqn:B;
      simpl in E; try discriminate.
    exists o, T0. split; [reflexivity|].
    assert (log0 = log) as ->.
    { by apply fork_finalise_Returned in E as (_ & _ & _ & ->). }
    split; [exact B|exact E].
  - destruct (CreateNewForkBlockAt _ _ _ _); simpl in E; try discriminate;
      apply IH in E; exact E.
Qed.

(** A template the driver returns is bound to one tip: the tip the turn
    found unchanged. The snapshot read is that of the height after this
    tip; the header names the tip's hash, takes its time, target and
    version from it, carries the fork sentinel, a nonce with 16 clear bits
    at either end and no solution; the Merkle root is left unset; and the
    block has passed [TestBlockValidity]. *)
Theorem fork_driver_binds_header `{Node} (files : Z -> option (list byte))
    (tip : CBlockIndex) (obs : list Observation) (T : CBlockTemplate)
    (log : list LogEvent) :
  CreateNewForkBlock files tip obs = Returned T log ->
  exists o T0 b,
    first_stable obs (nHeight tip) = Some o /\
    CreateNewForkBlockAt (files (nHeight (ob_tip o) + 1)) (ob_pks o) (ob_rand o)
      (nHeight (ob_tip o) + 1) = ForkBuilt T0 log /\
    vtx (block T) = vtx (block T0) /\
    hashPrevBlock (block T) = GetBlockHash (ob_tip o) /\
    nTime (block T) = uint32 (Z.max (GetMedianTimePast (ob_tip o) + 1) (ob_now o)) /\
    nVersion (block T) = ComputeBlockVersion (ob_tip o) GetConsensus /\
    nBits (block T) = GetNextWorkRequired (ob_tip o) b GetConsensus /\
    nTime b = nTime (block T) /\ hashPrevBlock b = hashPrevBlock (block T) /\
    hashReserved (block T) = forkExtraHashSentinel /\
    nNonce (block T) = randomise_nonce (ob_rand o) /\
    nSolution (block T) = [] /\
    hashMerkleRoot (block T) = 0 /\
    TestBlockValidity (block T) (ob_tip o) (Some true) = true.
Proof.
  intros E. apply driver_loop_returned in E as (o & T0 & St & B & F).
  destruct (files (nHeight (ob_tip o) + 1)) as [contents|] eqn:Fi; [|discriminate].
  pose proof (CreateNewForkBlockAt_built _ _ _ _ _ _ B) as (s_end & _ & -> & _).
  unfold fork_finalise in F.
  destruct (TestBlockValidity _ _ _) eqn:V; [|discriminate].
  injection F as <-.
  unfold UpdateTime in *.
  destruct (fPowAllowMinDifficultyBlocks GetConsensus); simpl in *;
    (eexists o, _, _; split; [exact St|]; split; [rewrite Fi; exact B|];
     repeat (split; [reflexivity|]); exact V).
Qed.

Lemma fork_driver_binds_header_witness :
  let nd := Scenario.node 3 103 in
  let moved := mkObs (mkIndex 101 8 1010) 2000 0 Scenario.pks64 in
  let r := @CreateNewForkBlock nd
             (fun h => if h =? 102 then Some Scenario.three_records else None)
             (mkIndex 100 7 1000) [moved; moved] in
  match r with
  | Returned T _ =>
      hashPrevBlock (block T) = 8 /\ nTime (block T) = 2000 /\
      length (vtx (block T)) = 4%nat
  | _ => False
  end.
Proof.
  intros nd moved r.
  destruct r as [T log| | | | |] eqn:E; try (vm_compute in E; discriminate).
  destruct (@fork_driver_binds_header nd _ _ _ T log E)
    as (o & T0 & b & St & B & V & P & Ti & _).
  vm_compute in St. injection St as <-.
  split; [exact P|]. split; [exact Ti|].
  rewrite V. vm_compute in B. injection B as <- _. reflexivity.
Defined.

(** When no snapshot file can be opened the driver never returns: the
    builder hands it NULL, and once the tip is found unchanged the driver
    writes the header of that NULL template. The caller's test for NULL
    with [bFileNotFound] set is never reached. *)
Theorem fork_driver_missing_file `{Node} (files : Z -> option (list byte))
    (tip : CBlockIndex) (obs : list Observation) :
  (forall h, files h = None) ->
  CreateNewForkBlock files tip obs =
  match first_stable obs (nHeight tip) with
  | Some _ => NullDereference
  | None => Starved
  end.
Proof.
  intros Hf. unfold CreateNewForkBlock. generalize (nHeight tip) as th.
  induction obs as [|o obs IH]; intros th; [reflexivity|].
  simpl. rewrite Hf. simpl.
  destruct (nHeight (ob_tip o) =? th); simpl; [reflexivity|apply IH].
Qed.

Lemma fork_driver_missing_file_witness :
  @CreateNewForkBlock (Scenario.node 3 103) (fun _ => None) (mkIndex 100 7 1000)
    [mkObs (mkIndex 101 8 1010) 2000 0 Scenario.pks64;
     mkObs (mkIndex 101 8 1010) 2001 0 Scenario.pks64] = NullDereference.
Proof.
  apply (@fork_driver_missing_file (Scenario.node 3 103) (fun _ => None)
           (mkIndex 100 7 1000)
           [mkObs (mkIndex 101 8 1010) 2000 0 Scenario.pks64;
            mkObs (mkIndex 101 8 1010) 2001 0 Scenario.pks64]).
  intros h. reflexivity.
Defined.

End ForkDriver.

(** ** The standard builder: what the selection loop puts in the block *)

Module StandardLedger.
Import Standard ForkFacts StandardFacts.

Section Ledger.
Context `{Node}.

(** The three stages of [CreateNewBlock]. *)
Lemma CreateNewBlock_stages spk mapTx coins prev now now' rand T :
  CreateNewBlock spk mapTx coins prev now now' rand = Built T ->
  exists c s version fuel m2 m3 b,
    collect mapTx coins (nHeight prev + 1) (lock_time_cutoff prev now) mapTx
      (mkCollect [] ∅ []) = Ok c /\
    select_loop fuel (mapDependers c) (nHeight prev + 1) block_max_size m2 m3
      (mkSelect (vecPriority c) (vOrphan c) coins
         [CTransaction_default] [-1] [-1] 1000 0 100 0 b) = Some (Some s) /\
    finish_block spk prev (nHeight prev + 1) version now' rand s = Built T.
Proof.
  unfold CreateNewBlock, block_max_size, lock_time_cutoff. intros E.
  destruct (collect _ _ _ _ _ _) as [c| |] eqn:C; try discriminate.
  destruct (select_loop _ _ _ _ _ _ _) as [[s|]|] eqn:L; try discriminate.
  eexists c, s, _, _, _, _, _. split; [reflexivity|]. split; [exact L|exact E].
Qed.

(** What [finish_block] writes. *)
Lemma finish_block_lists spk prev height version now rand s T :
  finish_block spk prev height version now rand s = Built T ->
  vtx (block T) = <[0%nat := miner_coinbase spk height (nFees s)]> (sel_vtx s) /\
  vTxFees T = <[0%nat := int64 (- nFees s)]> (sel_vTxFees s) /\
  vTxSigOps T =
    match <[0%nat := miner_coinbase spk height (nFees s)]> (sel_vtx s) with
    | tx0 :: _ => <[0%nat := GetLegacySigOpCount tx0]> (sel_vTxSigOps s)
    | [] => sel_vTxSigOps s
    end.
Proof.
  unfold finish_block. case_match; [|discriminate]. intros [= <-]. simpl.
  rewrite UpdateTime_vtx. simpl. done.
Qed.

(** *** One turn of the selection loop *)

Lemma release_dependers_sourced (P : CTransaction -> Prop) txid ps :
  forall orph vec orph' vec',
    release_dependers txid ps orph vec = Some (orph', vec') ->
    sourced P vec orph -> sourced P vec' orph'.
Proof.
  induction ps as [|p ps IH]; intros orph vec orph' vec' E S; simpl in E.
  { by injection E as <- <-. }
  destruct (orph !! p) as [[o|]|] eqn:Lp; try discriminate.
  destruct (bool_decide (setDependsOn o = ∅)) eqn:Em; simpl in E.
  { eapply IH; eauto. }
  destruct S as [Sq So].
  assert (So' : forall q o', <[p := Some (orphan_erase_dep txid o)]> orph !! q = Some (Some o') ->
                             P (ptx o')).
  { intros q o' Lq. destruct (decide (q = p)) as [->|Nq].
    - rewrite list_lookup_insert_eq in Lq by (by eapply lookup_lt_Some).
      injection Lq as <-. simpl. eauto.
    - rewrite list_lookup_insert_ne in Lq by done. eauto. }
  destruct (bool_decide (setDependsOn o ∖ {[txid]} = ∅)) eqn:Em'.
  - eapply IH; [exact E|]. split; [|exact So'].
    intros e [He| ->%list_elem_of_singleton]%elem_of_app; [eauto|].
    simpl. eauto.
  - eapply IH; [exact E|]. split; [exact Sq|exact So'].
Qed.

(** A turn leaves the block as it is, or adds the transaction taken off
    the queue after every test has passed. *)
Lemma select_tx_step (P : CTransaction -> Prop) deps height m1 m2 m3 front q s s' :
  select_tx deps height m1 m2 m3 front (with_queue q s) = Some s' ->
  sourced P q (orphans s) ->
  sourced P (queue s') (orphans s') /\
  (block_part s' = block_part s \/ added height m1 front.2 s s').
Proof.
  unfold select_tx. intros E S.
  destruct (Z.geb_spec (uint64 (nBlockSize (with_queue q s) +
                                uint32 (GetSerializeSize front.2))) m1) as [|Size];
    [injection E as <-; by split; [|left]|].
  destruct (_ >=? MAX_BLOCK_SIGOPS); [injection E as <-; by split; [|left]|].
  destruct (ApplyDeltas _ _ _) as [dPd nFd].
  destruct (_ && _ && _ && _ && _); [injection E as <-; by split; [|left]|].
  set (s1 := if _ && _ then with_fSortedByFee true (with_queue q s) else with_queue q s) in E.
  assert (I2 : queue s1 = q /\ orphans s1 = orphans s /\ block_part s1 = block_part s).
  { subst s1. destruct (_ && _); simpl; auto. }
  clearbody s1. destruct I2 as (Q1 & O1 & B1).
  destruct (HaveInputs (view s1) front.2) eqn:HI; simpl in E;
    [|injection E as <-; rewrite Q1, O1; by split; [|left]].
  destruct (_ >=? MAX_BLOCK_SIGOPS);
    [injection E as <-; rewrite Q1, O1; by split; [|left]|].
  destruct (ContextualCheckInputs front.2 (view s1)) eqn:CI; simpl in E;
    [|injection E as <-; rewrite Q1, O1; by split; [|left]].
  assert (A : forall s2,
             block_part s2 =
               (sel_vtx s1 ++ [front.2],
                sel_vTxFees s1 ++ [int64 (GetValueIn (view s1) front.2 - GetValueOut front.2)],
                sel_vTxSigOps s1 ++
                  [uint32 (uint32 (GetLegacySigOpCount front.2) +
                           GetP2SHSigOpCount front.2 (view s1))],
                UpdateCoins front.2 (view s1) height,
                uint64 (nBlockSize s1 + uint32 (GetSerializeSize front.2)),
                uint64 (nBlockTx s1 + 1),
                int32 (nBlockSigOps s1 +
                       uint32 (uint32 (GetLegacySigOpCount front.2) +
                               GetP2SHSigOpCount front.2 (view s1))),
                int64 (nFees s1 +
                       int64 (GetValueIn (view s1) front.2 - GetValueOut front.2))) ->
             added height m1 front.2 s s2).
  { intros s2 B2. unfold block_part in B1. injection B1 as V1 F1 G1 W1 Z1 T1 O2 N1.
    rewrite V1, F1, G1, W1, Z1, T1, O2, N1 in B2. rewrite W1 in HI, CI.
    unfold added. simpl in Size. split; [lia|]. done. }
  destruct (deps !! GetHash front.2) as [ps|].
  - simpl in E.
    destruct (release_dependers _ _ _ _) as [[orph vec]|] eqn:R; [|discriminate].
    injection E as <-. simpl. split.
    + eapply release_dependers_sourced; [exact R|]. by rewrite Q1, O1.
    + right. apply A. reflexivity.
  - injection E as <-. simpl. split; [by rewrite Q1, O1|].
    right. apply A. reflexivity.
Qed.

(** An invariant of the block part, for transactions that all have [P]. *)
Lemma select_loop_steps (P : CTransaction -> Prop) (I : Select -> Prop)
    deps height m1 m2 m3 :
  (forall s s', I s -> block_part s' = block_part s -> I s') ->
  (forall s s' tx, I s -> P tx -> added height m1 tx s s' -> I s') ->
  forall fuel s s',
    sourced P (queue s) (orphans s) -> I s ->
    select_loop fuel deps height m1 m2 m3 s = Some (Some s') ->
    I s'.
Proof.
  intros Hkept Hadd. induction fuel as [|fuel IH]; intros s s' S Is E; [discriminate|].
  simpl in E.
  destruct (pop_heap _ _) as [[front q]|] eqn:Pp; [|by injection E as <-].
  destruct (select_tx _ _ _ _ _ _ _) as [s1|] eqn:T; [|discriminate].
  apply pop_heap_elem in Pp as [Hin Sub].
  destruct S as [Sq So].
  destruct (select_tx_step P _ _ _ _ _ _ _ _ _ T) as [S1 Step].
  { split; [|exact So]. intros e He. apply Sq, Sub, He. }
  apply (IH s1 s' S1); [|exact E].
  destruct Step as [K|A]; [eapply Hkept; eauto|eapply Hadd; eauto].
Qed.

(** *** The ledger *)

Lemma replay_snoc height v txs : forall fees ops v' tx,
  replay height v txs = Some (fees, ops, v') ->
  HaveInputs v' tx = true -> ContextualCheckInputs tx v' = true ->
  replay height v (txs ++ [tx]) =
    Some (fees ++ [int64 (GetValueIn v' tx - GetValueOut tx)],
          ops ++ [uint32 (uint32 (GetLegacySigOpCount tx) + GetP2SHSigOpCount tx v')],
          UpdateCoins tx v' height).
Proof.
  revert v. induction txs as [|t txs IH]; intros v fees ops v' tx E HI CI; simpl in *.
  - injection E as <- <- <-. by rewrite HI, CI.
  - destruct (_ && _); [|discriminate].
    destruct (replay height _ txs) as [[[f o] w]|] eqn:R; [|discriminate].
    injection E as <- <- <-.
    by rewrite (IH _ _ _ _ _ R HI CI).
Qed.

Lemma replay_lengths height : forall txs v fees ops v',
  replay height v txs = Some (fees, ops, v') ->
  length fees = length txs /\ length ops = length txs.
Proof.
  induction txs as [|t txs IH]; intros v fees ops v' E; simpl in E.
  - by injection E as <- <- <-.
  - destruct (_ && _); [|discriminate].
    destruct (replay height _ txs) as [[[f o] w]|] eqn:R; [|discriminate].
    injection E as <- <- <-. destruct (IH _ _ _ _ R). simpl. lia.
Qed.

Lemma block_max_size_bound : 1000 <= block_max_size < 2 ^ 32.
Proof.
  unfold block_max_size, uint32.
  pose proof (Z.mod_pos_bound (MAX_BLOCK_SIZE - 1000) (2 ^ 32) ltac:(lia)).
  pose proof (Z.mod_pos_bound arg_blockmaxsize (2 ^ 32) ltac:(lia)). lia.
Qed.

Lemma select_ledger_kept height coins s s' :
  select_ledger height coins s -> block_part s' = block_part s ->
  select_ledger height coins s'.
Proof.
  intros L B. unfold block_part in B. injection B as V F G W Z T _ _.
  unfold select_ledger. rewrite V, F, G, W, Z, T. exact L.
Qed.

Lemma select_ledger_added height coins s s' tx :
  select_ledger height coins s -> added height block_max_size tx s s' ->
  select_ledger height coins s'.
Proof.
  intros ((t0 & f0 & g0 & V0 & F0 & G0) & R & Zn & Zc & T) (Size & HI & CI & B).
  unfold block_part in B. injection B as V F G W Zs Ts _ _.
  pose proof block_max_size_bound as M.
  assert (B32 : 0 <= uint32 (GetSerializeSize tx) < 2 ^ 32)
    by (apply Z.mod_pos_bound; lia).
  pose proof (ForkAccounts.sum_Z_uint32_nonneg GetSerializeSize (tail (sel_vtx s))) as N.
  fold (tx_sizes (tail (sel_vtx s))) in N.
  assert (Sm : uint64 (nBlockSize s + uint32 (GetSerializeSize tx)) =
               nBlockSize s + uint32 (GetSerializeSize tx)).
  { unfold uint64. apply Z.mod_small.
    destruct Zc as [Em|Zc]; [rewrite Em in Zn; unfold sum_Z in Zn; simpl in Zn|]; lia. }
  unfold select_ledger. rewrite V, F, G, W, Zs, Ts.
  rewrite V0, F0, G0. simpl.
  split; [eexists _, _, _; done|].
  split; [by apply replay_snoc|].
  unfold tx_sizes. rewrite map_app, ForkAccounts.sum_Z_app, length_app. simpl.
  fold (tx_sizes (tail (sel_vtx s))).
  split; [rewrite Sm, Zn; unfold sum_Z; simpl; lia|].
  split; [right; lia|].
  rewrite T. unfold uint64. rewrite Zplus_mod_idemp_l. f_equal. lia.
Qed.

Lemma select_ledger_init height coins q orph b :
  select_ledger height coins
    (mkSelect q orph coins [CTransaction_default] [-1] [-1] 1000 0 100 0 b).
Proof.
  unfold select_ledger. simpl. split; [eexists _, _, _; done|].
  split; [done|]. split; [done|]. split; [by left|done].
Qed.

Lemma sourced_trivial q orph : sourced (fun _ => True) q orph.
Proof. by split. Qed.

Lemma CreateNewBlock_ledger spk mapTx coins prev now now' rand T :
  CreateNewBlock spk mapTx coins prev now now' rand = Built T ->
  exists s version,
    select_ledger (nHeight prev + 1) coins s /\
    finish_block spk prev (nHeight prev + 1) version now' rand s = Built T.
Proof.
  intros E. apply CreateNewBlock_stages in E
    as (c & s & version & fuel & m2 & m3 & b & _ & L & F).
  exists s, version. split; [|exact F].
  eapply (select_loop_steps (fun _ => True) (select_ledger (nHeight prev + 1) coins));
    [| | |apply select_ledger_init|exact L].
  - apply select_ledger_kept.
  - intros s1 s2 tx L1 _ A. eapply select_ledger_added; eauto.
  - apply sourced_trivial.
Qed.

End Ledger.

(** Every transaction of a standard template after the coinbase had its
    inputs in the view made of the chain's coins and of the transactions
    placed before it, and passed the script checks there; its fee entry is
    the value of its inputs in that view minus the value of its outputs,
    its sig-op entry the legacy count plus the P2SH count in that view.
    The three lists of the template have the same length. *)
Theorem standard_template_replays `{Node} (spk : list byte)
    (mapTx : list (Z * CTransaction)) (coins : CCoinsViewCache) (prev : CBlockIndex)
    (now now' rand : Z) (T : CBlockTemplate) :
  CreateNewBlock spk mapTx coins prev now now' rand = Built T ->
  (exists v', replay (nHeight prev + 1) coins (tail (vtx (block T))) =
              Some (tail (vTxFees T), tail (vTxSigOps T), v')) /\
  length (vTxFees T) = length (vtx (block T)) /\
  length (vTxSigOps T) = length (vtx (block T)).
Proof.
  intros E. apply CreateNewBlock_ledger in E as (s & version & L & F).
  apply finish_block_lists in F as (V & Fe & G).
  destruct L as ((t0 & f0 & g0 & V0 & F0 & G0) & R & _).
  rewrite V0 in V, G. rewrite F0 in Fe. simpl in V, G, Fe. rewrite G0 in G. simpl in G.
  rewrite V, Fe, G. simpl.
  split; [eauto|].
  apply replay_lengths in R as [L1 L2]. lia.
Qed.

Lemma standard_template_replays_witness :
  let nd := Scenario.node 3 103 in
  let std := @CreateNewBlock nd [x51] Scenario.pool Scenario.chain_coins Scenario.tip
               2000 2001 0 in
  vTxFees (Scenario.built_block std) = [-3000; 1000; 1000; 1000] /\
  exists v', @replay nd 301 Scenario.chain_coins (tail (vtx (block (Scenario.built_block std)))) =
             Some ([1000; 1000; 1000], tail (vTxSigOps (Scenario.built_block std)), v').
Proof.
  intros nd std.
  assert (F : vTxFees (Scenario.built_block std) = [-3000; 1000; 1000; 1000])
    by (vm_compute; reflexivity).
  split; [exact F|].
  destruct (@standard_template_replays nd [x51] Scenario.pool Scenario.chain_coins
              Scenario.tip 2000 2001 0 (Scenario.built_block std))
    as ((v' & R) & _).
  - vm_compute. reflexivity.
  - exists v'. rewrite F in R. exact R.
Defined.



End StandardLedger.

(** ** The standard builder: the coinbase and the origin of the rest *)

Module StandardPool.
Import Standard ForkFacts StandardFacts StandardLedger.

Section Pool.
Context `{Node}.

Lemma miner_coinbase_eq spk h fees :
  miner_coinbase spk h fees =
  mkTx 1 [mkTxIn COutPoint_null (push_int64 h ++ [OP_0]) (uint32 (-1))]
       [mkTxOut (int64 (GetBlockSubsidy h GetConsensus + fees)) spk] 0 [].
Proof. reflexivity. Qed.

Lemma CreateNewBlock_inv_finish spk mapTx coins prev now now' rand T :
  CreateNewBlock spk mapTx coins prev now now' rand = Built T ->
  exists s version,
    select_inv coins s /\
    finish_block spk prev (nHeight prev + 1) version now' rand s = Built T.
Proof.
  intros E. apply CreateNewBlock_stages in E
    as (c & s & version & fuel & m2 & m3 & b & C & L & F).
  exists s, version. split; [|exact F].
  apply collect_inv_holds in C; [|apply collect_inv_init].
  destruct C as [Cq Co].
  eapply select_loop_inv; [|exact L].
  split; [|split; [|split; [|split; [|split; [|split]]]]]; simpl.
  - intros e He. destruct (Cq e He) as [Hc Hp]. split; [done|].
    intros txin Hin Hf. rewrite Hp in Hf by done. discriminate.
  - intros p o Lp. destruct (Co p o Lp) as (Hc & _ & Hd). split; [done|].
    intros txin Hin Hf. left. eauto.
  - intros i tx txin Li Lk. destruct i as [|[|i]]; [lia|done|done].
  - intros i tx Li Lk. destruct i as [|[|i]]; [lia|done|done].
  - lia.
  - eauto.
  - reflexivity.
Qed.

(** *** Where the transactions of the queue come from *)

Lemma scan_inputs_sourced (P : CTransaction -> Prop) mapTx view height tx ins :
  P tx ->
  forall c a c' a' miss,
    scan_inputs mapTx view height tx ins c a = Ok (c', a', miss) ->
    sourced P (vecPriority c) (vOrphan c) ->
    sourced P (vecPriority c') (vOrphan c').
Proof.
  intros Ptx. induction ins as [|txin ins IH]; intros c a c' a' miss E S.
  { by injection E as <- <- <-. }
  simpl in E.
  destruct (HaveCoins view (hash (prevout txin))); simpl in E.
  - destruct (AccessCoins view _) as [coins|]; [|discriminate].
    destruct (coins_vout coins !! _) as [o|]; [|discriminate].
    eapply IH; eauto.
  - destruct (mapTx_find mapTx _) as [parent|].
    + set (grown := match porphan a with
                    | Some p => (vOrphan c, p)
                    | None => (vOrphan c ++ [Some (mkOrphan tx ∅ 0 dbl_zero)],
                               length (vOrphan c))
                    end) in E.
      assert (G : forall q o, grown.1 !! q = Some (Some o) -> P (ptx o)).
      { intros q o Lq. subst grown. destruct S as [_ So].
        destruct (porphan a); simpl in Lq; [eauto|].
        apply lookup_app_Some in Lq as [Lq|[_ Lq]]; [eauto|].
        destruct (q - length (vOrphan c))%nat as [|k]; simpl in Lq;
          [by injection Lq as <-|by destruct k]. }
      destruct grown as [orph p]. simpl in G.
      destruct (orph !! p) as [[o|]|] eqn:Lp; try discriminate.
      destruct (vout parent !! _) as [po|]; [|discriminate].
      eapply IH; [exact E|]. simpl. split; [apply S|].
      intros q o' Lq. apply list_lookup_insert_Some in Lq as [(-> & Eq & _)|(_ & Lq)].
      * injection Eq as <-. simpl. eauto.
      * eauto.
    + destruct fDebug; [discriminate|]. injection E as <- <- <-.
      destruct (porphan a); [|exact S]. simpl. split; [apply S|].
      intros q o Lq. apply list_lookup_insert_Some in Lq as [(_ & Eq & _)|(_ & Lq)];
        [discriminate|]. destruct S as [_ So]. eauto.
Qed.

Lemma collect_tx_sourced mapTx view height cutoff tx c c' :
  tx ∈ map snd mapTx ->
  collect_tx mapTx view height cutoff tx c = Ok c' ->
  sourced (eligible mapTx height cutoff) (vecPriority c) (vOrphan c) ->
  sourced (eligible mapTx height cutoff) (vecPriority c') (vOrphan c').
Proof.
  intros Hin E S. unfold collect_tx in E.
  destruct (IsCoinBase tx) eqn:Cb; simpl in E; [by injection E as <-|].
  destruct (IsFinalTx tx height cutoff) eqn:Fi; simpl in E; [|by injection E as <-].
  assert (Ptx : eligible mapTx height cutoff tx) by done.
  destruct (scan_inputs _ _ _ _ _ _ _) as [[[c1 a1] miss]| |] eqn:Sc; try discriminate.
  apply (scan_inputs_sourced _ _ _ _ _ _ Ptx) in Sc; [|exact S].
  destruct miss; [by injection E as <-|].
  destruct (ApplyDeltas _ _ _) as [dP nT].
  destruct (porphan a1) as [p|].
  - destruct (vOrphan c1 !! p) as [[o|]|] eqn:Lp; try discriminate.
    injection E as <-. simpl. split; [apply Sc|].
    intros q o' Lq. apply list_lookup_insert_Some in Lq as [(-> & Eq & _)|(_ & Lq)].
    + injection Eq as <-. simpl. destruct Sc as [_ So]. eauto.
    + destruct Sc as [_ So]. eauto.
  - injection E as <-. simpl. split; [|apply Sc].
    intros e [He| ->%list_elem_of_singleton]%elem_of_app; [by apply Sc|done].
Qed.

Lemma collect_sourced mapTx view height cutoff todo :
  (forall e, e ∈ todo -> e.2 ∈ map snd mapTx) ->
  forall c c',
    collect mapTx view height cutoff todo c = Ok c' ->
    sourced (eligible mapTx height cutoff) (vecPriority c) (vOrphan c) ->
    sourced (eligible mapTx height cutoff) (vecPriority c') (vOrphan c').
Proof.
  induction todo as [|[k tx] todo IH]; intros Sub c c' E S; simpl in E.
  { by injection E as <-. }
  destruct (collect_tx _ _ _ _ _ _) as [c1| |] eqn:C; try discriminate.
  apply (IH (fun e He => Sub e (list_elem_of_further _ _ _ He)) c1 c' E).
  eapply collect_tx_sourced; [|exact C|exact S].
  apply (Sub (k, tx)). left.
Qed.

End Pool.

(** The coinbase of a standard template has the one input with the null
    outpoint and the script [push(height) ‖ OP_0], and one output to the
    miner's script that pays the subsidy of the height plus the fees of
    the template, the sum of its fee entries after the first (all in
    [CAmount] arithmetic); the first fee entry is minus that sum, and the
    first sig-op entry is the legacy count of the coinbase. *)
Theorem miner_coinbase_pays `{Node} (spk : list byte)
    (mapTx : list (Z * CTransaction)) (coins : CCoinsViewCache) (prev : CBlockIndex)
    (now now' rand : Z) (T : CBlockTemplate) :
  CreateNewBlock spk mapTx coins prev now now' rand = Built T ->
  exists cb more fees,
    vtx (block T) = cb :: more /\
    vin cb = [mkTxIn COutPoint_null (push_int64 (nHeight prev + 1) ++ [OP_0]) (uint32 (-1))] /\
    vout cb = [mkTxOut (int64 (GetBlockSubsidy (nHeight prev + 1) GetConsensus +
                               sum_CAmount fees)) spk] /\
    vTxFees T = int64 (- sum_CAmount fees) :: fees /\
    vTxSigOps T !! 0%nat = Some (GetLegacySigOpCount cb).
Proof.
  intros E. pose proof E as E'.
  apply CreateNewBlock_inv_finish in E as (s & version & I & F).
  apply CreateNewBlock_ledger in E' as (s' & version' & L & F').
  apply finish_block_lists in F as (V & Fe & G).
  destruct I as (_ & _ & _ & _ & Hl & (f0 & Hf) & Hn).
  destruct (sel_vtx s) as [|t0 more] eqn:Vs; [simpl in Hl; lia|].
  simpl in V, G.
  exists (miner_coinbase spk (nHeight prev + 1) (nFees s)), more, (tail (sel_vTxFees s)).
  split; [exact V|]. rewrite miner_coinbase_eq. simpl.
  split; [reflexivity|]. split; [by rewrite Hn|].
  split; [rewrite Fe, Hf; simpl; by rewrite Hn|].
  rewrite G.
  assert (Lg : (length (vTxSigOps T) = length (vtx (block T)))%nat).
  { apply finish_block_lists in F' as (V' & _ & G').
    destruct L as ((t1 & f1 & g1 & V1 & F1 & G1) & R & _).
    apply replay_lengths in R as [_ L2].
    rewrite V1 in V', G'. simpl in V', G'. rewrite G1 in G'. simpl in G'.
    rewrite V', G'. simpl. lia. }
  rewrite G, V in Lg. simpl in Lg.
  destruct (sel_vTxSigOps s) as [|g0 ops]; simpl in *; [lia|reflexivity].
Qed.

Lemma miner_coinbase_pays_witness :
  let nd := Scenario.node 3 103 in
  let std := @CreateNewBlock nd [x51] Scenario.pool Scenario.chain_coins Scenario.tip
               2000 2001 0 in
  exists cb more,
    vtx (block (Scenario.built_block std)) = cb :: more /\
    vout cb = [mkTxOut 1250003000 [x51]] /\
    vTxFees (Scenario.built_block std) = [-3000; 1000; 1000; 1000].
Proof.
  intros nd std.
  destruct (@miner_coinbase_pays nd [x51] Scenario.pool Scenario.chain_coins
              Scenario.tip 2000 2001 0 (Scenario.built_block std))
    as (cb & more & fees & V & _ & O & F & _).
  - vm_compute. reflexivity.
  - exists cb, more. split; [exact V|].
    assert (F' : vTxFees (Scenario.built_block std) = [-3000; 1000; 1000; 1000])
      by (vm_compute; reflexivity).
    split; [|exact F'].
    rewrite F' in F. injection F as _ <-. rewrite O. vm_compute. reflexivity.
Defined.

(** Every transaction of a standard template after the coinbase is a
    transaction of the mempool that is no coinbase and is final at the
    height of the block and the lock-time cutoff; this holds of the
    transactions that waited as orphans too. *)
Theorem standard_template_from_pool `{Node} (spk : list byte)
    (mapTx : list (Z * CTransaction)) (coins : CCoinsViewCache) (prev : CBlockIndex)
    (now now' rand : Z) (T : CBlockTemplate) (i : nat) (tx : CTransaction) :
  CreateNewBlock spk mapTx coins prev now now' rand = Built T ->
  vtx (block T) !! S i = Some tx ->
  eligible mapTx (nHeight prev + 1) (lock_time_cutoff prev now) tx.
Proof.
  intros E Hi. apply CreateNewBlock_stages in E
    as (c & s & version & fuel & m2 & m3 & b & C & L & F).
  apply finish_block_lists in F as (V & _).
  set (P := eligible mapTx (nHeight prev + 1) (lock_time_cutoff prev now)).
  assert (S0 : sourced P (vecPriority c) (vOrphan c)).
  { eapply collect_sourced; [|exact C|].
    - intros e He. apply list_elem_of_fmap. by exists e.
    - split; simpl.
      + intros e He. by apply elem_of_nil in He.
      + intros p o Lp. by rewrite lookup_nil in Lp. }
  assert (I : sel_vtx s <> [] /\ Forall P (tail (sel_vtx s))).
  { eapply (select_loop_steps P (fun s => sel_vtx s <> [] /\ Forall P (tail (sel_vtx s))));
      [| | | |exact L]; simpl.
    - intros s1 s2 I1 B. unfold block_part in B. injection B as -> _. exact I1.
    - intros s1 s2 t [N1 F1] Pt (_ & _ & _ & B).
      unfold block_part in B. injection B as -> _.
      destruct (sel_vtx s1) as [|t0 more]; [done|]. simpl in *.
      split; [discriminate|]. apply Forall_app. split; [exact F1|by constructor].
    - exact S0.
    - split; [discriminate|constructor]. }
  destruct I as [N I]. rewrite V in Hi.
  destruct (sel_vtx s) as [|t0 more]; [done|]. simpl in *.
  rewrite Forall_lookup in I. eauto.
Qed.

Lemma standard_template_from_pool_witness :
  let nd := Scenario.node 3 103 in
  let std := @CreateNewBlock nd [x51] Scenario.pool Scenario.chain_coins Scenario.tip
               2000 2001 0 in
  Scenario.tx_at 3 (Scenario.built_block std) = Scenario.txC /\
  @eligible nd Scenario.pool 301 (@lock_time_cutoff nd Scenario.tip 2000) Scenario.txC.
Proof.
  intros nd std.
  assert (E : Scenario.tx_at 3 (Scenario.built_block std) = Scenario.txC)
    by (vm_compute; reflexivity).
  split; [exact E|]. rewrite <- E.
  apply (@standard_template_from_pool nd [x51] Scenario.pool Scenario.chain_coins
           Scenario.tip 2000 2001 0 (Scenario.built_block std) 2%nat).
  - vm_compute. reflexivity.
  - vm_compute. reflexivity.
Defined.

End StandardPool.

(** ** The standard builder: the pointers to orphans *)

Module StandardSafety.
Import Standard ForkFacts StandardFacts StandardLedger.

Section Safety.
Context `{Node}.

Lemma live_insert orph p q o :
  live orph p -> live orph q -> live (<[p := Some o]> orph) q.
Proof.
  intros [op Lp] [oq Lq]. destruct (decide (q = p)) as [->|N].
  - exists o. apply list_lookup_insert_eq. by eapply lookup_lt_Some.
  - exists oq. by rewrite list_lookup_insert_ne.
Qed.

Lemma live_app orph more q : live orph q -> live (orph ++ more) q.
Proof. intros [o L]. exists o. by apply lookup_app_l_Some. Qed.

Lemma pointers_live_add deps orph h p :
  pointers_live deps orph -> live orph p ->
  pointers_live (dependers_add h p deps) orph.
Proof.
  intros PL Lp h' ps q Lk Hq. unfold dependers_add in Lk.
  destruct (decide (h' = h)) as [->|N].
  - rewrite lookup_insert_eq in Lk. injection Lk as <-.
    apply elem_of_app in Hq as [Hq| ->%list_elem_of_singleton]; [|exact Lp].
    destruct (deps !! h) as [old|] eqn:D; simpl in Hq; [by eapply PL|].
    by apply elem_of_nil in Hq.
  - rewrite lookup_insert_ne in Lk by done. by eapply PL.
Qed.

Lemma pointers_live_mono deps orph orph' :
  pointers_live deps orph -> (forall q, live orph q -> live orph' q) ->
  pointers_live deps orph'.
Proof. intros PL M h ps q Lk Hq. apply M. by eapply PL. Qed.

(** With every input resolved the scan of the inputs ends normally, finds
    nothing missing, and destroys no orphan. *)
Lemma scan_inputs_closed mapTx view height tx ins :
  forallb (input_resolves mapTx view) ins = true ->
  forall c a,
    pointers_live (mapDependers c) (vOrphan c) ->
    (forall p, porphan a = Some p -> live (vOrphan c) p) ->
    exists c' a',
      scan_inputs mapTx view height tx ins c a = Ok (c', a', false) /\
      pointers_live (mapDependers c') (vOrphan c') /\
      (forall p, porphan a' = Some p -> live (vOrphan c') p).
Proof.
  induction ins as [|txin ins IH]; intros R c a PL La; simpl.
  { eexists _, _. done. }
  simpl in R. apply andb_true_iff in R as [R1 R]. unfold input_resolves in R1.
  destruct (HaveCoins view (hash (prevout txin))); simpl.
  - destruct (AccessCoins view _) as [coins|]; [|discriminate].
    apply bool_decide_eq_true in R1 as [o ->].
    apply (IH R); [exact PL|exact La].
  - destruct (mapTx_find mapTx _) as [parent|]; [|discriminate].
    apply bool_decide_eq_true in R1 as [po Lpo]. rewrite Lpo.
    destruct (porphan a) as [p|] eqn:Pa.
    + destruct (La p eq_refl) as [o Lp]. rewrite Lp.
      apply (IH R); simpl.
      * apply pointers_live_add.
        -- eapply pointers_live_mono; [exact PL|].
           intros q Lq. apply live_insert; [by exists o|exact Lq].
        -- exists (orphan_insert_dep (hash (prevout txin)) o).
           apply list_lookup_insert_eq. by eapply lookup_lt_Some.
      * intros q [= <-]. eexists. apply list_lookup_insert_eq. by eapply lookup_lt_Some.
    + rewrite lookup_app_r by lia. rewrite Nat.sub_diag. simpl.
      assert (Ln : live (vOrphan c ++ [Some (mkOrphan tx ∅ 0 dbl_zero)])
                     (length (vOrphan c))).
      { eexists. rewrite lookup_app_r by lia. by rewrite Nat.sub_diag. }
      apply (IH R); simpl.
      * apply pointers_live_add.
        -- eapply pointers_live_mono; [exact PL|].
           intros q Lq. apply live_insert; [exact Ln|by apply live_app].
        -- eexists. apply list_lookup_insert_eq. rewrite length_app. simpl. lia.
      * intros q [= <-]. eexists. apply list_lookup_insert_eq.
        rewrite length_app. simpl. lia.
Qed.

Lemma collect_tx_closed mapTx view height cutoff tx c :
  IsCoinBase tx || forallb (input_resolves mapTx view) (vin tx) = true ->
  pointers_live (mapDependers c) (vOrphan c) ->
  exists c',
    collect_tx mapTx view height cutoff tx c = Ok c' /\
    pointers_live (mapDependers c') (vOrphan c').
Proof.
  intros R PL. unfold collect_tx.
  destruct (IsCoinBase tx); simpl in *; [eauto|].
  destruct (negb (IsFinalTx tx height cutoff)); [eauto|].
  destruct (scan_inputs_closed mapTx view height tx (vin tx) R c (mkAcc None dbl_zero 0) PL)
    as (c1 & a1 & -> & PL1 & La1); [discriminate|].
  destruct (ApplyDeltas _ _ _) as [dP nT].
  destruct (porphan a1) as [p|] eqn:Pa.
  - destruct (La1 p eq_refl) as [o Lp]. rewrite Lp.
    eexists. split; [reflexivity|]. simpl.
    eapply pointers_live_mono; [exact PL1|].
    intros q Lq. apply live_insert; [by exists o|exact Lq].
  - eexists. split; [reflexivity|]. exact PL1.
Qed.

Lemma collect_closed mapTx view height cutoff todo :
  forallb (fun e => IsCoinBase e.2 || forallb (input_resolves mapTx view) (vin e.2))
          todo = true ->
  forall c,
    pointers_live (mapDependers c) (vOrphan c) ->
    exists c',
      collect mapTx view height cutoff todo c = Ok c' /\
      pointers_live (mapDependers c') (vOrphan c').
Proof.
  induction todo as [|[k tx] todo IH]; intros R c PL; simpl.
  { eauto. }
  simpl in R. apply andb_true_iff in R as [R1 R].
  destruct (collect_tx_closed mapTx view height cutoff tx c R1 PL) as (c1 & -> & PL1).
  apply (IH R c1 PL1).
Qed.

(** Following pointers that are all live never fails, and keeps every
    orphan alive. *)
Lemma release_dependers_live txid ps :
  forall orph vec,
    (forall p, p ∈ ps -> live orph p) ->
    exists orph' vec',
      release_dependers txid ps orph vec = Some (orph', vec') /\
      (forall q, live orph q -> live orph' q).
Proof.
  induction ps as [|p ps IH]; intros orph vec Lv; simpl.
  { eexists _, _. done. }
  destruct (Lv p) as [o Lp]; [left|]. rewrite Lp.
  assert (Lps : forall q, q ∈ ps -> live orph q).
  { intros q Hq. apply Lv. by right. }
  assert (Lins : forall o' q, live orph q -> live (<[p := Some o']> orph) q).
  { intros o' q Lq. apply live_insert; [by exists o|exact Lq]. }
  destruct (bool_decide (setDependsOn o = ∅)); simpl; [by apply IH|].
  destruct (bool_decide (setDependsOn o ∖ {[txid]} = ∅)).
  - edestruct (IH (<[p := Some (orphan_erase_dep txid o)]> orph)) as (o1 & v1 & -> & M).
    { intros q Hq. apply Lins, Lps, Hq. }
    eexists _, _. split; [reflexivity|]. intros q Lq. apply M, Lins, Lq.
  - edestruct (IH (<[p := Some (orphan_erase_dep txid o)]> orph)) as (o1 & v1 & -> & M).
    { intros q Hq. apply Lins, Lps, Hq. }
    eexists _, _. split; [reflexivity|]. intros q Lq. apply M, Lins, Lq.
Qed.

Lemma select_tx_live deps height m1 m2 m3 front s :
  pointers_live deps (orphans s) ->
  exists s',
    select_tx deps height m1 m2 m3 front s = Some s' /\
    pointers_live deps (orphans s').
Proof.
  intros PL. unfold select_tx.
  destruct (_ >=? m1); [eauto|].
  destruct (_ >=? MAX_BLOCK_SIGOPS); [eauto|].
  destruct (ApplyDeltas _ _ _) as [dPd nFd].
  destruct (_ && _ && _ && _ && _); [eauto|].
  set (s1 := if _ && _ then with_fSortedByFee true s else s).
  assert (O1 : orphans s1 = orphans s) by (subst s1; by destruct (_ && _)).
  clearbody s1.
  destruct (negb (HaveInputs _ _)); [eexists; split; [reflexivity|by rewrite O1]|].
  destruct (_ >=? MAX_BLOCK_SIGOPS); [eexists; split; [reflexivity|by rewrite O1]|].
  destruct (negb (ContextualCheckInputs _ _));
    [eexists; split; [reflexivity|by rewrite O1]|].
  destruct (deps !! GetHash front.2) as [ps|] eqn:D.
  - simpl.
    destruct (release_dependers_live (GetHash front.2) ps (orphans s1) (queue s1))
      as (orph & vec & -> & M).
    { intros p Hp. rewrite O1. by eapply PL. }
    eexists. split; [reflexivity|]. simpl.
    eapply pointers_live_mono; [exact PL|]. intros q Lq. apply M. by rewrite O1.
  - eexists. split; [reflexivity|]. simpl. by rewrite O1.
Qed.

Lemma select_loop_live deps height m1 m2 m3 fuel :
  forall s,
    pointers_live deps (orphans s) ->
    select_loop fuel deps height m1 m2 m3 s <> Some None.
Proof.
  induction fuel as [|fuel IH]; intros s PL; [discriminate|]. simpl.
  destruct (pop_heap _ _) as [[front q]|]; [|discriminate].
  destruct (select_tx_live deps height m1 m2 m3 front (with_queue q s) PL)
    as (s1 & -> & PL1).
  by apply IH.
Qed.

(** A pointer to a destroyed orphan stops the release of the dependers. *)
Lemma release_dependers_dead txid ps :
  forall orph vec p,
    p ∈ ps -> orph !! p = Some None ->
    release_dependers txid ps orph vec = None.
Proof.
  induction ps as [|q ps IH]; intros orph vec p Hp Dead; [by apply elem_of_nil in Hp|].
  simpl. destruct (decide (q = p)) as [->|N].
  { by rewrite Dead. }
  inversion Hp as [|? ? ? Hp']; subst; [done|].
  destruct (orph !! q) as [[o|]|] eqn:Lq; try reflexivity.
  assert (D' : forall o', <[q := Some o']> orph !! p = Some None).
  { intros o'. by rewrite list_lookup_insert_ne. }
  destruct (negb _); [|by eapply (IH _ _ p)].
  destruct (bool_decide _); by eapply (IH _ _ p).
Qed.

End Safety.

(** In a mempool where every input of every transaction can be followed
    (to a coin of the UTXO view or to an output of a transaction of the
    pool), [CreateNewBlock] neither stops at an assertion nor follows a
    pointer to a destroyed orphan nor indexes outside a vector: it returns
    a template, or throws because [TestBlockValidity] refused the block. *)
Theorem closed_mempool_is_safe `{Node} (spk : list byte)
    (mapTx : list (Z * CTransaction)) (coins : CCoinsViewCache) (prev : CBlockIndex)
    (now now' rand : Z) :
  closed_mempool mapTx coins = true ->
  CreateNewBlock spk mapTx coins prev now now' rand = BuildRaised \/
  exists T, CreateNewBlock spk mapTx coins prev now now' rand = Built T.
Proof.
  intros Cl.
  pose proof (CreateNewBlock_fuel spk mapTx coins prev now now' rand) as Fu.
  revert Fu. unfold CreateNewBlock.
  match goal with |- context [collect ?m ?v ?h ?co ?td ?c0] =>
    destruct (collect_closed m v h co td Cl c0) as (c & -> & PL) end.
  { intros h ps p Lk. simpl in Lk. by rewrite lookup_empty in Lk. }
  match goal with |- context [select_loop ?f ?d ?h ?a ?b ?c1 ?s] =>
    pose proof (select_loop_live d h a b c1 f s PL) as Lv;
    destruct (select_loop f d h a b c1 s) as [[s'|]|] end.
  - intros _. unfold finish_block. case_match; [right; eauto|by left].
  - done.
  - done.
Qed.

Lemma closed_mempool_is_safe_witness :
  let nd := Scenario.node 3 103 in
  exists T, @CreateNewBlock nd [x51] Scenario.pool Scenario.chain_coins Scenario.tip
              2000 2001 0 = Built T.
Proof.
  intros nd.
  destruct (@closed_mempool_is_safe nd [x51] Scenario.pool Scenario.chain_coins
              Scenario.tip 2000 2001 0) as [R|R].
  - vm_compute. reflexivity.
  - vm_compute in R. discriminate.
  - exact R.
Defined.

(** An orphan destroyed because a later input of its transaction is
    nowhere stays listed under the parent it had registered for: with the
    first input spending a transaction of the pool and the second spending
    an unknown one, the scan of the inputs ends with the orphan popped off
    [vOrphan] and its pointer still in [mapDependers]; releasing the
    dependers of that parent then follows the dead pointer. *)
Theorem destroyed_orphan_stays_listed `{Node} (mapTx : list (Z * CTransaction))
    (view : CCoinsViewCache) (height : Z) (tx parent : CTransaction) (i1 i2 : CTxIn)
    (c : Collect) :
  fDebug = false ->
  HaveCoins view (hash (prevout i1)) = false ->
  mapTx_find mapTx (hash (prevout i1)) = Some parent ->
  is_Some (vout parent !! Z.to_nat (n (prevout i1))) ->
  HaveCoins view (hash (prevout i2)) = false ->
  mapTx_find mapTx (hash (prevout i2)) = None ->
  exists c' a',
    scan_inputs mapTx view height tx [i1; i2] c (mkAcc None dbl_zero 0) =
      Ok (c', a', true) /\
    vOrphan c' !! length (vOrphan c) = Some None /\
    (exists ps, mapDependers c' !! hash (prevout i1) = Some ps /\
                length (vOrphan c) ∈ ps /\
                forall vec, release_dependers (hash (prevout i1)) ps (vOrphan c') vec = None).
Proof.
  intros Dbg H1 F1 [po Lpo] H2 F2. simpl.
  rewrite H1, F1. simpl. rewrite lookup_app_r by lia. rewrite Nat.sub_diag. simpl.
  rewrite Lpo, H2, F2, Dbg. simpl.
  eexists _, _. split; [reflexivity|]. simpl.
  assert (Dead : <[pred (length (<[length (vOrphan c) :=
                    Some (orphan_insert_dep (hash (prevout i1)) (mkOrphan tx ∅ 0 dbl_zero))]>
                    (vOrphan c ++ [Some (mkOrphan tx ∅ 0 dbl_zero)]))) := None]>
                 (<[length (vOrphan c) :=
                    Some (orphan_insert_dep (hash (prevout i1)) (mkOrphan tx ∅ 0 dbl_zero))]>
                    (vOrphan c ++ [Some (mkOrphan tx ∅ 0 dbl_zero)]))
                 !! length (vOrphan c) = Some None).
  { rewrite length_insert, length_app. simpl.
    replace (pred (length (vOrphan c) + 1)) with (length (vOrphan c)) by lia.
    apply list_lookup_insert_eq. rewrite length_insert, length_app. simpl. lia. }
  split; [exact Dead|].
  unfold dependers_add. rewrite lookup_insert_eq. eexists. split; [reflexivity|].
  assert (In : length (vOrphan c) ∈
               default [] (mapDependers c !! hash (prevout i1)) ++ [length (vOrphan c)]).
  { apply elem_of_app. right. left. }
  split; [exact In|].
  intros vec. eapply StandardSafety.release_dependers_dead; [exact In|exact Dead].
Qed.

Lemma destroyed_orphan_stays_listed_witness :
  let nd := Scenario.node 3 103 in
  let child := mkTx 1 [mkTxIn (mkOutPoint 11 0) [] 0; mkTxIn (mkOutPoint 12345 0) [] 0]
                 [mkTxOut 1 [x51]] 3 [] in
  @CreateNewBlock nd [x51] [(3, child); (11, Scenario.txA)] Scenario.chain_coins
    Scenario.tip 2000 2001 0 = BuildUndefined /\
  exists c' a',
    @scan_inputs nd [(3, child); (11, Scenario.txA)] Scenario.chain_coins 301 child
      (vin child) (@mkCollect nd [] ∅ []) (@mkAcc nd None 0 0) = @Ok _ (c', a', true) /\
    @vOrphan nd c' !! 0%nat = Some None.
Proof.
  intros nd child. split; [vm_compute; reflexivity|].
  destruct (@destroyed_orphan_stays_listed nd [(3, child); (11, Scenario.txA)]
              Scenario.chain_coins 301 child Scenario.txA
              (mkTxIn (mkOutPoint 11 0) [] 0) (mkTxIn (mkOutPoint 12345 0) [] 0)
              (@mkCollect nd [] ∅ []))
    as (c' & a' & Sc & Dead & _).
  - reflexivity.
  - vm_compute. reflexivity.
  - vm_compute. reflexivity.
  - vm_compute. eexists. reflexivity.
  - vm_compute. reflexivity.
  - vm_compute. reflexivity.
  - exists c', a'. split; [exact Sc|exact Dead].
Defined.

End StandardSafety.

(** ** The standard builder: the order of the queue *)

Module StandardQueue.
Import Standard StandardFacts.

Section Queue.
Context `{Node}.

(** In fee mode the comparer puts an entry below another only if its fee
    rate is not higher. *)
Lemma fee_compare_le (a b : TxPriority) :
  TxPriorityCompare true a b = true -> a.1.2 <= b.1.2.
Proof.
  unfold TxPriorityCompare. destruct (Z.eqb_spec a.1.2 b.1.2); [lia|].
  intros L%Z.ltb_lt. lia.
Qed.

Lemma fee_compare_ge (a b : TxPriority) :
  TxPriorityCompare true a b = false -> b.1.2 <= a.1.2.
Proof.
  unfold TxPriorityCompare. destruct (Z.eqb_spec a.1.2 b.1.2); [lia|].
  intros L%Z.ltb_ge. lia.
Qed.

Lemma heap_front_from_fee (L : list TxPriority) : forall l best bestv i,
  L !! best = Some bestv ->
  drop i L = l ->
  exists y,
    L !! heap_front_from (TxPriorityCompare true) best bestv i l = Some y /\
    bestv.1.2 <= y.1.2 /\
    forall z, z ∈ l -> z.1.2 <= y.1.2.
Proof.
  induction l as [|a l IH]; intros best bestv i Lb D; cbn [heap_front_from].
  - exists bestv. split; [exact Lb|]. split; [lia|].
    intros z Hz. by apply elem_of_nil in Hz.
  - assert (La : L !! i = Some a).
    { pose proof (lookup_drop L i 0) as X. rewrite D, Nat.add_0_r in X. by rewrite <- X. }
    assert (D' : drop (S i) L = l).
    { pose proof (drop_drop L 1 i) as X. rewrite D, Nat.add_1_r in X. by rewrite <- X. }
    destruct (TxPriorityCompare true bestv a) eqn:C.
    + destruct (IH i a (S i) La D') as (y & Ly & Ay & Al).
      apply fee_compare_le in C.
      exists y. split; [exact Ly|]. split; [lia|].
      intros z Hz. inversion Hz; subst; [lia|eauto].
    + destruct (IH best bestv (S i) Lb D') as (y & Ly & By & Al).
      apply fee_compare_ge in C.
      exists y. split; [exact Ly|]. split; [lia|].
      intros z Hz. inversion Hz; subst; [lia|eauto].
Qed.

End Queue.

(** Once the queue is ordered by fee, the transaction taken off it pays
    the highest fee rate of the queue. *)
Theorem fee_mode_takes_highest_fee_rate `{Node} (q q' : list TxPriority)
    (front : TxPriority) :
  pop_heap (TxPriorityCompare true) q = Some (front, q') ->
  forall e, e ∈ q -> e.1.2 <= front.1.2.
Proof.
  unfold pop_heap, heap_front. destruct q as [|x q]; [discriminate|].
  destruct (heap_front_from_fee (x :: q) q 0%nat x 1%nat eq_refl eq_refl)
    as (y & Ly & Xy & Al).
  cbv beta iota. destruct (_ !! _) as [x0|] eqn:Lx; [|discriminate].
  injection Ly as ->. intros [= <- <-] e He.
  inversion He; subst; [lia|eauto].
Qed.

Lemma fee_mode_takes_highest_fee_rate_witness :
  let nd := Scenario.node 3 103 in
  let q := [(0, 5, Scenario.txA); (0, 9, Scenario.txB); (7, 9, Scenario.txC)] in
  let q' := [(0, 5, Scenario.txA); (0, 9, Scenario.txB)] in
  pop_heap (TxPriorityCompare true) q = Some ((7, 9, Scenario.txC), q') /\
  Forall (fun e => e.1.2 <= 9) q.
Proof.
  intros nd q q'.
  assert (P : pop_heap (TxPriorityCompare true) q = Some ((7, 9, Scenario.txC), q'))
    by reflexivity.
  split; [exact P|]. apply Forall_forall.
  exact (@fee_mode_takes_highest_fee_rate nd q q' (7, 9, Scenario.txC) P).
Defined.

(** The switch of the queue to the order by fee is one-way: a turn of
    the selection loop that starts in fee order ends in it, and so does
    the loop. *)
Theorem fee_mode_is_one_way `{Node} (fuel : nat) (deps : gmap Z (list nat))
    (height m1 m2 m3 : Z) : forall s s',
  fSortedByFee s = true ->
  select_loop fuel deps height m1 m2 m3 s = Some (Some s') ->
  fSortedByFee s' = true.
Proof.
  assert (Step : forall front s s',
             fSortedByFee s = true ->
             select_tx deps height m1 m2 m3 front s = Some s' ->
             fSortedByFee s' = true).
  { intros front s s' Fs E. unfold select_tx in E.
    destruct (_ >=? m1); [by injection E as <-|].
    destruct (_ >=? MAX_BLOCK_SIGOPS); [by injection E as <-|].
    destruct (ApplyDeltas _ _ _) as [dPd nFd].
    destruct (_ && _ && _ && _ && _); [by injection E as <-|].
    set (s1 := if _ && _ then with_fSortedByFee true s else s) in E.
    assert (F1 : fSortedByFee s1 = true) by (subst s1; by destruct (_ && _)).
    clearbody s1.
    destruct (negb (HaveInputs _ _)); [by injection E as <-|].
    destruct (_ >=? MAX_BLOCK_SIGOPS); [by injection E as <-|].
    destruct (negb (ContextualCheckInputs _ _)); [by injection E as <-|].
    destruct (deps !! _).
    - simpl in E. destruct (release_dependers _ _ _ _) as [[orph vec]|]; [|discriminate].
      by injection E as <-.
    - by injection E as <-. }
  induction fuel as [|fuel IH]; intros s s' Fs E; [discriminate|].
  simpl in E. destruct (pop_heap _ _) as [[front q]|]; [|by injection E as <-].
  destruct (select_tx _ _ _ _ _ _ _) as [s1|] eqn:T; [|discriminate].
  apply (IH s1 s'); [|exact E]. eapply Step; [|exact T]. exact Fs.
Qed.

Lemma fee_mode_is_one_way_witness :
  let nd := Scenario.node 3 103 in
  let s := @mkSelect nd [(0, 500, Scenario.txA)] [] Scenario.chain_coins
             [CTransaction_default] [-1] [-1] 1000 0 100 0 true in
  let s' := match @select_loop nd 2 ∅ 301 1999000 0 0 s with
            | Some (Some x) => x
            | _ => s
            end in
  @sel_vtx nd s' = [CTransaction_default; Scenario.txA] /\
  @fSortedByFee nd s' = true.
Proof.
  intros nd s s'. split; [vm_compute; reflexivity|].
  apply (@fee_mode_is_one_way nd 2 ∅ 301 1999000 0 0 s s'); reflexivity.
Defined.

End StandardQueue.

(** ** IncrementExtraNonce: the counter and what is left alone *)

Module ExtraNonce.
Import Standard.



End ExtraNonce.
